(** * AI-text detection scorer: a shallow embedding and its properties

    The development follows [backend/app/services/ai_detection.py]:
    class [AIDetectionService], its lexicons, the five analyzers
    ([_check_ai_patterns], [_analyze_structure], [_analyze_vocabulary],
    [_analyze_consistency], [_check_repetition]), the reporter
    [_get_indicators], the statistics helpers and [analyze_text].

    Conventions of the embedding.
    - A Python [str] is the list of its characters; characters are 8-bit
      ([ascii]), standing for the code points below 256, with Python's
      whitespace, word-character and case tables on that range.
    - A Python [int] is a [nat] (all the integers of the scorer are counts).
    - A Python [float] is a rational of the binary floating-point format
      with 53 significant bits, every operation being the exact operation
      followed by rounding to nearest, ties to even.  The exponent range
      is left unbounded: every quantity of the scorer is a count bounded
      by the length of the text, or a ratio, product or square root of
      such counts, far inside the range of binary64.  Module [Binary64]
      compares the operations of the model with the primitive binary64
      operations on sample values.
    - An operation that raises in Python ([ZeroDivisionError],
      [ValueError], [IndexError]) returns [None]. *)

From Stdlib Require Import ZArith QArith Qround Qpower Qabs Lia Lqa Bool Ascii String List.
From Stdlib Require Uint63 PrimFloat.
From Stdlib Require Import Sorted.
Import ListNotations.

Set Implicit Arguments.

Local Open Scope Q_scope.

(** ** Binary floating point *)

Module Float.

(** A float is a rational; the values that occur are the images of [rnd]. *)
Definition float := Q.

Definition prec : Z := 53.

(** [pow2 k] is 2^k, for every integer [k]. *)
Definition pow2 (k : Z) : Q := Qpower 2 k.

(** [ilog2 x] is the exponent [e] with 2^e <= x < 2^(e+1), for [0 < x]. *)
Definition ilog2 (x : Q) : Z :=
  let g := (Z.log2 (Qnum x) - Z.log2 (Zpos (Qden x)))%Z in
  if Qle_bool (pow2 g) x then g else (g - 1)%Z.

(** Rounding of a rational to the nearest integer, ties to even. *)
Definition rne (x : Q) : Z :=
  let f := Qfloor x in
  match Qcompare (x - inject_Z f) (1 # 2) with
  | Lt => f
  | Gt => (f + 1)%Z
  | Eq => if Z.even f then f else (f + 1)%Z
  end.

(** Rounding of a positive rational to [prec] significant bits: with
    2^e <= x < 2^(e+1), the multiple of 2^(e-prec+1) nearest to [x]. *)
Definition rnd_pos (x : Q) : Q :=
  let k := (ilog2 x - (prec - 1))%Z in
  inject_Z (rne (x / pow2 k)) * pow2 k.

(** Rounding of a rational to the nearest float, ties to even; the
    format is sign and magnitude, so a negative rational is rounded
    through its opposite. *)
Definition rnd (x : Q) : float :=
  match Qcompare x 0 with
  | Eq => 0
  | Gt => Qred (rnd_pos x)
  | Lt => Qred (- rnd_pos (- x))
  end.

(** A decimal literal [n/d] of the source denotes the nearest float. *)
Definition lit (n : Z) (d : positive) : float := rnd (n # d).

(** [float(n)] for an integer [n]. *)
Definition of_nat (n : nat) : float := rnd (inject_Z (Z.of_nat n)).

Definition fadd (x y : float) : float := rnd (x + y).
Definition fsub (x y : float) : float := rnd (x - y).
Definition fmul (x y : float) : float := rnd (x * y).

(** [x / y] on floats raises [ZeroDivisionError] when [y] is zero. *)
Definition fdiv (x y : float) : option float :=
  if Qeq_bool y 0 then None else Some (rnd (x / y)).

(** [a / b] on integers is the correctly rounded quotient of the exact
    integers, and raises when [b] is zero. *)
Definition truediv (a b : nat) : option float :=
  match b with
  | O => None
  | S _ => Some (rnd (Z.of_nat a # Pos.of_nat b))
  end.

(** [x ** 2]: [pow] of the C library, taken as the correctly rounded
    square. *)
Definition fsquare (x : float) : float := rnd (x * x).

Definition fle (x y : float) : bool := Qle_bool x y.
Definition flt (x y : float) : bool := negb (Qle_bool y x).

(** [min(a, b)] of Python returns [a] unless [b < a]. *)
Definition fmin (a b : float) : float := if flt b a then b else a.

(** Nearest integer to the square root of a non-negative rational,
    ties to even. *)
Definition rne_sqrt (s : Q) : Z :=
  let t := Z.sqrt (Qfloor s) in
  let h := inject_Z t + (1 # 2) in
  match Qcompare s (h * h) with
  | Lt => t
  | Gt => (t + 1)%Z
  | Eq => if Z.even t then t else (t + 1)%Z
  end.

(** [math.sqrt(x)], correctly rounded; raises [ValueError] on a negative
    argument.  With 4^h <= x < 4^(h+1) the root lies in [2^h, 2^(h+1)). *)
Definition fsqrt (x : float) : option float :=
  match Qcompare x 0 with
  | Eq => Some 0
  | Lt => None
  | Gt =>
      let k := (Z.div (ilog2 x) 2 - (prec - 1))%Z in
      Some (Qred (inject_Z (rne_sqrt (x / pow2 (2 * k))) * pow2 k))
  end.

(** [round(x, nd)] of a float: the exact value is rounded to [nd]
    decimals, ties to even, and the decimal is read back as a float. *)
Definition round_nd (x : float) (nd : nat) : float :=
  let p := Pos.of_nat (Nat.pow 10 nd) in
  rnd (rne (x * inject_Z (Zpos p)) # p).

(** A float: a fixed point of rounding. *)
Definition is_float (x : Q) : Prop := rnd x = x.

End Float.

(** ** The rounding model against binary64 *)

Module Binary64.
Import Float.

Definition prim_of_Z (z : Z) : PrimFloat.float :=
  match z with
  | Z0 => PrimFloat.zero
  | Zpos _ => PrimFloat.of_uint63 (Uint63.of_Z z)
  | Zneg p => PrimFloat.opp (PrimFloat.of_uint63 (Uint63.of_Z (Zpos p)))
  end.

(** The binary64 number that a float of the model denotes, for a
    numerator below 2^63 and a denominator that is a power of two
    below 2^120: both quotients are then exact. *)
Definition to_prim (x : float) : PrimFloat.float :=
  let d := Zpos (Qden x) in
  let h := Z.pow 2 60 in
  if (d <=? h)%Z then PrimFloat.div (prim_of_Z (Qnum x)) (prim_of_Z d)
  else PrimFloat.div (PrimFloat.div (prim_of_Z (Qnum x)) (prim_of_Z h))
                     (prim_of_Z (d / h)).

(** The literals of the scorer and a few other values. *)
Definition samples : list float :=
  [ lit 1 100; lit 2 100; lit 3 100; lit 4 100; lit 5 100; lit 7 100;
    lit 8 100; lit 15 100; lit 18 100; lit 20 100; lit 25 100; lit 30 100;
    lit 35 100; lit 40 100; lit 45 100; lit 55 100; lit 65 100;
    lit 1 10; lit 2 10; lit 3 10; lit 4 10; lit 5 10; lit 6 10; lit 8 10;
    lit 1 1; lit 2 1; lit 3 1; lit 100 1; lit 3 22; lit 7 3; lit 1234567 1000 ].

Definition agree (f : float -> float -> float)
           (g : PrimFloat.float -> PrimFloat.float -> PrimFloat.float) : bool :=
  forallb (fun x =>
    forallb (fun y =>
      PrimFloat.eqb (to_prim (f x y)) (g (to_prim x) (to_prim y))) samples)
    samples.

Definition agree_sqrt : bool :=
  forallb (fun x =>
    match fsqrt x with
    | Some r => PrimFloat.eqb (to_prim r) (PrimFloat.sqrt (to_prim x))
    | None => false
    end) samples.

(** A literal [n/d] against the binary64 quotient of [n] by [d]. *)
Definition agree_lit : bool :=
  forallb (fun nd : Z * positive =>
    PrimFloat.eqb (to_prim (lit (fst nd) (snd nd)))
                  (PrimFloat.div (prim_of_Z (fst nd)) (prim_of_Z (Zpos (snd nd)))))
    [ (35%Z, 100%positive); (25%Z, 100%positive); (20%Z, 100%positive);
      (15%Z, 100%positive); (5%Z, 100%positive); (8%Z, 10%positive);
      (3%Z, 10%positive); (1%Z, 10%positive); (55%Z, 100%positive);
      (18%Z, 100%positive); (1%Z, 3%positive); ((-7)%Z, 10%positive) ].

End Binary64.

(** ** Python strings *)

Module Str.

Definition text := list ascii.

(** A string literal of the source. *)
Definition str (s : string) : text := list_ascii_of_string s.

Definition code (c : ascii) : nat := nat_of_ascii c.

Definition between (lo hi n : nat) : bool := (lo <=? n)%nat && (n <=? hi)%nat.

(** Whitespace of [str.split()] and [str.strip()]. *)
Definition isspace (c : ascii) : bool :=
  let n := code c in
  between 9 13 n || between 28 32 n || (n =? 133)%nat || (n =? 160)%nat.

(** [\w] of the [re] module on [str]: alphanumeric or underscore. *)
Definition is_word (c : ascii) : bool :=
  let n := code c in
  between 48 57 n || between 65 90 n || between 97 122 n || (n =? 95)%nat
  || (n =? 170)%nat || (n =? 178)%nat || (n =? 179)%nat || (n =? 181)%nat
  || (n =? 185)%nat || (n =? 186)%nat || between 188 190 n
  || between 192 214 n || between 216 246 n || between 248 255 n.

(** [string.punctuation]. *)
Definition is_punctuation (c : ascii) : bool :=
  let n := code c in
  between 33 47 n || between 58 64 n || between 91 96 n || between 123 126 n.

Definition lower_char (c : ascii) : ascii :=
  let n := code c in
  if between 65 90 n || between 192 214 n || between 216 222 n
  then ascii_of_nat (n + 32) else c.

(** [s.lower()] *)
Definition lower (s : text) : text := map lower_char s.

Fixpoint lstrip (p : ascii -> bool) (s : text) : text :=
  match s with
  | [] => []
  | c :: s' => if p c then lstrip p s' else s
  end.

Definition rstrip (p : ascii -> bool) (s : text) : text :=
  rev (lstrip p (rev s)).

(** [s.strip(chars)], the characters given by a predicate. *)
Definition strip_chars (p : ascii -> bool) (s : text) : text :=
  rstrip p (lstrip p s).

(** [s.strip()] *)
Definition strip (s : text) : text := strip_chars isspace s.

(** Maximal runs of characters that are not separators; [cur] is the
    run being read, in reverse. *)
Fixpoint runs_aux (sep : ascii -> bool) (cur : text) (s : text) : list text :=
  match s with
  | [] => match cur with [] => [] | _ :: _ => [rev cur] end
  | c :: s' =>
      if sep c then
        match cur with
        | [] => runs_aux sep [] s'
        | _ :: _ => rev cur :: runs_aux sep [] s'
        end
      else runs_aux sep (c :: cur) s'
  end.

(** [s.split()]: the maximal runs of non-whitespace characters. *)
Definition split (s : text) : list text := runs_aux isspace [] s.

(** [re.findall(r'\b\w+\b', s)]: a match starts at a word boundary
    before a word character and the greedy [\w+] runs to the next
    boundary, so the matches are the maximal runs of word characters. *)
Definition findall_words (s : text) : list text :=
  runs_aux (fun c => negb (is_word c)) [] s.

Definition is_sentence_end (c : ascii) : bool :=
  let n := code c in (n =? 46)%nat || (n =? 33)%nat || (n =? 63)%nat.

(** [re.split(r'[.!?]+', s)]: the pieces between the maximal runs of
    '.', '!' and '?', the empty pieces at both ends included.
    [in_run] says that the previous character was a delimiter. *)
Fixpoint re_split_aux (cur : text) (in_run : bool) (s : text) : list text :=
  match s with
  | [] => [rev cur]
  | c :: s' =>
      if is_sentence_end c then
        if in_run then re_split_aux [] true s'
        else rev cur :: re_split_aux [] true s'
      else re_split_aux (c :: cur) false s'
  end.

Definition re_split (s : text) : list text := re_split_aux [] false s.

Definition is_newline (c : ascii) : bool := (code c =? 10)%nat.

(** [s.split('\n\n')]: split at the occurrences of two newlines, read
    from the left without overlap. *)
Fixpoint split_blank_aux (cur : text) (s : text) : list text :=
  match s with
  | [] => [rev cur]
  | c :: s1 =>
      match s1 with
      | [] => [rev (c :: cur)]
      | c2 :: s2 =>
          if is_newline c && is_newline c2
          then rev cur :: split_blank_aux [] s2
          else split_blank_aux (c :: cur) s1
      end
  end.

Definition split_blank (s : text) : list text := split_blank_aux [] s.

Definition nonempty (s : text) : bool :=
  match s with [] => false | _ :: _ => true end.

(** [[p.strip() for p in pieces if p.strip()]] *)
Definition stripped_nonempty (pieces : list text) : list text :=
  map strip (filter (fun p => nonempty (strip p)) pieces).

(** [s.count(c)] for a one-character [c]. *)
Definition count_char (n : nat) (s : text) : nat :=
  length (filter (fun c => (code c =? n)%nat) s).

Fixpoint text_eqb (a b : text) : bool :=
  match a, b with
  | [], [] => true
  | x :: a', y :: b' => Ascii.eqb x y && text_eqb a' b'
  | _, _ => false
  end.

(** [w in lexicon] *)
Definition mem (w : text) (lexicon : list text) : bool :=
  existsb (text_eqb w) lexicon.

(** [len(set(words))] *)
Fixpoint distinct (l : list text) : list text :=
  match l with
  | [] => []
  | w :: l' => if mem w l' then distinct l' else w :: distinct l'
  end.

(** [collections.Counter]: the keys in the order of first occurrence,
    each with its number of occurrences. *)
Fixpoint counter_add (k : text) (c : list (text * nat)) : list (text * nat) :=
  match c with
  | [] => [(k, 1%nat)]
  | (k', n) :: c' =>
      if text_eqb k k' then (k', S n) :: c' else (k', n) :: counter_add k c'
  end.

Definition Counter (l : list text) : list (text * nat) :=
  fold_left (fun c k => counter_add k c) l [].

Definition values (c : list (text * nat)) : list nat := map snd c.

(** [max(l)] and [min(l)] raise [ValueError] on an empty list. *)
Definition list_max (l : list nat) : option nat :=
  match l with
  | [] => None
  | x :: l' => Some (fold_left Nat.max l' x)
  end.

Definition list_min (l : list nat) : option nat :=
  match l with
  | [] => None
  | x :: l' => Some (fold_left Nat.min l' x)
  end.

(** [max(c, key=c.get)]: the first key, in the order of the counter,
    whose count is the greatest. *)
Fixpoint argmax_from (best : text * nat) (c : list (text * nat)) : text :=
  match c with
  | [] => fst best
  | (k, n) :: c' =>
      if (snd best <? n)%nat then argmax_from (k, n) c' else argmax_from best c'
  end.

Definition argmax (c : list (text * nat)) : option text :=
  match c with
  | [] => None
  | b :: c' => Some (argmax_from b c')
  end.

End Str.

(** ** Regular expressions of the scorer *)

Module Re.
Import Str.

(** The fragment of [re] syntax that the patterns use. *)
Inductive regex : Type :=
| Lit (s : string)          (* a run of literal characters *)
| AnyStar                   (* [.*], greedy; [.] excludes the newline *)
| Bnd                       (* [\b] *)
| Cat (r1 r2 : regex)
| Alt (r1 r2 : regex).

(** A position in the subject: the character before it, if any, and the
    characters from it on. *)
Definition position : Type := option ascii * text.

Definition word_before (p : position) : bool :=
  match fst p with Some c => is_word c | None => false end.

Definition word_after (p : position) : bool :=
  match snd p with c :: _ => is_word c | [] => false end.

Definition at_boundary (p : position) : bool :=
  xorb (word_before p) (word_after p).

(** A literal character against a subject character; [ic] is
    [re.IGNORECASE]. *)
Definition char_match (ic : bool) (c t : ascii) : bool :=
  if ic then Ascii.eqb (lower_char c) (lower_char t) else Ascii.eqb c t.

Fixpoint lit_end (ic : bool) (l : text) (prev : option ascii) (s : text)
  : option position :=
  match l with
  | [] => Some (prev, s)
  | c :: l' =>
      match s with
      | t :: s' => if char_match ic c t then lit_end ic l' (Some t) s' else None
      | [] => None
      end
  end.

(** The positions where [.*] may end, the longest first. *)
Fixpoint any_star (prev : option ascii) (s : text) : list position :=
  match s with
  | [] => [(prev, s)]
  | c :: s' =>
      if is_newline c then [(prev, s)]
      else any_star (Some c) s' ++ [(prev, s)]
  end.

(** The positions where a match of [r] that starts at [p] may end, in
    the order in which backtracking tries them. *)
Fixpoint ends (ic : bool) (r : regex) (p : position) : list position :=
  match r with
  | Lit l =>
      match lit_end ic (str l) (fst p) (snd p) with
      | Some q => [q]
      | None => []
      end
  | AnyStar => any_star (fst p) (snd p)
  | Bnd => if at_boundary p then [p] else []
  | Cat r1 r2 => flat_map (ends ic r2) (ends ic r1 p)
  | Alt r1 r2 => ends ic r1 p ++ ends ic r2 p
  end.

Definition matches_at (ic : bool) (r : regex) (p : position) : bool :=
  match ends ic r p with [] => false | _ :: _ => true end.

Fixpoint search_from (ic : bool) (r : regex) (prev : option ascii) (s : text)
  : bool :=
  matches_at ic r (prev, s)
  || match s with
     | [] => false
     | c :: s' => search_from ic r (Some c) s'
     end.

(** The truth value of [re.search(r, s)]. *)
Definition search (ic : bool) (r : regex) (s : text) : bool :=
  search_from ic r None s.

(** [(a|b|...)] over literals. *)
Fixpoint any_of (first : string) (others : list string) : regex :=
  match others with
  | [] => Lit first
  | o :: others' => Alt (Lit first) (any_of o others')
  end.

(** [\b(...)\b] *)
Definition bounded (r : regex) : regex := Cat Bnd (Cat r Bnd).

End Re.

(** ** The service *)

Module AIDetectionService.
Import Float Str Re.

Local Open Scope string_scope.

(** The fourteen entries of [self.ai_patterns], in the order of the list. *)
Definition pattern_self_reference : regex :=
  bounded (any_of "as an AI" ["I am an AI"; "I'm an AI"; "language model"; "AI assistant"]).

Definition pattern_disclaimer : regex :=
  Cat Bnd (Cat (any_of "I don't have" ["I cannot"; "I can't"])
          (Cat (Lit " ")
          (Cat (any_of "personal" ["opinions"; "feelings"; "emotions"; "access"]) Bnd))).

Definition pattern_hedging : regex :=
  bounded (any_of "it's important to note" ["it's worth noting"; "it should be noted"]).

Definition pattern_conclusion : regex :=
  bounded (any_of "in conclusion" ["to summarize"; "in summary"; "to sum up"]).

Definition pattern_delve : regex :=
  bounded (any_of "delve into" ["dive into"; "exploring"; "understanding"; "navigating"]).

Definition pattern_embark : regex :=
  bounded (any_of "embark on" ["journey into"; "landscape of"; "realm of"; "world of"]).

Definition pattern_guide : regex :=
  bounded (any_of "comprehensive guide" ["step-by-step"; "detailed overview"]).

Definition pattern_ensure : regex :=
  bounded (any_of "ensure that" ["make sure"; "it is crucial"; "vital to"]).

Definition pattern_range : regex :=
  bounded (Alt (Cat (Lit "ranging from ") (Cat AnyStar (Lit " to")))
               (Cat (Lit "from ") (Cat AnyStar (Cat (Lit " to ") AnyStar)))).

Definition pattern_whether : regex :=
  bounded (any_of "whether you're" ["whether it's"; "regardless of"]).

Definition pattern_foremost : regex :=
  bounded (any_of "first and foremost" ["last but not least"]).

Definition pattern_pros_cons : regex :=
  bounded (any_of "pros and cons" ["advantages and disadvantages"]).

Definition pattern_cutting_edge : regex :=
  bounded (any_of "cutting-edge" ["state-of-the-art"; "revolutionary"]).

Definition pattern_game_changer : regex :=
  bounded (any_of "game-changer" ["paradigm shift"; "transforms the way"]).

(** [self.ai_patterns] *)
Definition ai_patterns : list regex :=
  [ pattern_self_reference; pattern_disclaimer; pattern_hedging;
    pattern_conclusion; pattern_delve; pattern_embark; pattern_guide;
    pattern_ensure; pattern_range; pattern_whether; pattern_foremost;
    pattern_pros_cons; pattern_cutting_edge; pattern_game_changer ].

(** [self.ai_transitions] *)
Definition ai_transitions : list text :=
  map str
    [ "however"; "furthermore"; "moreover"; "additionally"; "consequently";
      "therefore"; "thus"; "hence"; "nevertheless"; "nonetheless";
      "meanwhile"; "subsequently"; "accordingly"; "likewise"; "similarly" ].

(** [self.ai_buzzwords] *)
Definition ai_buzzwords : list text :=
  map str
    [ "leverage"; "optimize"; "utilize"; "facilitate"; "implement";
      "demonstrate"; "indicate"; "comprehensive"; "significant";
      "substantial"; "optimal"; "crucial"; "vital"; "essential";
      "robust"; "seamless"; "innovative"; "revolutionize"; "enhance";
      "streamline"; "dynamic"; "versatile"; "efficient"; "effective" ].

(** [formal_words] of [_analyze_vocabulary] *)
Definition formal_words : list text :=
  map str
    [ "utilize"; "facilitate"; "implement"; "demonstrate"; "indicate";
      "comprehensive"; "significant"; "substantial"; "optimal"; "crucial";
      "moreover"; "furthermore"; "subsequently"; "consequently"; "nevertheless" ].

Local Close Scope string_scope.

(** [[s.strip() for s in re.split(r'[.!?]+', text) if s.strip()]] *)
Definition sentences (t : text) : list text := stripped_nonempty (re_split t).

(** [[p.strip() for p in text.split('\n\n') if p.strip()]] *)
Definition paragraphs (t : text) : list text := stripped_nonempty (split_blank t).

(** [len(s.split())] *)
Definition words_in (s : text) : nat := length (split s).

Definition count_if {A : Type} (p : A -> bool) (l : list A) : nat :=
  length (filter p l).

(** [sum(...)] over integers and over floats: the additions from the
    left, starting at the integer 0, each one rounded (from version 3.12
    CPython compensates the rounding errors of a float sum; the sums of
    the scorer are sums of squares of deviations, and no statement below
    depends on their last bit). *)
Definition sum_nat (l : list nat) : nat := fold_left Nat.add l O.
Definition sum_float (l : list float) : float := fold_left fadd l 0.

(** Sequencing of operations that may raise. *)
Definition bind {A B : Type} (x : option A) (k : A -> option B) : option B :=
  match x with
  | Some a => k a
  | None => None
  end.

Notation "x <- e ;; k" := (bind e (fun x => k))
  (at level 61, e at next level, right associativity).

(** *** [_check_ai_patterns] *)

(** [pattern_matches]: the number of patterns of [ai_patterns] that
    [re.search] finds, with [re.IGNORECASE], in the lowered text. *)
Definition pattern_matches (text_lower : text) : nat :=
  count_if (fun pattern => search true pattern text_lower) ai_patterns.

(** [word.strip(string.punctuation) in self.ai_transitions] *)
Definition is_transition (word : text) : bool :=
  mem (strip_chars is_punctuation word) ai_transitions.

(** The block [if pattern_matches > 0: score += ...]. *)
Definition add_pattern_boost (pattern_matches : nat) (score : float) : float :=
  if (0 <? pattern_matches)%nat
  then fadd score (fmin (fmul (of_nat pattern_matches) (lit 25 100)) (lit 8 10))
  else score.

(** [transition_count / len(words)] *)
Definition transition_ratio (words : list text) : option float :=
  truediv (count_if is_transition words) (length words).

(** The block [if words: ...]. *)
Definition add_transition_boost (words : list text) (score : float)
  : option float :=
  match words with
  | [] => Some score
  | _ :: _ =>
      transition_ratio <- transition_ratio words ;;
      if fle (lit 8 100) transition_ratio
      then Some (fadd score (fmin (fmul transition_ratio (of_nat 3)) (lit 5 10)))
      else if fle (lit 5 100) transition_ratio
      then Some (fadd score (lit 2 10))
      else Some score
  end.

Definition _check_ai_patterns (t : text) : option float :=
  let text_lower := lower t in
  let score := lit 0 1 in
  let score := add_pattern_boost (pattern_matches text_lower) score in
  score <- add_transition_boost (split text_lower) score ;;
  Some (fmin score (lit 1 1)).

(** *** [_analyze_structure] *)

(** The coefficient of variation of a list of lengths, as the source
    computes it in [_analyze_structure], [_analyze_consistency] and
    [_get_indicators]: mean, population variance, [math.sqrt], and the
    quotient, or 1.0 when the mean is not positive. *)
Definition coefficient_of_variation (lengths : list nat) : option float :=
  avg_length <- truediv (sum_nat lengths) (length lengths) ;;
  variance <- fdiv (sum_float (map (fun l => fsquare (fsub (of_nat l) avg_length)) lengths))
                   (of_nat (length lengths)) ;;
  std_dev <- fsqrt variance ;;
  if flt 0 avg_length then fdiv std_dev avg_length else Some (lit 1 1).

(** The block on [cv]. *)
Definition add_variation_score (cv : float) (score : float) : float :=
  if flt cv (lit 30 100) then fadd score (lit 6 10)
  else if flt cv (lit 40 100) then fadd score (lit 4 10)
  else fadd score (lit 1 10).

(** The block on [medium_ratio]. *)
Definition add_medium_score (medium_ratio : float) (score : float) : float :=
  if flt (lit 6 10) medium_ratio then fadd score (lit 4 10)
  else if flt (lit 4 10) medium_ratio then fadd score (lit 2 10)
  else score.

Definition is_medium (l : nat) : bool := (12 <=? l)%nat && (l <=? 20)%nat.

(** The body of [_analyze_structure] from [lengths] on. *)
Definition structure_of_lengths (lengths : list nat) : option float :=
  let score := lit 0 1 in
  cv <- coefficient_of_variation lengths ;;
  let score := add_variation_score cv score in
  medium_ratio <- truediv (count_if is_medium lengths) (length lengths) ;;
  let score := add_medium_score medium_ratio score in
  Some (fmin score (lit 1 1)).

Definition _analyze_structure (t : text) : option float :=
  let sentences := sentences t in
  if (length sentences <? 2)%nat then Some (lit 2 10)
  else structure_of_lengths (map words_in sentences).

(** *** [_analyze_vocabulary] *)

Definition add_buzzword_score (buzzword_ratio : float) (score : float) : float :=
  if flt (lit 3 100) buzzword_ratio then fadd score (lit 5 10)
  else if flt (lit 2 100) buzzword_ratio then fadd score (lit 3 10)
  else if flt (lit 1 100) buzzword_ratio then fadd score (lit 15 100)
  else score.

Definition add_formal_score (formal_ratio : float) (score : float) : float :=
  if flt (lit 4 100) formal_ratio then fadd score (lit 4 10)
  else if flt (lit 2 100) formal_ratio then fadd score (lit 2 10)
  else score.

Definition add_diversity_score (diversity : float) (score : float) : float :=
  if fle (lit 45 100) diversity && fle diversity (lit 65 100)
  then fadd score (lit 3 10)
  else score.

Definition _analyze_vocabulary (t : text) : option float :=
  let words := findall_words (lower t) in
  if (length words <? 10)%nat then Some (lit 2 10)
  else
    let score := lit 0 1 in
    diversity <- truediv (length (distinct words)) (length words) ;;
    buzzword_ratio <- truediv (count_if (fun word => mem word ai_buzzwords) words)
                              (length words) ;;
    let score := add_buzzword_score buzzword_ratio score in
    formal_ratio <- truediv (count_if (fun word => mem word formal_words) words)
                            (length words) ;;
    let score := add_formal_score formal_ratio score in
    let score := add_diversity_score diversity score in
    Some (fmin score (lit 1 1)).

(** *** [_analyze_consistency] *)

(** [text.count(',') + text.count(';') + text.count(':')] *)
Definition punctuation_count (t : text) : nat :=
  (count_char 44 t + count_char 59 t + count_char 58 t)%nat.

(** [punctuation_count / words_count if words_count > 0 else 0] *)
Definition punctuation_ratio (t : text) : option float :=
  let words_count := length (split t) in
  if (0 <? words_count)%nat then truediv (punctuation_count t) words_count
  else Some 0.

(** The block on [punctuation_ratio]. *)
Definition add_punctuation_score (punctuation_ratio : float) (score : float)
  : float :=
  if fle (lit 8 100) punctuation_ratio && fle punctuation_ratio (lit 15 100)
  then fadd score (lit 5 10)
  else if fle (lit 5 100) punctuation_ratio && fle punctuation_ratio (lit 18 100)
  then fadd score (lit 25 100)
  else score.

(** The block [if len(paragraphs) > 1: ...]. *)
Definition add_paragraph_score (paragraphs : list text) (score : float)
  : option float :=
  if (1 <? length paragraphs)%nat then
    para_cv <- coefficient_of_variation (map words_in paragraphs) ;;
    if flt para_cv (lit 25 100) then Some (fadd score (lit 5 10))
    else if flt para_cv (lit 40 100) then Some (fadd score (lit 3 10))
    else Some score
  else Some score.

Definition _analyze_consistency (t : text) : option float :=
  let score := lit 0 1 in
  punctuation_ratio <- punctuation_ratio t ;;
  let score := add_punctuation_score punctuation_ratio score in
  score <- add_paragraph_score (paragraphs t) score ;;
  Some (fmin score (lit 1 1)).

(** *** [_check_repetition] *)

(** [s.split()[0].lower() if s.split() else ''] *)
Definition opener (s : text) : text :=
  match split s with
  | w :: _ => lower w
  | [] => []
  end.

(** [[f"{words[i]} {words[i+1]}" for i in range(len(words)-1)]] *)
Fixpoint adjacent_pairs (words : list text) : list text :=
  match words with
  | w1 :: rest =>
      match rest with
      | w2 :: _ => (w1 ++ str " " ++ w2) :: adjacent_pairs rest
      | [] => []
      end
  | [] => []
  end.

(** The bigrams of all sentences, none across two sentences. *)
Definition bigrams (sentences : list text) : list text :=
  flat_map (fun sentence =>
              let words := split (lower sentence) in
              if (2 <=? length words)%nat then adjacent_pairs words else [])
           sentences.

(** The loop [for count in start_counts.values(): if count > 2: ...; break]. *)
Definition add_opener_score (start_counts : list (text * nat)) (score : float)
  : float :=
  if existsb (fun count => (2 <? count)%nat) (values start_counts)
  then fadd score (lit 3 10)
  else score.

(** The block [if bigrams: ...]. *)
Definition add_bigram_score (bigrams : list text) (score : float) : float :=
  match bigrams with
  | [] => score
  | _ :: _ =>
      let repeated := count_if (fun count => (2 <? count)%nat)
                               (values (Counter bigrams)) in
      if (0 <? repeated)%nat
      then fadd score (fmin (fmul (of_nat repeated) (lit 2 10)) (lit 5 10))
      else score
  end.

Definition _check_repetition (t : text) : float :=
  let sentences := sentences t in
  if (length sentences <? 3)%nat then lit 0 1
  else
    let score := lit 0 1 in
    let score := add_opener_score (Counter (map opener sentences)) score in
    let score := add_bigram_score (bigrams sentences) score in
    fmin score (lit 1 1).

(** *** [_get_indicators] *)

(** An indicator line, kept as the fixed text it stands for and the
    values that the f-string interpolates. *)
Inductive indicator : Type :=
| SelfReference          (* "Contains explicit AI self-reference phrases" *)
| HedgingPhrases         (* "Uses common AI hedging phrases" *)
| MetaphoricalLanguage   (* "Uses AI-typical metaphorical language" *)
| Buzzwords (buzzword_count : nat)
                         (* "High usage of AI buzzwords (... instances)" *)
| TransitionWords (percent : float)
                         (* "Excessive formal transition words (...%)" *)
| ConsistentStructure    (* "Unnaturally consistent sentence structure" *)
| BalancedParagraphs     (* "Uniformly balanced paragraph lengths" *)
| RepetitiveOpenings (most_common_word : text) (max_repeat : nat)
                         (* "Repetitive sentence openings ('...' used ... times)" *)
| NoStrongIndicators.    (* "No strong AI indicators detected" *)

Local Open Scope string_scope.

(** The three patterns of the reporter, searched without [re.IGNORECASE]. *)
Definition self_reference_pattern : regex :=
  bounded (any_of "as an AI" ["I am an AI"; "language model"; "AI assistant"]).

Definition hedging_pattern : regex :=
  bounded (any_of "it's important to note" ["it's worth noting"; "it should be noted"]).

Definition metaphor_pattern : regex :=
  bounded (any_of "delve into" ["dive into"; "embark on"; "journey into"; "landscape of"]).

Local Close Scope string_scope.

Definition when (b : bool) (i : indicator) : list indicator :=
  if b then [i] else [].

(** The block [# Check buzzwords]. *)
Definition buzzword_indicator (words : list text) : option (list indicator) :=
  match words with
  | [] => Some []
  | _ :: _ =>
      let buzzword_count :=
        count_if (fun word => mem (strip_chars is_punctuation word) ai_buzzwords) words in
      buzzword_ratio <- truediv buzzword_count (length words) ;;
      Some (when (flt (lit 2 100) buzzword_ratio) (Buzzwords buzzword_count))
  end.

(** The block [# Check transition words]. *)
Definition transition_indicator (words : list text) : option (list indicator) :=
  match words with
  | [] => Some []
  | _ :: _ =>
      transition_ratio <- transition_ratio words ;;
      Some (when (flt (lit 7 100) transition_ratio)
                 (TransitionWords (round_nd (fmul transition_ratio (of_nat 100)) 1)))
  end.

(** The block [# Check structure consistency]. *)
Definition structure_indicator (sentences : list text) : option (list indicator) :=
  if (2 <? length sentences)%nat then
    cv <- coefficient_of_variation (map words_in sentences) ;;
    Some (when (flt cv (lit 30 100)) ConsistentStructure)
  else Some [].

(** The block [# Check for balanced paragraphs]. *)
Definition paragraph_indicator (paragraphs : list text) : option (list indicator) :=
  if (2 <? length paragraphs)%nat then
    let para_lengths := map words_in paragraphs in
    longest <- list_max para_lengths ;;
    shortest <- list_min para_lengths ;;
    Some (when (longest - shortest <? 30)%nat BalancedParagraphs)
  else Some [].

(** The block [# Check repetitive starts]. *)
Definition opening_indicator (sentences : list text) : option (list indicator) :=
  if (3 <? length sentences)%nat then
    let start_counts := Counter (map opener sentences) in
    max_repeat <- list_max (values start_counts) ;;
    if (2 <? max_repeat)%nat then
      most_common_word <- argmax start_counts ;;
      Some [RepetitiveOpenings most_common_word max_repeat]
    else Some []
  else Some [].

Definition _get_indicators (t : text) : option (list indicator) :=
  let text_lower := lower t in
  let words := split text_lower in
  let indicators := when (search false self_reference_pattern text_lower) SelfReference in
  let indicators := indicators ++ when (search false hedging_pattern text_lower) HedgingPhrases in
  let indicators := indicators ++ when (search false metaphor_pattern text_lower) MetaphoricalLanguage in
  found <- buzzword_indicator words ;;
  let indicators := indicators ++ found in
  found <- transition_indicator words ;;
  let indicators := indicators ++ found in
  let sentences := sentences t in
  found <- structure_indicator sentences ;;
  let indicators := indicators ++ found in
  found <- paragraph_indicator (paragraphs t) ;;
  let indicators := indicators ++ found in
  found <- opening_indicator sentences ;;
  let indicators := indicators ++ found in
  match indicators with
  | [] => Some [NoStrongIndicators]
  | _ :: _ => Some indicators
  end.

(** *** Statistics *)

Definition _avg_sentence_length (t : text) : option float :=
  let sentences := sentences t in
  match sentences with
  | [] => Some 0
  | _ :: _ =>
      let total_words := sum_nat (map words_in sentences) in
      mean <- truediv total_words (length sentences) ;;
      Some (round_nd mean 2)
  end.

Definition _unique_word_ratio (t : text) : option float :=
  let words := findall_words (lower t) in
  match words with
  | [] => Some 0
  | _ :: _ =>
      ratio <- truediv (length (distinct words)) (length words) ;;
      Some (round_nd ratio 2)
  end.

(** *** [analyze_text] *)

Inductive Likelihood : Type := High | Medium | Low | VeryLow.

Record Metrics : Type := {
  pattern_score : float;
  vocabulary_score : float;
  structure_score : float;
  consistency_score : float;
  repetition_score : float
}.

Record Statistics : Type := {
  word_count : nat;
  sentence_count : nat;
  avg_sentence_length : float;
  unique_word_ratio : float
}.

(** The dictionary returned with ["success": True]. *)
Record Analysis : Type := {
  ai_probability : float;
  likelihood : Likelihood;
  message : string;
  metrics : Metrics;
  indicators : list indicator;
  statistics : Statistics
}.

(** The two dictionaries that [analyze_text] returns. *)
Inductive Result : Type :=
| Failure (error : string)     (* ["success": False] *)
| Success (analysis : Analysis).

Local Open Scope string_scope.

Definition too_short_error : string :=
  "Text too short for analysis (minimum 50 characters)".

(** [not text or len(text.strip()) < 50] *)
Definition too_short (t : text) : bool :=
  negb (nonempty t) || (length (strip t) <? 50)%nat.

(** The weights of the five scores, as the decimals of the source. *)
Definition pattern_weight : Q := 35 # 100.
Definition vocabulary_weight : Q := 25 # 100.
Definition structure_weight : Q := 20 # 100.
Definition consistency_weight : Q := 15 # 100.
Definition repetition_weight : Q := 5 # 100.

(** The weighted average of the five scores; each weight enters as the
    float that its decimal denotes. *)
Definition overall (pattern vocabulary structure consistency repetition : float)
  : float :=
  fadd (fadd (fadd (fadd (fmul pattern (rnd pattern_weight))
                         (fmul vocabulary (rnd vocabulary_weight)))
                   (fmul structure (rnd structure_weight)))
             (fmul consistency (rnd consistency_weight)))
       (fmul repetition (rnd repetition_weight)).

(** The chain [if overall_score >= 0.55: ... elif ... else ...]. *)
Definition confidence (overall_score : float) : Likelihood * string :=
  if fle (lit 55 100) overall_score
  then (High, "This text shows strong indicators of being AI-generated")
  else if fle (lit 35 100) overall_score
  then (Medium, "This text shows moderate indicators of being AI-generated")
  else if fle (lit 20 100) overall_score
  then (Low, "This text shows some indicators of being AI-generated")
  else (VeryLow, "This text appears to be human-written").

Local Close Scope string_scope.

(** [round(score * 100, 2)] *)
Definition percent (score : float) : float :=
  round_nd (fmul score (of_nat 100)) 2.

Definition analyze_text (t : text) : option Result :=
  if too_short t then Some (Failure too_short_error)
  else
    pattern <- _check_ai_patterns t ;;
    structure <- _analyze_structure t ;;
    vocabulary <- _analyze_vocabulary t ;;
    consistency <- _analyze_consistency t ;;
    let repetition := _check_repetition t in
    let overall_score := overall pattern vocabulary structure consistency repetition in
    let (likelihood, message) := confidence overall_score in
    found <- _get_indicators t ;;
    avg <- _avg_sentence_length t ;;
    unique <- _unique_word_ratio t ;;
    Some (Success
      {| ai_probability := percent overall_score;
         likelihood := likelihood;
         message := message;
         metrics :=
           {| pattern_score := percent pattern;
              vocabulary_score := percent vocabulary;
              structure_score := percent structure;
              consistency_score := percent consistency;
              repetition_score := percent repetition |};
         indicators := found;
         statistics :=
           {| word_count := length (split t);
              sentence_count := length (re_split t);
              avg_sentence_length := avg;
              unique_word_ratio := unique |} |}).

End AIDetectionService.

(** ** Notions used in the statements *)

Module Notions.
Import Float Str Re AIDetectionService.

(** The local variable [overall_score] of [analyze_text]. *)
Definition overall_score (t : text) : option float :=
  pattern <- _check_ai_patterns t ;;
  structure <- _analyze_structure t ;;
  vocabulary <- _analyze_vocabulary t ;;
  consistency <- _analyze_consistency t ;;
  Some (overall pattern vocabulary structure consistency (_check_repetition t)).

(** The bands in increasing order. *)
Definition rank (l : Likelihood) : nat :=
  match l with
  | VeryLow => 0
  | Low => 1
  | Medium => 2
  | High => 3
  end.

Local Open Scope string_scope.

(** The message that goes with each band. *)
Definition band_message (l : Likelihood) : string :=
  match l with
  | High => "This text shows strong indicators of being AI-generated"
  | Medium => "This text shows moderate indicators of being AI-generated"
  | Low => "This text shows some indicators of being AI-generated"
  | VeryLow => "This text appears to be human-written"
  end.

Local Close Scope string_scope.

(** Number of characters that are not whitespace. *)
Definition solid (s : text) : nat := count_if (fun c => negb (isspace c)) s.

(** Number of occurrences of a string in a list. *)
Definition occurrences (w : text) (l : list text) : nat :=
  count_if (text_eqb w) l.

(** An indicator line about sentence openings. *)
Definition is_opening_entry (i : indicator) : bool :=
  match i with
  | RepetitiveOpenings _ _ => true
  | _ => false
  end.

(** The indicator line about self-reference. *)
Definition is_self_reference_entry (i : indicator) : bool :=
  match i with
  | SelfReference => true
  | _ => false
  end.

(** The score of the pattern matcher as the specification words it:
    [min(m * 0.25, 0.8)] plus the transition contribution, clamped to 1. *)
Definition pattern_contribution (m : nat) : float :=
  fmin (fmul (of_nat m) (lit 25 100)) (lit 8 10).

Definition transition_contribution (words : list text) : float :=
  match words with
  | [] => 0
  | _ :: _ =>
      match transition_ratio words with
      | Some density =>
          if fle (lit 8 100) density then fmin (fmul density (of_nat 3)) (lit 5 10)
          else if fle (lit 5 100) density then lit 2 10
          else 0
      | None => 0
      end
  end.

Definition pattern_score_formula (m : nat) (words : list text) : float :=
  fmin (fadd (pattern_contribution m) (transition_contribution words)) (lit 1 1).

(** The five pattern categories of the specification, each with the
    entries of [ai_patterns] that hold the phrases it quotes:
    (a) explicit self-reference, (b) hedging, (c) formulaic connectors,
    (d) metaphor clusters, (e) listicle and marketing boilerplate. *)
Definition pattern_categories : list (list regex) :=
  [ [pattern_self_reference];
    [pattern_hedging];
    [pattern_conclusion];
    [pattern_delve; pattern_embark];
    [pattern_pros_cons; pattern_cutting_edge] ].

(** Number of categories with at least one match. *)
Definition category_matches (text_lower : text) : nat :=
  count_if (existsb (fun pattern => search true pattern text_lower))
           pattern_categories.

(** The count that a counter holds for a key, 0 when the key is absent. *)
Definition lookup (k : text) (c : list (text * nat)) : nat :=
  match find (fun e => text_eqb k (fst e)) c with
  | Some e => snd e
  | None => 0
  end.

End Notions.


(** ** Texts used as instances *)

Module Examples.
Import Str.
Local Open Scope string_scope.
Definition two_metaphors : text :=
  str "We delve into the data and embark on a long trip through the hills.".
Definition self_introduction : text :=
  str "I'm an AI and I wrote this short note for you to read today.".
Definition one_sentence : text :=
  str "The quick brown fox jumps over the lazy dog near the river bank.".
Definition three_openings : text :=
  str "The cat sat on the mat today. The cat sat on the rug today. The cat sat on the bed today.".
Definition four_openings : text :=
  str "The cat sat on the mat. The cat sat on the rug. The cat sat on the bed. The dog ran off to the far away hills.".
Definition fifteen_words : text :=
  str "a a a a a a a a a a a a a a a. a a a a a a a a a a a a a a a. a a a a a a a a a a a a a a a. a a a a a a a a a a a a a a a. a a a a a a a a a a a a a a a.".
End Examples.

(** ** The order of the lines of the reporter *)

Module Lines.
Import AIDetectionService.

(** The place of each kind of line in the order of the checks of
    [_get_indicators]; the fallback line comes last. *)
Definition line_rank (i : indicator) : nat :=
  match i with
  | SelfReference => 1
  | HedgingPhrases => 2
  | MetaphoricalLanguage => 3
  | Buzzwords _ => 4
  | TransitionWords _ => 5
  | ConsistentStructure => 6
  | BalancedParagraphs => 7
  | RepetitiveOpenings _ _ => 8
  | NoStrongIndicators => 9
  end.

End Lines.

(** ** Further texts used as instances *)

Module Texts.
Import Str.
Local Open Scope string_scope.
Definition many_transitions : text :=
  str "However, the plan failed. Therefore, we stopped. Moreover, nobody cared about it at all.".
Definition many_buzzwords : text :=
  str "We leverage robust and seamless tools to optimize and streamline the essential work.".
(** Two newlines, the separator of paragraphs. *)
Definition blank_line : text := [ascii_of_nat 10; ascii_of_nat 10].
Definition three_paragraphs : text :=
  (str "The first part is short." ++ blank_line ++ str "The second part is short."
   ++ blank_line ++ str "The third part is short.")%list.
End Texts.

(** ** Facts on rounding *)

Module FloatFacts.
Import Float.

Lemma two_neq_0 : ~ 2 == 0.
Proof. intro H; discriminate H. Qed.

Lemma pow2_pos (k : Z) : 0 < pow2 k.
Proof. apply Qpower_0_lt; reflexivity. Qed.

Lemma pow2_add (a b : Z) : pow2 (a + b) == pow2 a * pow2 b.
Proof. apply Qpower_plus, two_neq_0. Qed.

Lemma pow2_succ (a : Z) : pow2 (a + 1) == 2 * pow2 a.
Proof. rewrite pow2_add. unfold pow2 at 2. simpl. ring. Qed.

Lemma pow2_le (a b : Z) : (a <= b)%Z -> pow2 a <= pow2 b.
Proof. intro H. apply Qpower_le_compat_l; [exact H | discriminate]. Qed.

Lemma pow2_lt (a b : Z) : (a < b)%Z -> pow2 a < pow2 b.
Proof.
  intro H. apply Qlt_le_trans with (pow2 (a + 1)).
  - rewrite pow2_succ. pose proof (pow2_pos a). generalize dependent (pow2 a). intros; lra.
  - apply pow2_le. lia.
Qed.

Lemma pow2_Z (k : Z) : (0 <= k)%Z -> pow2 k == inject_Z (2 ^ k).
Proof. intro H. unfold pow2. rewrite Zpower_Qpower by exact H. reflexivity. Qed.

Lemma pow2_sub (a b : Z) : pow2 (a - b) == pow2 a / pow2 b.
Proof.
  assert (H : pow2 a == pow2 (a - b) * pow2 b).
  { rewrite <- pow2_add. replace (a - b + b)%Z with a by lia. reflexivity. }
  rewrite H. pose proof (pow2_pos b). generalize dependent (pow2 b). generalize (pow2 (a - b)). intros q p _ Hp. field. lra.
Qed.

Lemma Qnum_pos (x : Q) : 0 < x -> (0 < Qnum x)%Z.
Proof. unfold Qlt. simpl. lia. Qed.

Lemma log2_bounds (n : Z) :
  (0 < n)%Z ->
  pow2 (Z.log2 n) <= inject_Z n /\ inject_Z n < 2 * pow2 (Z.log2 n).
Proof.
  intro H. destruct (Z.log2_spec n H) as [H1 H2].
  pose proof (Z.log2_nonneg n) as H0.
  rewrite <- pow2_succ. rewrite !pow2_Z by lia.
  split; [rewrite <- Zle_Qle | rewrite <- Zlt_Qlt]; lia.
Qed.

Lemma Qdiv_lt_cross (a b c d : Q) :
  0 < b -> 0 < d -> a * d < c * b -> a / b < c / d.
Proof.
  intros Hb Hd H. apply Qlt_shift_div_r; [exact Hb|].
  setoid_replace (c / d * b) with (c * b / d) by (field; lra).
  apply Qlt_shift_div_l; assumption.
Qed.

Lemma Qdiv_le_cross (a b c d : Q) :
  0 < b -> 0 < d -> a * d <= c * b -> a / b <= c / d.
Proof.
  intros Hb Hd H. apply Qle_shift_div_r; [exact Hb|].
  setoid_replace (c / d * b) with (c * b / d) by (field; lra).
  apply Qle_shift_div_l; assumption.
Qed.

Lemma ilog2_spec (x : Q) :
  0 < x -> pow2 (ilog2 x) <= x /\ x < pow2 (ilog2 x + 1).
Proof.
  intro Hx. unfold ilog2.
  assert (Ex : x == inject_Z (Qnum x) / inject_Z (Zpos (Qden x))).
  { destruct x as [n d]. simpl. apply Qmake_Qdiv. }
  set (a := Z.log2 (Qnum x)). set (b := Z.log2 (Zpos (Qden x))).
  destruct (log2_bounds (Qnum_pos Hx)) as [Ha1 Ha2]. fold a in Ha1, Ha2.
  destruct (@log2_bounds (Zpos (Qden x)) eq_refl) as [Hb1 Hb2]. fold b in Hb1, Hb2.
  pose proof (pow2_pos a) as Pa. pose proof (pow2_pos b) as Pb.
  assert (Eg : pow2 (a - b) == pow2 a / pow2 b) by apply pow2_sub.
  destruct (Qle_bool (pow2 (a - b)) x) eqn:E.
  - split; [apply Qle_bool_iff; exact E|].
    rewrite pow2_succ, Eg, Ex.
    setoid_replace (2 * (pow2 a / pow2 b)) with (2 * pow2 a / pow2 b) by (field; lra).
    apply Qdiv_lt_cross; try lra.
    generalize dependent (pow2 a). generalize dependent (pow2 b).
    generalize (inject_Z (Qnum x)) (inject_Z (Zpos (Qden x))). intros; nra.
  - assert (Hlt : x < pow2 (a - b)).
    { apply Qnot_le_lt. intro H. apply Qle_bool_iff in H. congruence. }
    replace (a - b - 1 + 1)%Z with (a - b)%Z by lia. split; [|exact Hlt].
    assert (E1 : pow2 (a - b - 1) == pow2 a / (2 * pow2 b)).
    { replace (a - b - 1)%Z with (a - (b + 1))%Z by lia.
      rewrite pow2_sub, pow2_succ. reflexivity. }
    rewrite E1, Ex.
    apply Qdiv_le_cross; try lra.
    clear Ex Eg E Hlt E1.
    generalize dependent (pow2 a). generalize dependent (pow2 b).
    generalize (inject_Z (Qnum x)) (inject_Z (Zpos (Qden x))). intros; nra.
Qed.

Lemma ilog2_unique (x : Q) (e : Z) :
  pow2 e <= x -> x < pow2 (e + 1) -> ilog2 x = e.
Proof.
  intros H1 H2.
  assert (Hx : 0 < x) by (pose proof (pow2_pos e); lra).
  destruct (ilog2_spec Hx) as [H3 H4].
  destruct (Z.lt_trichotomy (ilog2 x) e) as [H | [H | H]]; [|exact H|].
  - assert (pow2 (ilog2 x + 1) <= pow2 e) by (apply pow2_le; lia). lra.
  - assert (pow2 (e + 1) <= pow2 (ilog2 x)) by (apply pow2_le; lia). lra.
Qed.

Lemma ilog2_comp (x y : Q) : 0 < x -> x == y -> ilog2 x = ilog2 y.
Proof.
  intros Hx E. symmetry. destruct (ilog2_spec Hx) as [H1 H2].
  apply ilog2_unique; rewrite <- E; assumption.
Qed.

Lemma ilog2_le (x y : Q) : 0 < x -> x <= y -> (ilog2 x <= ilog2 y)%Z.
Proof.
  intros Hx Hxy.
  assert (Hy : 0 < y) by lra.
  destruct (ilog2_spec Hx) as [H1 H2]. destruct (ilog2_spec Hy) as [H3 H4].
  destruct (Z_le_gt_dec (ilog2 x) (ilog2 y)) as [H | H]; [exact H|].
  assert (pow2 (ilog2 y + 1) <= pow2 (ilog2 x)) by (apply pow2_le; lia). lra.
Qed.

Lemma rne_comp (x y : Q) : x == y -> rne x = rne y.
Proof.
  intro E. unfold rne. rewrite (Qfloor_comp _ _ E).
  assert (E' : x - inject_Z (Qfloor y) == y - inject_Z (Qfloor y)) by (rewrite E; reflexivity).
  rewrite (Qcompare_comp _ _ E' _ _ (Qeq_refl (1 # 2))). reflexivity.
Qed.

Lemma rne_Z (z : Z) : rne (inject_Z z) = z.
Proof.
  unfold rne. rewrite Qfloor_Z.
  destruct (Qcompare_spec (inject_Z z - inject_Z z) (1 # 2)) as [H | H | H];
    [lra | reflexivity | lra].
Qed.

Lemma rne_floor (x : Q) : (Qfloor x <= rne x <= Qfloor x + 1)%Z.
Proof.
  unfold rne. destruct (Qcompare _ _); [destruct (Z.even _)| |]; lia.
Qed.

Lemma rne_le (x y : Q) : x <= y -> (rne x <= rne y)%Z.
Proof.
  intro H. pose proof (Qfloor_resp_le _ _ H) as Hf.
  pose proof (rne_floor x) as Bx. pose proof (rne_floor y) as By.
  destruct (Z.eq_dec (Qfloor x) (Qfloor y)) as [E | N]; [|lia].
  unfold rne in *. rewrite <- E in *.
  destruct (Qcompare_spec (x - inject_Z (Qfloor x)) (1 # 2)) as [X | X | X];
  destruct (Qcompare_spec (y - inject_Z (Qfloor x)) (1 # 2)) as [Y | Y | Y];
  try lia; try lra; destruct (Z.even (Qfloor x)); lia.
Qed.

Lemma rne_nonneg (x : Q) : 0 <= x -> (0 <= rne x)%Z.
Proof. intro H. rewrite <- (rne_Z 0). apply rne_le. exact H. Qed.

(** Scaling by the unit in the last place. *)
Lemma scaled_bounds (x : Q) :
  0 < x ->
  let k := (ilog2 x - (prec - 1))%Z in
  inject_Z (2 ^ 52) <= x / pow2 k /\ x / pow2 k < inject_Z (2 ^ 53).
Proof.
  intros Hx k. destruct (ilog2_spec Hx) as [H1 H2].
  pose proof (pow2_pos k) as Pk.
  assert (E1 : pow2 (ilog2 x) == inject_Z (2 ^ 52) * pow2 k).
  { rewrite <- pow2_Z by lia. rewrite <- pow2_add. unfold k, prec.
    replace (52 + (ilog2 x - (53 - 1)))%Z with (ilog2 x) by lia. reflexivity. }
  assert (E2 : pow2 (ilog2 x + 1) == inject_Z (2 ^ 53) * pow2 k).
  { rewrite <- pow2_Z by lia. rewrite <- pow2_add. unfold k, prec.
    replace (53 + (ilog2 x - (53 - 1)))%Z with (ilog2 x + 1)%Z by lia. reflexivity. }
  rewrite E1 in H1. rewrite E2 in H2. split.
  - apply Qle_shift_div_l; assumption.
  - apply Qlt_shift_div_r; assumption.
Qed.

Lemma rnd_pos_bounds (x : Q) :
  0 < x -> pow2 (ilog2 x) <= rnd_pos x /\ rnd_pos x <= pow2 (ilog2 x + 1).
Proof.
  intro Hx. destruct (scaled_bounds Hx) as [H1 H2]. unfold rnd_pos.
  set (k := (ilog2 x - (prec - 1))%Z) in *.
  pose proof (pow2_pos k) as Pk.
  assert (E1 : pow2 (ilog2 x) == inject_Z (2 ^ 52) * pow2 k).
  { rewrite <- pow2_Z by lia. rewrite <- pow2_add. unfold k, prec.
    replace (52 + (ilog2 x - (53 - 1)))%Z with (ilog2 x) by lia. reflexivity. }
  assert (E2 : pow2 (ilog2 x + 1) == inject_Z (2 ^ 53) * pow2 k).
  { rewrite <- pow2_Z by lia. rewrite <- pow2_add. unfold k, prec.
    replace (53 + (ilog2 x - (53 - 1)))%Z with (ilog2 x + 1)%Z by lia. reflexivity. }
  rewrite E1, E2.
  assert (B1 : (2 ^ 52 <= rne (x / pow2 k))%Z).
  { rewrite <- (rne_Z (2 ^ 52)). apply rne_le. exact H1. }
  assert (B2 : (rne (x / pow2 k) <= 2 ^ 53)%Z).
  { rewrite <- (rne_Z (2 ^ 53)). apply rne_le. lra. }
  rewrite Zle_Qle in B1, B2.
  split; apply Qmult_le_compat_r; lra.
Qed.

Lemma rnd_pos_pos (x : Q) : 0 < x -> 0 < rnd_pos x.
Proof.
  intro Hx. destruct (rnd_pos_bounds Hx) as [H _].
  pose proof (pow2_pos (ilog2 x)). lra.
Qed.

Lemma rnd_pos_comp (x y : Q) : 0 < x -> x == y -> rnd_pos x == rnd_pos y.
Proof.
  intros Hx E. unfold rnd_pos. rewrite <- (ilog2_comp Hx E).
  assert (E' : x / pow2 (ilog2 x - (prec - 1)) == y / pow2 (ilog2 x - (prec - 1)))
    by (apply Qdiv_comp; [exact E | reflexivity]).
  rewrite (rne_comp E'). reflexivity.
Qed.

Lemma rnd_pos_le (x y : Q) : 0 < x -> x <= y -> rnd_pos x <= rnd_pos y.
Proof.
  intros Hx Hxy. assert (Hy : 0 < y) by lra.
  pose proof (ilog2_le Hx Hxy) as He.
  destruct (Z.eq_dec (ilog2 x) (ilog2 y)) as [E | N].
  - unfold rnd_pos. rewrite <- E.
    set (k := (ilog2 x - (prec - 1))%Z). pose proof (pow2_pos k) as Pk.
    apply Qmult_le_compat_r; [|lra].
    rewrite <- Zle_Qle. apply rne_le.
    apply Qmult_le_compat_r; [exact Hxy|].
    apply Qlt_le_weak, Qinv_lt_0_compat, Pk.
  - destruct (rnd_pos_bounds Hx) as [_ H1]. destruct (rnd_pos_bounds Hy) as [H2 _].
    assert (pow2 (ilog2 x + 1) <= pow2 (ilog2 y)) by (apply pow2_le; lia). lra.
Qed.

Lemma rnd_pos_exact (z k : Z) :
  (2 ^ 52 <= z < 2 ^ 53)%Z ->
  rnd_pos (inject_Z z * pow2 k) == inject_Z z * pow2 k.
Proof.
  intros [H1 H2]. pose proof (pow2_pos k) as Pk.
  rewrite Zle_Qle in H1. rewrite Zlt_Qlt in H2.
  assert (E : ilog2 (inject_Z z * pow2 k) = (52 + k)%Z).
  { apply ilog2_unique.
    - rewrite pow2_add, (@pow2_Z 52) by lia. apply Qmult_le_compat_r; lra.
    - replace (52 + k + 1)%Z with (53 + k)%Z by lia.
      rewrite pow2_add, (@pow2_Z 53) by lia. apply Qmult_lt_compat_r; lra. }
  unfold rnd_pos. rewrite E. unfold prec.
  replace (52 + k - (53 - 1))%Z with k by lia.
  assert (E' : inject_Z z * pow2 k / pow2 k == inject_Z z) by (field; lra).
  rewrite (rne_comp E'), rne_Z. reflexivity.
Qed.

Lemma rnd_pos_idem (x : Q) : 0 < x -> rnd_pos (rnd_pos x) == rnd_pos x.
Proof.
  intro Hx. destruct (scaled_bounds Hx) as [H1 H2].
  pose proof (rnd_pos_pos Hx) as Hy.
  set (k := (ilog2 x - (prec - 1))%Z) in *.
  set (z := rne (x / pow2 k)).
  assert (Ey : rnd_pos x == inject_Z z * pow2 k) by reflexivity.
  rewrite (rnd_pos_comp Hy Ey), Ey. rewrite Ey in Hy.
  pose proof (pow2_pos k) as Pk.
  assert (B1 : (2 ^ 52 <= z)%Z).
  { rewrite <- (rne_Z (2 ^ 52)). apply rne_le. exact H1. }
  assert (B2 : (z <= 2 ^ 53)%Z).
  { rewrite <- (rne_Z (2 ^ 53)). apply rne_le. lra. }
  destruct (Z.eq_dec z (2 ^ 53)) as [E | N].
  - rewrite E in *.
    assert (E2 : inject_Z (2 ^ 53) * pow2 k == inject_Z (2 ^ 52) * pow2 (k + 1)).
    { rewrite pow2_succ. change (inject_Z (2 ^ 53)) with (2 * inject_Z (2 ^ 52)). ring. }
    rewrite (rnd_pos_comp Hy E2), E2. apply rnd_pos_exact. lia.
  - apply rnd_pos_exact. lia.
Qed.

Lemma rnd_comp (x y : Q) : x == y -> rnd x = rnd y.
Proof.
  intro E. unfold rnd.
  rewrite <- (Qcompare_comp _ _ E _ _ (Qeq_refl 0)).
  destruct (Qcompare_spec x 0) as [H | H | H]; [reflexivity | |].
  - apply Qred_complete, Qopp_comp, rnd_pos_comp; [lra | rewrite E; reflexivity].
  - apply Qred_complete, rnd_pos_comp; assumption.
Qed.

Lemma rnd_0 : rnd 0 = 0.
Proof. reflexivity. Qed.

Lemma rnd_of_pos (x : Q) : 0 < x -> rnd x == rnd_pos x.
Proof.
  intro H. unfold rnd. destruct (Qcompare_spec x 0); [lra | lra | apply Qred_correct].
Qed.

Lemma rnd_of_neg (x : Q) : x < 0 -> rnd x == - rnd_pos (- x).
Proof.
  intro H. unfold rnd. destruct (Qcompare_spec x 0); [lra | apply Qred_correct | lra].
Qed.

Lemma rnd_pos_sign (x : Q) : 0 < x -> 0 < rnd x.
Proof. intro H. rewrite (rnd_of_pos H). apply rnd_pos_pos, H. Qed.

Lemma rnd_neg_sign (x : Q) : x < 0 -> rnd x < 0.
Proof.
  intro H. rewrite (rnd_of_neg H).
  assert (0 < rnd_pos (- x)) by (apply rnd_pos_pos; lra). lra.
Qed.

Lemma rnd_nonneg (x : Q) : 0 <= x -> 0 <= rnd x.
Proof.
  intro H. destruct (Qcompare_spec x 0) as [E | L | G].
  - rewrite (rnd_comp E). apply Qle_refl.
  - lra.
  - apply Qlt_le_weak, rnd_pos_sign, G.
Qed.

Lemma rnd_zero_inv (x : Q) : rnd x == 0 -> x == 0.
Proof.
  intro H. destruct (Qcompare_spec x 0) as [E | L | G]; [exact E | |].
  - pose proof (rnd_neg_sign L). lra.
  - pose proof (rnd_pos_sign G). lra.
Qed.

Theorem rnd_le (x y : Q) : x <= y -> rnd x <= rnd y.
Proof.
  intro H.
  destruct (Qcompare_spec x 0) as [Ex | Lx | Gx].
  - rewrite (rnd_comp Ex). apply rnd_nonneg. lra.
  - destruct (Qcompare_spec y 0) as [Ey | Ly | Gy].
    + rewrite (rnd_comp Ey). apply Qlt_le_weak, rnd_neg_sign, Lx.
    + rewrite (rnd_of_neg Lx), (rnd_of_neg Ly).
      assert (rnd_pos (- y) <= rnd_pos (- x)) by (apply rnd_pos_le; lra). lra.
    + pose proof (rnd_neg_sign Lx). pose proof (rnd_pos_sign Gy). lra.
  - assert (Gy : 0 < y) by lra.
    rewrite (rnd_of_pos Gx), (rnd_of_pos Gy). apply rnd_pos_le; assumption.
Qed.

Theorem rnd_idem (x : Q) : rnd (rnd x) = rnd x.
Proof.
  destruct (Qcompare_spec x 0) as [E | L | G].
  - rewrite (rnd_comp E). reflexivity.
  - pose proof (rnd_neg_sign L) as Hy. pose proof (rnd_of_neg L) as Ey.
    assert (Hx : 0 < - x) by lra.
    unfold rnd at 1. destruct (Qcompare_spec (rnd x) 0) as [E' | L' | G']; [lra | | lra].
    unfold rnd. destruct (Qcompare_spec x 0) as [E'' | L'' | G'']; [lra | | lra].
    apply Qred_complete, Qopp_comp.
    apply Qeq_trans with (rnd_pos (rnd_pos (- x))); [|apply rnd_pos_idem, Hx].
    pose proof (Qred_correct (- rnd_pos (- x))) as Er.
    apply rnd_pos_comp; [|rewrite Er; ring].
    pose proof (rnd_pos_pos Hx). lra.
  - pose proof (rnd_pos_sign G) as Hy. pose proof (rnd_of_pos G) as Ey.
    unfold rnd at 1. destruct (Qcompare_spec (rnd x) 0) as [E' | L' | G']; [lra | lra |].
    unfold rnd. destruct (Qcompare_spec x 0) as [E'' | L'' | G'']; [lra | lra |].
    apply Qred_complete.
    apply Qeq_trans with (rnd_pos (rnd_pos x)); [|apply rnd_pos_idem, G].
    pose proof (Qred_correct (rnd_pos x)) as Er.
    apply rnd_pos_comp; [|exact Er].
    pose proof (rnd_pos_pos G). lra.
Qed.

Lemma is_float_rnd (x : Q) : is_float (rnd x).
Proof. apply rnd_idem. Qed.

Lemma is_float_lit (n : Z) (d : positive) : is_float (lit n d).
Proof. apply rnd_idem. Qed.

Lemma is_float_0 : is_float 0.
Proof. reflexivity. Qed.

Lemma is_float_fmin (a b : Q) : is_float a -> is_float b -> is_float (fmin a b).
Proof. intros Ha Hb. unfold fmin. destruct (flt b a); assumption. Qed.

Lemma fle_spec (x y : Q) : fle x y = true <-> x <= y.
Proof. apply Qle_bool_iff. Qed.

Lemma flt_spec (x y : Q) : flt x y = true <-> x < y.
Proof.
  unfold flt. rewrite negb_true_iff. split; intro H.
  - apply Qnot_le_lt. intro L. apply Qle_bool_iff in L. congruence.
  - destruct (Qle_bool y x) eqn:E; [|reflexivity].
    apply Qle_bool_iff in E. lra.
Qed.

Lemma flt_false (x y : Q) : flt x y = false <-> y <= x.
Proof.
  unfold flt. rewrite negb_false_iff. apply Qle_bool_iff.
Qed.

Lemma fle_false (x y : Q) : fle x y = false <-> y < x.
Proof.
  split; intro H.
  - apply Qnot_le_lt. intro L. apply fle_spec in L. congruence.
  - destruct (fle x y) eqn:E; [|reflexivity]. apply fle_spec in E. lra.
Qed.

Lemma fmin_le_l (a b : Q) : fmin a b <= a.
Proof.
  unfold fmin. destruct (flt b a) eqn:E; [|apply Qle_refl].
  apply flt_spec in E. lra.
Qed.

Lemma fmin_le_r (a b : Q) : fmin a b <= b.
Proof.
  unfold fmin. destruct (flt b a) eqn:E; [apply Qle_refl|].
  apply flt_false in E. exact E.
Qed.

Lemma fmin_glb (a b c : Q) : c <= a -> c <= b -> c <= fmin a b.
Proof. intros Ha Hb. unfold fmin. destruct (flt b a); assumption. Qed.

Lemma fadd_0_l (x : Q) : is_float x -> fadd 0 x = x.
Proof.
  intro H. unfold fadd. transitivity (rnd x); [apply rnd_comp; ring | exact H].
Qed.

Lemma fadd_0_r (x : Q) : is_float x -> fadd x 0 = x.
Proof.
  intro H. unfold fadd. transitivity (rnd x); [apply rnd_comp; ring | exact H].
Qed.

Lemma fadd_le (a b c d : Q) : a <= b -> c <= d -> fadd a c <= fadd b d.
Proof. intros H1 H2. apply rnd_le. lra. Qed.

Lemma fmul_le_r (a b w : Q) : 0 <= w -> a <= b -> fmul a w <= fmul b w.
Proof. intros Hw H. apply rnd_le. apply Qmult_le_compat_r; assumption. Qed.

Lemma fmul_le_l (w a b : Q) : 0 <= w -> a <= b -> fmul w a <= fmul w b.
Proof.
  intros Hw H. apply rnd_le. rewrite (Qmult_comm w a), (Qmult_comm w b).
  apply Qmult_le_compat_r; assumption.
Qed.

Lemma fadd_nonneg (a b : Q) : 0 <= a -> 0 <= b -> 0 <= fadd a b.
Proof. intros Ha Hb. apply rnd_nonneg. lra. Qed.

Lemma fmul_nonneg (a b : Q) : 0 <= a -> 0 <= b -> 0 <= fmul a b.
Proof. intros Ha Hb. apply rnd_nonneg, Qmult_le_0_compat; assumption. Qed.

Lemma fsquare_nonneg (x : Q) : 0 <= fsquare x.
Proof.
  apply rnd_nonneg. destruct (Qlt_le_dec x 0) as [H | H].
  - setoid_replace (x * x) with ((- x) * (- x)) by ring.
    apply Qmult_le_0_compat; lra.
  - apply Qmult_le_0_compat; assumption.
Qed.

Lemma of_nat_nonneg (n : nat) : 0 <= of_nat n.
Proof.
  apply rnd_nonneg. change 0 with (inject_Z 0). rewrite <- Zle_Qle. lia.
Qed.

Lemma of_nat_pos (n : nat) : (0 < n)%nat -> 0 < of_nat n.
Proof.
  intro H. apply rnd_pos_sign. change 0 with (inject_Z 0). rewrite <- Zlt_Qlt. lia.
Qed.

Lemma of_nat_le (n m : nat) : (n <= m)%nat -> of_nat n <= of_nat m.
Proof. intro H. apply rnd_le. rewrite <- Zle_Qle. lia. Qed.

Lemma rne_scale_le (x y : Q) (p : positive) :
  x <= y -> rne (x * inject_Z (Zpos p)) # p <= rne (y * inject_Z (Zpos p)) # p.
Proof.
  intro H. unfold Qle. simpl. apply Z.mul_le_mono_nonneg_r; [lia|].
  apply rne_le. apply Qmult_le_compat_r; [exact H|].
  change 0 with (inject_Z 0). rewrite <- Zle_Qle. lia.
Qed.

Lemma round_nd_le (x y : Q) (nd : nat) : x <= y -> round_nd x nd <= round_nd y nd.
Proof. intro H. apply rnd_le, rne_scale_le, H. Qed.

Lemma percent_le (x y : Q) :
  x <= y -> AIDetectionService.percent x <= AIDetectionService.percent y.
Proof.
  intro H. apply round_nd_le, fmul_le_r; [apply of_nat_nonneg | exact H].
Qed.

(** On the samples the operations of the model are those of binary64. *)
Lemma binary64_agreement :
  Binary64.agree_lit = true
  /\ Binary64.agree fadd PrimFloat.add = true
  /\ Binary64.agree fsub PrimFloat.sub = true
  /\ Binary64.agree fmul PrimFloat.mul = true
  /\ Binary64.agree
       (fun x y => match fdiv x y with Some q => q | None => 0 end)
       PrimFloat.div = true
  /\ Binary64.agree_sqrt = true.
Proof. do 5 (split; [vm_compute; reflexivity|]). vm_compute. reflexivity. Qed.

(** [round] on decimal ties: the float nearest to 2.675 lies below it,
    the float nearest to 0.125 is exact and rounds to the even 0.12. *)
Lemma round_nd_samples :
  round_nd (lit 2675 1000) 2 = lit 267 100
  /\ round_nd (lit 125 1000) 2 = lit 12 100
  /\ round_nd (lit 375 1000) 2 = lit 38 100
  /\ round_nd (fmul (lit 3 22) (of_nat 100)) 1 = lit 136 10.
Proof. do 3 (split; [vm_compute; reflexivity|]). vm_compute. reflexivity. Qed.

End FloatFacts.

(** ** Every analyzer returns *)

Module Totality.
Import Float Str Re AIDetectionService Notions FloatFacts.

Lemma truediv_some (a b : nat) :
  (0 < b)%nat -> exists q, truediv a b = Some q /\ 0 <= q.
Proof.
  intro H. destruct b as [|b']; [lia|]. eexists. split; [reflexivity|].
  apply rnd_nonneg. unfold Qle. simpl. lia.
Qed.

Lemma fdiv_some (x y : Q) : ~ y == 0 -> fdiv x y = Some (rnd (x / y)).
Proof.
  intro H. unfold fdiv. destruct (Qeq_bool y 0) eqn:E; [|reflexivity].
  apply Qeq_bool_iff in E. contradiction.
Qed.

Lemma fsqrt_some (x : Q) : 0 <= x -> exists r, fsqrt x = Some r.
Proof.
  intro H. unfold fsqrt. destruct (Qcompare_spec x 0) as [E | L | G]; [eauto | lra | eauto].
Qed.

Lemma sum_float_from_nonneg (l : list Q) (acc : Q) :
  0 <= acc -> Forall (fun x => 0 <= x) l -> 0 <= fold_left fadd l acc.
Proof.
  revert acc. induction l as [|x l IH]; intros acc Ha Hl; simpl; [exact Ha|].
  inversion Hl; subst. apply IH; [apply fadd_nonneg|]; assumption.
Qed.

Lemma coefficient_of_variation_some (lengths : list nat) :
  lengths <> [] -> exists cv, coefficient_of_variation lengths = Some cv.
Proof.
  intro Hne.
  assert (Hlen : (0 < length lengths)%nat) by (destruct lengths; [congruence | simpl; lia]).
  unfold coefficient_of_variation.
  destruct (truediv_some (sum_nat lengths) Hlen) as [avg [Eavg Havg]].
  rewrite Eavg. cbn [bind].
  pose proof (of_nat_pos Hlen) as Hn.
  rewrite fdiv_some by lra. cbn [bind].
  set (total := sum_float _).
  assert (Htotal : 0 <= total).
  { apply sum_float_from_nonneg; [apply Qle_refl|].
    apply Forall_forall. intros x Hx. apply in_map_iff in Hx.
    destruct Hx as [l [<- _]]. apply fsquare_nonneg. }
  assert (Hvar : 0 <= rnd (total / of_nat (length lengths))).
  { apply rnd_nonneg. apply Qle_shift_div_l; [exact Hn | lra]. }
  destruct (fsqrt_some Hvar) as [std Estd]. rewrite Estd. cbn [bind].
  destruct (flt 0 avg) eqn:E; [|eauto].
  apply flt_spec in E. rewrite fdiv_some by lra. eauto.
Qed.

Lemma check_ai_patterns_some (t : text) : exists s, _check_ai_patterns t = Some s.
Proof.
  unfold _check_ai_patterns, add_transition_boost, transition_ratio.
  destruct (split (lower t)) as [|w ws] eqn:E; [cbn; eauto|].
  destruct (@truediv_some (count_if is_transition (w :: ws)) (length (w :: ws)))
    as [q [Eq _]]; [simpl; lia|].
  rewrite Eq. cbn [bind].
  destruct (fle _ q); [|destruct (fle _ q)]; cbn [bind]; eauto.
Qed.

Lemma length_lt_nonempty {A : Type} (l : list A) (n : nat) :
  (length l <? n)%nat = false -> (0 < n)%nat -> l <> [] /\ (0 < length l)%nat.
Proof.
  intros H Hn. apply Nat.ltb_ge in H. destruct l; [simpl in H; lia|].
  split; [congruence | simpl; lia].
Qed.

Lemma analyze_structure_some (t : text) : exists s, _analyze_structure t = Some s.
Proof.
  unfold _analyze_structure.
  destruct (length (sentences t) <? 2)%nat eqn:E; [eauto|].
  destruct (length_lt_nonempty _ E) as [Hne Hlen]; [lia|].
  unfold structure_of_lengths.
  destruct (@coefficient_of_variation_some (map words_in (sentences t))) as [cv Ecv].
  { intro H. apply map_eq_nil in H. contradiction. }
  rewrite Ecv. cbn [bind].
  destruct (@truediv_some (count_if is_medium (map words_in (sentences t)))
              (length (map words_in (sentences t)))) as [q [Eq _]].
  { rewrite length_map. exact Hlen. }
  rewrite Eq. cbn [bind]. eauto.
Qed.

Lemma analyze_vocabulary_some (t : text) : exists s, _analyze_vocabulary t = Some s.
Proof.
  unfold _analyze_vocabulary.
  destruct (length (findall_words (lower t)) <? 10)%nat eqn:E; [eauto|].
  destruct (length_lt_nonempty _ E) as [Hne Hlen]; [lia|].
  set (words := findall_words (lower t)) in *.
  destruct (truediv_some (length (distinct words)) Hlen) as [d [Ed _]].
  destruct (truediv_some (count_if (fun word => mem word ai_buzzwords) words) Hlen) as [b [Eb _]].
  destruct (truediv_some (count_if (fun word => mem word formal_words) words) Hlen) as [f [Ef _]].
  rewrite Ed, Eb, Ef. cbn [bind]. eauto.
Qed.

Lemma punctuation_ratio_some (t : text) : exists r, punctuation_ratio t = Some r.
Proof.
  unfold punctuation_ratio.
  destruct (0 <? length (split t))%nat eqn:E; [|eauto].
  apply Nat.ltb_lt in E.
  destruct (truediv_some (punctuation_count t) E) as [q [Eq _]]. eauto.
Qed.

Lemma add_paragraph_score_some (ps : list text) (score : Q) :
  exists s, add_paragraph_score ps score = Some s.
Proof.
  unfold add_paragraph_score.
  destruct (1 <? length ps)%nat eqn:E; [|eauto].
  apply Nat.ltb_lt in E.
  destruct (@coefficient_of_variation_some (map words_in ps)) as [cv Ecv].
  { destruct ps; simpl in *; [lia | congruence]. }
  rewrite Ecv. cbn [bind].
  destruct (flt cv _); [|destruct (flt cv _)]; eauto.
Qed.

Lemma analyze_consistency_some (t : text) : exists s, _analyze_consistency t = Some s.
Proof.
  unfold _analyze_consistency.
  destruct (punctuation_ratio_some t) as [r Er]. rewrite Er. cbn [bind].
  destruct (add_paragraph_score_some (paragraphs t)
              (add_punctuation_score r (lit 0 1))) as [s Es].
  rewrite Es. cbn [bind]. eauto.
Qed.

Lemma counter_add_nonempty (k : text) (c : list (text * nat)) : counter_add k c <> [].
Proof.
  destruct c as [|[k' n] c']; simpl; [congruence|].
  destruct (text_eqb k k'); congruence.
Qed.

Lemma fold_counter_nonempty (l : list text) (c : list (text * nat)) :
  c <> [] -> fold_left (fun c k => counter_add k c) l c <> [].
Proof.
  revert c. induction l as [|k l IH]; intros c H; simpl; [exact H|].
  apply IH, counter_add_nonempty.
Qed.

Lemma Counter_nonempty (l : list text) : l <> [] -> Counter l <> [].
Proof.
  intro H. destruct l as [|k l]; [congruence|].
  unfold Counter. simpl. apply fold_counter_nonempty. congruence.
Qed.

Lemma list_max_some (l : list nat) : l <> [] -> exists m, list_max l = Some m.
Proof. destruct l; [congruence | simpl; eauto]. Qed.

Lemma list_min_some (l : list nat) : l <> [] -> exists m, list_min l = Some m.
Proof. destruct l; [congruence | simpl; eauto]. Qed.

Lemma argmax_some (c : list (text * nat)) : c <> [] -> exists k, argmax c = Some k.
Proof. destruct c; [congruence | simpl; eauto]. Qed.

Lemma buzzword_indicator_some (ws : list text) : exists l, buzzword_indicator ws = Some l.
Proof.
  unfold buzzword_indicator. destruct ws as [|w ws]; [eauto|].
  match goal with |- context [truediv ?a ?b] =>
    destruct (@truediv_some a b) as [q [Eq _]]; [simpl; lia|] end.
  rewrite Eq. cbn [bind]. eauto.
Qed.

Lemma transition_indicator_some (ws : list text) : exists l, transition_indicator ws = Some l.
Proof.
  unfold transition_indicator, transition_ratio. destruct ws as [|w ws]; [eauto|].
  match goal with |- context [truediv ?a ?b] =>
    destruct (@truediv_some a b) as [q [Eq _]]; [simpl; lia|] end.
  rewrite Eq. cbn [bind]. eauto.
Qed.

Lemma structure_indicator_some (ss : list text) : exists l, structure_indicator ss = Some l.
Proof.
  unfold structure_indicator.
  destruct (2 <? length ss)%nat eqn:E; [|eauto]. apply Nat.ltb_lt in E.
  destruct (@coefficient_of_variation_some (map words_in ss)) as [cv Ecv].
  { destruct ss; simpl in *; [lia | congruence]. }
  rewrite Ecv. cbn [bind]. eauto.
Qed.

Lemma paragraph_indicator_some (ps : list text) : exists l, paragraph_indicator ps = Some l.
Proof.
  unfold paragraph_indicator.
  destruct (2 <? length ps)%nat eqn:E; [|eauto]. apply Nat.ltb_lt in E.
  assert (H : map words_in ps <> []) by (destruct ps; simpl in *; [lia | congruence]).
  destruct (list_max_some H) as [mx Emx]. destruct (list_min_some H) as [mn Emn].
  rewrite Emx, Emn. cbn [bind]. eauto.
Qed.

Lemma opening_indicator_some (ss : list text) : exists l, opening_indicator ss = Some l.
Proof.
  unfold opening_indicator.
  destruct (3 <? length ss)%nat eqn:E; [|eauto]. apply Nat.ltb_lt in E.
  assert (H : Counter (map opener ss) <> []).
  { apply Counter_nonempty. destruct ss; simpl in *; [lia | congruence]. }
  destruct (@list_max_some (values (Counter (map opener ss)))) as [mx Emx].
  { unfold values. intro H'. apply map_eq_nil in H'. contradiction. }
  rewrite Emx. cbn [bind].
  destruct (2 <? mx)%nat; [|eauto].
  destruct (argmax_some H) as [k Ek]. rewrite Ek. cbn [bind]. eauto.
Qed.

Lemma get_indicators_some (t : text) : exists l, _get_indicators t = Some l.
Proof.
  unfold _get_indicators.
  destruct (buzzword_indicator_some (split (lower t))) as [l1 E1].
  destruct (transition_indicator_some (split (lower t))) as [l2 E2].
  destruct (structure_indicator_some (sentences t)) as [l3 E3].
  destruct (paragraph_indicator_some (paragraphs t)) as [l4 E4].
  destruct (opening_indicator_some (sentences t)) as [l5 E5].
  rewrite E1. cbn [bind]. rewrite E2. cbn [bind]. rewrite E3. cbn [bind].
  rewrite E4. cbn [bind]. rewrite E5. cbn [bind].
  match goal with |- exists l, match ?x with _ => _ end = _ => destruct x end; eauto.
Qed.

Lemma avg_sentence_length_some (t : text) : exists x, _avg_sentence_length t = Some x.
Proof.
  unfold _avg_sentence_length. destruct (sentences t) as [|s ss] eqn:E; [eauto|].
  match goal with |- context [truediv ?a ?b] =>
    destruct (@truediv_some a b) as [q [Eq _]]; [simpl; lia|] end.
  rewrite Eq. cbn [bind]. eauto.
Qed.

Lemma unique_word_ratio_some (t : text) : exists x, _unique_word_ratio t = Some x.
Proof.
  unfold _unique_word_ratio. destruct (findall_words (lower t)) as [|s ss] eqn:E; [eauto|].
  match goal with |- context [truediv ?a ?b] =>
    destruct (@truediv_some a b) as [q [Eq _]]; [simpl; lia|] end.
  rewrite Eq. cbn [bind]. eauto.
Qed.

Lemma too_short_spec (t : text) : too_short t = true <-> (length (strip t) < 50)%nat.
Proof.
  unfold too_short. rewrite orb_true_iff, Nat.ltb_lt. split; [|tauto].
  intros [H | H]; [|exact H]. destruct t; [simpl; lia | discriminate H].
Qed.

Lemma analyze_text_short (t : text) :
  too_short t = true -> analyze_text t = Some (Failure too_short_error).
Proof. intro H. unfold analyze_text. rewrite H. reflexivity. Qed.

Lemma analyze_text_long (t : text) :
  too_short t = false ->
  exists p s v c found avg unique,
    _check_ai_patterns t = Some p /\ _analyze_structure t = Some s /\
    _analyze_vocabulary t = Some v /\ _analyze_consistency t = Some c /\
    _get_indicators t = Some found /\ _avg_sentence_length t = Some avg /\
    _unique_word_ratio t = Some unique /\
    let r := _check_repetition t in
    let o := overall p v s c r in
    analyze_text t = Some (Success
      {| ai_probability := percent o;
         likelihood := fst (confidence o);
         message := snd (confidence o);
         metrics :=
           {| pattern_score := percent p;
              vocabulary_score := percent v;
              structure_score := percent s;
              consistency_score := percent c;
              repetition_score := percent r |};
         indicators := found;
         statistics :=
           {| word_count := length (split t);
              sentence_count := length (re_split t);
              avg_sentence_length := avg;
              unique_word_ratio := unique |} |}).
Proof.
  intro H.
  destruct (check_ai_patterns_some t) as [p Ep].
  destruct (analyze_structure_some t) as [s Es].
  destruct (analyze_vocabulary_some t) as [v Ev].
  destruct (analyze_consistency_some t) as [c Ec].
  destruct (get_indicators_some t) as [found Ef].
  destruct (avg_sentence_length_some t) as [avg Ea].
  destruct (unique_word_ratio_some t) as [unique Eu].
  exists p, s, v, c, found, avg, unique. repeat (split; [assumption|]).
  unfold analyze_text. rewrite H, Ep, Es, Ev, Ec. cbn [bind].
  destruct (confidence _) as [l m]. rewrite Ef, Ea, Eu. reflexivity.
Qed.

End Totality.

Unset Implicit Arguments.

(** ** What [analyze_text] returns *)

Module Gate.
Import Float Str Re AIDetectionService Notions Examples FloatFacts Totality.

(** Comparison of two closed rationals by evaluation. *)
Ltac qle_const := apply Qle_bool_iff; vm_compute; reflexivity.

Lemma some_inj {A : Type} (x y : A) : Some x = Some y -> x = y.
Proof. intro H. injection H. auto. Qed.

Lemma bind_some {A B : Type} (x : option A) (k : A -> option B) (b : B) :
  bind x k = Some b -> exists a, x = Some a /\ k a = Some b.
Proof. destruct x as [a|]; simpl; [eauto | discriminate]. Qed.

Lemma analyze_text_success (t : text) (a : Analysis) :
  analyze_text t = Some (Success a) ->
  exists p s v c found avg unique,
    _check_ai_patterns t = Some p /\ _analyze_structure t = Some s /\
    _analyze_vocabulary t = Some v /\ _analyze_consistency t = Some c /\
    _get_indicators t = Some found /\ _avg_sentence_length t = Some avg /\
    _unique_word_ratio t = Some unique /\
    too_short t = false /\
    a = let r := _check_repetition t in
        let o := overall p v s c r in
        {| ai_probability := percent o;
           likelihood := fst (confidence o);
           message := snd (confidence o);
           metrics :=
             {| pattern_score := percent p;
                vocabulary_score := percent v;
                structure_score := percent s;
                consistency_score := percent c;
                repetition_score := percent r |};
           indicators := found;
           statistics :=
             {| word_count := length (split t);
                sentence_count := length (re_split t);
                avg_sentence_length := avg;
                unique_word_ratio := unique |} |}.
Proof.
  intro H. destruct (too_short t) eqn:E.
  - rewrite (analyze_text_short _ E) in H. discriminate H.
  - destruct (analyze_text_long _ E)
      as (p & s & v & c & found & avg & unique & Ep & Es & Ev & Ec & Ef & Ea & Eu & Ha).
    exists p, s, v, c, found, avg, unique.
    split; [exact Ep|]. split; [exact Es|]. split; [exact Ev|]. split; [exact Ec|].
    split; [exact Ef|]. split; [exact Ea|]. split; [exact Eu|]. split; [reflexivity|].
    cbv zeta in Ha. cbv zeta.
    match type of Ha with _ = Some (Success ?r) => generalize dependent r end.
    intros r Ha. rewrite Ha in H. clear - H. congruence.
Qed.

Lemma overall_score_some (t : text) (a : Analysis) :
  analyze_text t = Some (Success a) ->
  exists o, overall_score t = Some o /\
    ai_probability a = percent o /\
    likelihood a = fst (confidence o) /\
    message a = snd (confidence o).
Proof.
  intro H. destruct (analyze_text_success _ _ H)
    as (p & s & v & c & found & avg & unique & Ep & Es & Ev & Ec & _ & _ & _ & _ & ->).
  exists (overall p v s c (_check_repetition t)).
  split; [|split; [reflexivity | split; reflexivity]].
  unfold overall_score. rewrite Ep, Es, Ev, Ec. reflexivity.
Qed.

(** *** The length gate *)

Lemma analyze_text_returns (t : text) :
  (50 <= length (strip t))%nat -> exists a, analyze_text t = Some (Success a).
Proof.
  intro H. destruct (too_short t) eqn:E.
  - apply too_short_spec in E. lia.
  - destruct (analyze_text_long _ E)
      as (p & s & v & c & found & avg & unique & _ & _ & _ & _ & _ & _ & _ & Ha).
    eexists. exact Ha.
Qed.

(** C1. The scorer returns the too-short failure, with its message and
    nothing else, exactly when the trimmed text has fewer than 50
    characters; when it has at least 50 the scorer returns a success
    with the probability, the band, the five metrics, the indicators
    and the statistics.  No call raises. *)
Theorem length_gate (t : text) :
  ((length (strip t) < 50)%nat -> analyze_text t = Some (Failure too_short_error))
  /\ ((50 <= length (strip t))%nat -> exists a, analyze_text t = Some (Success a))
  /\ ((exists e, analyze_text t = Some (Failure e)) <-> (length (strip t) < 50)%nat).
Proof.
  assert (Hshort : (length (strip t) < 50)%nat ->
                   analyze_text t = Some (Failure too_short_error)).
  { intro H. apply analyze_text_short, too_short_spec, H. }
  split; [exact Hshort | split; [apply analyze_text_returns|]].
  split.
  - intros [e He]. destruct (Nat.lt_ge_cases (length (strip t)) 50) as [L | G]; [exact L|].
    destruct (analyze_text_returns _ G) as [a Ha]. congruence.
  - intro H. eexists. apply Hshort, H.
Qed.

End Gate.

(** ** The lines of the reporter *)

Module Reporter.
Import Float Str Re AIDetectionService Notions FloatFacts Totality Gate.

Lemma filter_when (k : indicator -> bool) (b : bool) (i : indicator) :
  filter k (when b i) = when (b && k i) i.
Proof. destruct b; simpl; [destruct (k i)|]; reflexivity. Qed.

Lemma buzzword_indicator_shape (ws : list text) (l : list indicator) :
  buzzword_indicator ws = Some l -> exists b n, l = when b (Buzzwords n).
Proof.
  unfold buzzword_indicator. destruct ws as [|w ws]; intro H.
  - apply some_inj in H. subst l. exists false, 0%nat. reflexivity.
  - apply bind_some in H. destruct H as (q & _ & H).
    apply some_inj in H. subst l. eauto.
Qed.

Lemma transition_indicator_shape (ws : list text) (l : list indicator) :
  transition_indicator ws = Some l -> exists b x, l = when b (TransitionWords x).
Proof.
  unfold transition_indicator. destruct ws as [|w ws]; intro H.
  - apply some_inj in H. subst l. exists false, 0. reflexivity.
  - apply bind_some in H. destruct H as (q & _ & H).
    apply some_inj in H. subst l. eauto.
Qed.

Lemma structure_indicator_shape (ss : list text) (l : list indicator) :
  structure_indicator ss = Some l -> exists b, l = when b ConsistentStructure.
Proof.
  unfold structure_indicator. destruct (_ <? _)%nat; intro H.
  - apply bind_some in H. destruct H as (q & _ & H).
    apply some_inj in H. subst l. eauto.
  - apply some_inj in H. subst l. exists false. reflexivity.
Qed.

Lemma paragraph_indicator_shape (ps : list text) (l : list indicator) :
  paragraph_indicator ps = Some l -> exists b, l = when b BalancedParagraphs.
Proof.
  unfold paragraph_indicator. destruct (_ <? _)%nat; intro H.
  - apply bind_some in H. destruct H as (mx & _ & H).
    apply bind_some in H. destruct H as (mn & _ & H).
    apply some_inj in H. subst l. eauto.
  - apply some_inj in H. subst l. exists false. reflexivity.
Qed.

Lemma opening_indicator_shape (ss : list text) (l : list indicator) :
  opening_indicator ss = Some l -> exists b w n, l = when b (RepetitiveOpenings w n).
Proof.
  unfold opening_indicator. destruct (_ <? _)%nat; intro H.
  - apply bind_some in H. destruct H as (mx & _ & H).
    destruct (_ <? _)%nat.
    + apply bind_some in H. destruct H as (k & _ & H).
      apply some_inj in H. subst l. exists true, k, mx. reflexivity.
    + apply some_inj in H. subst l. exists false, [], 0%nat. reflexivity.
  - apply some_inj in H. subst l. exists false, [], 0%nat. reflexivity.
Qed.

(** The list that [_get_indicators] returns, filtered by a kind of
    line other than the fallback line, is the concatenation of its
    eight blocks filtered the same way. *)
Lemma get_indicators_filter (k : indicator -> bool) (t : text)
      (found : list indicator) :
  k NoStrongIndicators = false ->
  _get_indicators t = Some found ->
  exists b4 n4 b5 x5 b6 b7 b8 w8 n8,
    opening_indicator (sentences t) = Some (when b8 (RepetitiveOpenings w8 n8))
    /\ filter k found =
       when (search false self_reference_pattern (lower t) && k SelfReference) SelfReference
       ++ when (search false hedging_pattern (lower t) && k HedgingPhrases) HedgingPhrases
       ++ when (search false metaphor_pattern (lower t) && k MetaphoricalLanguage)
               MetaphoricalLanguage
       ++ when (b4 && k (Buzzwords n4)) (Buzzwords n4)
       ++ when (b5 && k (TransitionWords x5)) (TransitionWords x5)
       ++ when (b6 && k ConsistentStructure) ConsistentStructure
       ++ when (b7 && k BalancedParagraphs) BalancedParagraphs
       ++ when (b8 && k (RepetitiveOpenings w8 n8)) (RepetitiveOpenings w8 n8).
Proof.
  intros Hk H. unfold _get_indicators in H.
  apply bind_some in H. destruct H as (l1 & E1 & H).
  apply bind_some in H. destruct H as (l2 & E2 & H).
  apply bind_some in H. destruct H as (l3 & E3 & H).
  apply bind_some in H. destruct H as (l4 & E4 & H).
  apply bind_some in H. destruct H as (l5 & E5 & H).
  destruct (buzzword_indicator_shape _ _ E1) as (b4 & n4 & ->).
  destruct (transition_indicator_shape _ _ E2) as (b5 & x5 & ->).
  destruct (structure_indicator_shape _ _ E3) as (b6 & ->).
  destruct (paragraph_indicator_shape _ _ E4) as (b7 & ->).
  destruct (opening_indicator_shape _ _ E5) as (b8 & w8 & n8 & ->).
  exists b4, n4, b5, x5, b6, b7, b8, w8, n8. split; [exact E5|].
  rewrite <- !filter_when, <- !filter_app, !app_assoc.
  match type of H with
  | match ?raw with _ => _ end = _ => destruct raw eqn:R
  end; apply some_inj in H; subst found.
  - simpl. rewrite Hk. reflexivity.
  - reflexivity.
Qed.

End Reporter.

(** ** Matching *)

Module Matching.
Import Float Str Re AIDetectionService Notions.

Lemma orb_swap4 (a b c d : bool) : (a || b) || (c || d) = (a || c) || (b || d).
Proof. destruct a, b, c, d; reflexivity. Qed.

Lemma ends_bounded_alt (ic : bool) (a b : regex) (p : position) :
  ends ic (bounded (Alt a b)) p
  = ends ic (bounded a) p ++ ends ic (bounded b) p.
Proof.
  unfold bounded. cbn [ends]. destruct (at_boundary p); [|reflexivity].
  cbn [flat_map]. rewrite !app_nil_r. rewrite !flat_map_app. reflexivity.
Qed.

Lemma matches_at_bounded_alt (ic : bool) (a b : regex) (p : position) :
  matches_at ic (bounded (Alt a b)) p
  = matches_at ic (bounded a) p || matches_at ic (bounded b) p.
Proof.
  unfold matches_at. rewrite ends_bounded_alt.
  destruct (ends ic (bounded a) p); reflexivity.
Qed.

Lemma search_from_bounded_alt (ic : bool) (a b : regex) (prev : option ascii)
      (s : text) :
  search_from ic (bounded (Alt a b)) prev s
  = search_from ic (bounded a) prev s || search_from ic (bounded b) prev s.
Proof.
  revert prev. induction s as [|c s IH]; intro prev; cbn [search_from].
  - rewrite matches_at_bounded_alt, !orb_false_r. reflexivity.
  - rewrite matches_at_bounded_alt, IH. apply orb_swap4.
Qed.

(** A search for [\b(a|b)\b] succeeds when one for [\ba\b] or one for
    [\bb\b] does. *)
Lemma search_bounded_alt (ic : bool) (a b : regex) (s : text) :
  search ic (bounded (Alt a b)) s
  = search ic (bounded a) s || search ic (bounded b) s.
Proof. apply search_from_bounded_alt. Qed.

Lemma char_match_ignorecase (c t : ascii) :
  char_match false c t = true -> char_match true c t = true.
Proof.
  unfold char_match. intro H. apply Ascii.eqb_eq in H. subst t.
  apply Ascii.eqb_refl.
Qed.

Lemma lit_end_ignorecase (l : text) (prev : option ascii) (s : text) (q : position) :
  lit_end false l prev s = Some q -> lit_end true l prev s = Some q.
Proof.
  revert prev s. induction l as [|c l IH]; intros prev s; cbn [lit_end]; [auto|].
  destruct s as [|t s]; [intro H; discriminate H|].
  destruct (char_match false c t) eqn:E; [|intro H; discriminate H].
  rewrite (char_match_ignorecase _ _ E). apply IH.
Qed.

(** What matches with regard to case matches without. *)
Lemma ends_ignorecase (r : regex) (p q : position) :
  In q (ends false r p) -> In q (ends true r p).
Proof.
  revert p q. induction r as [l | | | r1 IH1 r2 IH2 | r1 IH1 r2 IH2];
    intros p q; cbn [ends]; try tauto.
  - destruct (lit_end false (str l) (fst p) (snd p)) as [q'|] eqn:E; [|intros []].
    rewrite (lit_end_ignorecase _ _ _ _ E). auto.
  - rewrite !in_flat_map. intros (m & Hm & Hq). exists m. auto.
  - rewrite !in_app_iff. intros [H | H]; auto.
Qed.

Lemma matches_at_ignorecase (r : regex) (p : position) :
  matches_at false r p = true -> matches_at true r p = true.
Proof.
  unfold matches_at. destruct (ends false r p) as [|q l] eqn:E; [discriminate|].
  intros _. assert (H : In q (ends true r p)).
  { apply ends_ignorecase. rewrite E. left. reflexivity. }
  destruct (ends true r p); [contradiction | reflexivity].
Qed.

Lemma search_ignorecase (r : regex) (s : text) :
  search false r s = true -> search true r s = true.
Proof.
  unfold search. generalize (@None ascii) as prev.
  induction s as [|c s IH]; intro prev; cbn [search_from];
    rewrite !orb_true_iff; intros [H | H].
  - left. apply matches_at_ignorecase, H.
  - discriminate H.
  - left. apply matches_at_ignorecase, H.
  - right. apply IH, H.
Qed.

End Matching.

(** ** Bounds on the scores *)

Module Bounds.
Import Float Str Re AIDetectionService Notions Examples FloatFacts Totality Gate.

Lemma check_ai_patterns_le_1 (t : text) (p : Q) :
  _check_ai_patterns t = Some p -> p <= lit 1 1.
Proof.
  unfold _check_ai_patterns. intro H. apply bind_some in H.
  destruct H as (s & _ & H). apply some_inj in H. subst. apply fmin_le_r.
Qed.

Lemma analyze_structure_le_1 (t : text) (s : Q) :
  _analyze_structure t = Some s -> s <= lit 1 1.
Proof.
  unfold _analyze_structure, structure_of_lengths. intro H.
  destruct (_ <? _)%nat.
  - apply some_inj in H. subst. qle_const.
  - apply bind_some in H. destruct H as (cv & _ & H).
    apply bind_some in H. destruct H as (m & _ & H).
    apply some_inj in H. subst. apply fmin_le_r.
Qed.

Lemma analyze_vocabulary_le_1 (t : text) (v : Q) :
  _analyze_vocabulary t = Some v -> v <= lit 1 1.
Proof.
  unfold _analyze_vocabulary. intro H.
  destruct (_ <? _)%nat.
  - apply some_inj in H. subst. qle_const.
  - apply bind_some in H. destruct H as (d & _ & H).
    apply bind_some in H. destruct H as (b & _ & H).
    apply bind_some in H. destruct H as (f & _ & H).
    apply some_inj in H. subst. apply fmin_le_r.
Qed.

Lemma analyze_consistency_le_1 (t : text) (c : Q) :
  _analyze_consistency t = Some c -> c <= lit 1 1.
Proof.
  unfold _analyze_consistency. intro H.
  apply bind_some in H. destruct H as (r & _ & H).
  apply bind_some in H. destruct H as (s & _ & H).
  apply some_inj in H. subst. apply fmin_le_r.
Qed.

Lemma add_opener_score_le (c : list (text * nat)) :
  add_opener_score c (lit 0 1) <= lit 3 10.
Proof.
  unfold add_opener_score. destruct (existsb _ _); qle_const.
Qed.

Lemma add_bigram_score_le (b : list text) (score : Q) :
  score <= lit 3 10 -> add_bigram_score b score <= lit 8 10.
Proof.
  intro H. assert (H' : score <= lit 8 10).
  { apply Qle_trans with (lit 3 10); [exact H | qle_const]. }
  unfold add_bigram_score. destruct b as [|w b]; [exact H'|].
  destruct (0 <? _)%nat; [|exact H'].
  apply Qle_trans with (fadd (lit 3 10) (lit 5 10)); [|qle_const].
  apply fadd_le; [exact H | apply fmin_le_r].
Qed.

Lemma check_repetition_le (t : text) : _check_repetition t <= lit 8 10.
Proof.
  unfold _check_repetition. destruct (_ <? _)%nat; [qle_const|].
  eapply Qle_trans; [apply fmin_le_l|].
  apply add_bigram_score_le, add_opener_score_le.
Qed.

Lemma weighted_le (x y : Q) (w : Q) :
  0 <= w -> x <= y -> fmul x (rnd w) <= fmul y (rnd w).
Proof. intros Hw H. apply fmul_le_r; [apply rnd_nonneg, Hw | exact H]. Qed.

Lemma overall_le (p v s c r p' v' s' c' r' : Q) :
  p <= p' -> v <= v' -> s <= s' -> c <= c' -> r <= r' ->
  overall p v s c r <= overall p' v' s' c' r'.
Proof.
  intros Hp Hv Hs Hc Hr. unfold overall.
  apply fadd_le; [apply fadd_le; [apply fadd_le; [apply fadd_le|]|]|].
  - apply weighted_le; [discriminate | exact Hp].
  - apply weighted_le; [discriminate | exact Hv].
  - apply weighted_le; [discriminate | exact Hs].
  - apply weighted_le; [discriminate | exact Hc].
  - apply weighted_le; [discriminate | exact Hr].
Qed.

(** C9. For every text that passes the length gate the repetition
    score is at most 0.8 (the opener bonus 0.3 and the bigram bonus,
    capped at 0.5), so the reported repetition metric is at most 80.0
    and the reported probability is at most 99.0, the percentage of
    the weighted sum at scores 1, 1, 1, 1 and 0.8; a probability of 100
    is not reported. *)
Theorem repetition_cap (t : text) :
  (50 <= length (strip t))%nat ->
  exists a,
    analyze_text t = Some (Success a)
    /\ _check_repetition t <= lit 8 10
    /\ repetition_score (metrics a) <= inject_Z 80
    /\ ai_probability a <= inject_Z 99
    /\ percent (overall (lit 1 1) (lit 1 1) (lit 1 1) (lit 1 1) (lit 8 10)) = inject_Z 99
    /\ ~ ai_probability a == inject_Z 100.
Proof.
  intro G. destruct (analyze_text_returns _ G) as [a H]. exists a.
  split; [exact H|].
  destruct (analyze_text_success _ _ H)
    as (p & s & v & c & found & avg & unique & Ep & Es & Ev & Ec & _ & _ & _ & _ & ->).
  cbv zeta.
  cbn [ai_probability metrics repetition_score].
  pose proof (check_repetition_le t) as Hr.
  assert (Hrep : percent (_check_repetition t) <= inject_Z 80).
  { apply Qle_trans with (percent (lit 8 10)); [apply percent_le, Hr | qle_const]. }
  assert (Hall : percent (overall p v s c (_check_repetition t)) <= inject_Z 99).
  { apply Qle_trans with (percent (overall (lit 1 1) (lit 1 1) (lit 1 1) (lit 1 1) (lit 8 10))).
    - apply percent_le, overall_le;
        [ apply (check_ai_patterns_le_1 _ _ Ep) | apply (analyze_vocabulary_le_1 _ _ Ev)
        | apply (analyze_structure_le_1 _ _ Es) | apply (analyze_consistency_le_1 _ _ Ec)
        | exact Hr ].
    - qle_const. }
  split; [exact Hr|]. split; [exact Hrep|]. split; [exact Hall|].
  split; [vm_compute; reflexivity|].
  intro Heq. rewrite Heq in Hall. revert Hall. apply Qlt_not_le. reflexivity.
Qed.

Lemma repetition_cap_witness :
  (50 <= length (strip four_openings))%nat
  /\ exists a,
       analyze_text four_openings = Some (Success a)
       /\ _check_repetition four_openings <= lit 8 10
       /\ repetition_score (metrics a) <= inject_Z 80
       /\ ai_probability a <= inject_Z 99
       /\ percent (overall (lit 1 1) (lit 1 1) (lit 1 1) (lit 1 1) (lit 8 10)) = inject_Z 99
       /\ ~ ai_probability a == inject_Z 100.
Proof.
  assert (G : (50 <= length (strip four_openings))%nat) by (vm_compute; lia).
  split; [exact G | apply (repetition_cap four_openings G)].
Defined.

End Bounds.

(** ** The aggregator *)

Module Aggregation.
Import Float Str Re AIDetectionService Notions Examples FloatFacts Totality Gate.

(** C5. For every text that passes the length gate the overall score
    is 0.35 * pattern + 0.25 * vocabulary + 0.20 * structure
    + 0.15 * consistency + 0.05 * repetition over the five analyzer
    scores; the reported probability is [round(overall * 100, 2)] and
    each of the five metrics is rounded in the same way on its own; the
    five weights sum to exactly 1, as decimals and as floats added in
    the order of the source. *)
Theorem weighted_sum (t : text) :
  (50 <= length (strip t))%nat ->
  exists a p v s c,
    analyze_text t = Some (Success a)
    /\ _check_ai_patterns t = Some p /\ _analyze_vocabulary t = Some v
    /\ _analyze_structure t = Some s /\ _analyze_consistency t = Some c
    /\ let r := _check_repetition t in
       let o := fadd (fadd (fadd (fadd (fmul p (lit 35 100)) (fmul v (lit 25 100)))
                                 (fmul s (lit 20 100)))
                           (fmul c (lit 15 100)))
                     (fmul r (lit 5 100)) in
       overall_score t = Some o
       /\ ai_probability a = round_nd (fmul o (of_nat 100)) 2
       /\ pattern_score (metrics a) = round_nd (fmul p (of_nat 100)) 2
       /\ vocabulary_score (metrics a) = round_nd (fmul v (of_nat 100)) 2
       /\ structure_score (metrics a) = round_nd (fmul s (of_nat 100)) 2
       /\ consistency_score (metrics a) = round_nd (fmul c (of_nat 100)) 2
       /\ repetition_score (metrics a) = round_nd (fmul r (of_nat 100)) 2
       /\ pattern_weight + vocabulary_weight + structure_weight
            + consistency_weight + repetition_weight == 1
       /\ fadd (fadd (fadd (fadd (rnd pattern_weight) (rnd vocabulary_weight))
                          (rnd structure_weight))
                    (rnd consistency_weight))
              (rnd repetition_weight) = 1.
Proof.
  intro G. destruct (analyze_text_returns _ G) as [a H].
  destruct (analyze_text_success _ _ H)
    as (p & s & v & c & found & avg & unique & Ep & Es & Ev & Ec & _ & _ & _ & _ & Ea).
  exists a, p, v, s, c.
  split; [exact H|].
  split; [exact Ep|]. split; [exact Ev|]. split; [exact Es|]. split; [exact Ec|].
  subst a. cbv zeta.
  cbn [ai_probability metrics pattern_score vocabulary_score structure_score
       consistency_score repetition_score].
  split.
  { unfold overall_score. rewrite Ep, Es, Ev, Ec. reflexivity. }
  do 7 (split; [reflexivity|]). vm_compute. reflexivity.
Qed.

Lemma weighted_sum_witness :
  (50 <= length (strip self_introduction))%nat
  /\ exists a p v s c,
    analyze_text self_introduction = Some (Success a)
    /\ _check_ai_patterns self_introduction = Some p /\ _analyze_vocabulary self_introduction = Some v
    /\ _analyze_structure self_introduction = Some s /\ _analyze_consistency self_introduction = Some c
    /\ let r := _check_repetition self_introduction in
       let o := fadd (fadd (fadd (fadd (fmul p (lit 35 100)) (fmul v (lit 25 100)))
                                 (fmul s (lit 20 100)))
                           (fmul c (lit 15 100)))
                     (fmul r (lit 5 100)) in
       overall_score self_introduction = Some o
       /\ ai_probability a = round_nd (fmul o (of_nat 100)) 2
       /\ pattern_score (metrics a) = round_nd (fmul p (of_nat 100)) 2
       /\ vocabulary_score (metrics a) = round_nd (fmul v (of_nat 100)) 2
       /\ structure_score (metrics a) = round_nd (fmul s (of_nat 100)) 2
       /\ consistency_score (metrics a) = round_nd (fmul c (of_nat 100)) 2
       /\ repetition_score (metrics a) = round_nd (fmul r (of_nat 100)) 2
       /\ pattern_weight + vocabulary_weight + structure_weight
            + consistency_weight + repetition_weight == 1
       /\ fadd (fadd (fadd (fadd (rnd pattern_weight) (rnd vocabulary_weight))
                          (rnd structure_weight))
                    (rnd consistency_weight))
              (rnd repetition_weight) = 1.
Proof.
  assert (G : (50 <= length (strip self_introduction))%nat) by (vm_compute; lia).
  split; [exact G | apply (weighted_sum self_introduction G)].
Defined.

Lemma thresholds_ordered : lit 20 100 <= lit 35 100 /\ lit 35 100 <= lit 55 100.
Proof. split; qle_const. Qed.

Lemma confidence_spec (o : Q) :
  (fst (confidence o) = High <-> lit 55 100 <= o)
  /\ (fst (confidence o) = Medium <-> lit 35 100 <= o /\ o < lit 55 100)
  /\ (fst (confidence o) = Low <-> lit 20 100 <= o /\ o < lit 35 100)
  /\ (fst (confidence o) = VeryLow <-> o < lit 20 100).
Proof.
  destruct thresholds_ordered as [T1 T2]. unfold confidence.
  destruct (fle (lit 55 100) o) eqn:E1;
    [apply fle_spec in E1 | apply fle_false in E1;
     destruct (fle (lit 35 100) o) eqn:E2;
       [apply fle_spec in E2 | apply fle_false in E2;
        destruct (fle (lit 20 100) o) eqn:E3;
          [apply fle_spec in E3 | apply fle_false in E3]]];
  cbn [fst]; generalize dependent (lit 55 100); generalize dependent (lit 35 100);
  generalize dependent (lit 20 100); intros;
  repeat split; intros; try discriminate; try reflexivity; try lra.
  all: match goal with H : _ /\ _ |- _ => destruct H; lra end.
Qed.

Lemma confidence_message (o : Q) :
  snd (confidence o) = band_message (fst (confidence o)).
Proof.
  unfold confidence.
  destruct (fle _ o); [reflexivity|]. destruct (fle _ o); [reflexivity|].
  destruct (fle _ o); reflexivity.
Qed.

Lemma confidence_mono (x y : Q) :
  x <= y -> (rank (fst (confidence x)) <= rank (fst (confidence y)))%nat.
Proof.
  intro H. destruct thresholds_ordered as [T1 T2]. unfold confidence.
  destruct (fle (lit 55 100) x) eqn:X1;
    [apply fle_spec in X1 | apply fle_false in X1;
     destruct (fle (lit 35 100) x) eqn:X2;
       [apply fle_spec in X2 | apply fle_false in X2;
        destruct (fle (lit 20 100) x) eqn:X3;
          [apply fle_spec in X3 | apply fle_false in X3]]];
  (destruct (fle (lit 55 100) y) eqn:Y1;
    [apply fle_spec in Y1 | apply fle_false in Y1;
     destruct (fle (lit 35 100) y) eqn:Y2;
       [apply fle_spec in Y2 | apply fle_false in Y2;
        destruct (fle (lit 20 100) y) eqn:Y3;
          [apply fle_spec in Y3 | apply fle_false in Y3]]]);
  cbn [fst rank]; try lia;
  generalize dependent (lit 55 100); generalize dependent (lit 35 100);
  generalize dependent (lit 20 100); intros; lra.
Qed.

(** C6. For every text that passes the length gate the band follows
    from the overall score by inclusive lower bounds: High from 0.55,
    Medium from 0.35 and below 0.55, Low from 0.20 and below 0.35,
    VeryLow below 0.20; each band carries its fixed message; and the
    band does not decrease when the overall score grows, nor when the
    reported probability grows. *)
Theorem likelihood_bands (t : text) :
  (50 <= length (strip t))%nat ->
  exists a o,
    analyze_text t = Some (Success a)
    /\ overall_score t = Some o
    /\ (likelihood a = High <-> lit 55 100 <= o)
    /\ (likelihood a = Medium <-> lit 35 100 <= o /\ o < lit 55 100)
    /\ (likelihood a = Low <-> lit 20 100 <= o /\ o < lit 35 100)
    /\ (likelihood a = VeryLow <-> o < lit 20 100)
    /\ message a = band_message (likelihood a)
    /\ (forall t' a' o',
          analyze_text t' = Some (Success a') -> overall_score t' = Some o' ->
          o <= o' -> (rank (likelihood a) <= rank (likelihood a'))%nat)
    /\ (forall t' a',
          analyze_text t' = Some (Success a') ->
          ai_probability a < ai_probability a' ->
          (rank (likelihood a) <= rank (likelihood a'))%nat).
Proof.
  intro G. destruct (analyze_text_returns _ G) as [a H].
  destruct (overall_score_some _ _ H) as (o & Eo & Ep & El & Em).
  exists a, o. split; [exact H|]. split; [exact Eo|]. rewrite El, Em.
  destruct (confidence_spec o) as (S1 & S2 & S3 & S4).
  split; [exact S1|]. split; [exact S2|]. split; [exact S3|]. split; [exact S4|].
  split; [apply confidence_message|]. split.
  - intros t' a' o' H' Eo' Hle.
    destruct (overall_score_some _ _ H') as (o2 & Eo2 & _ & El2 & _).
    rewrite Eo' in Eo2. apply some_inj in Eo2. subst o2. rewrite El2.
    apply confidence_mono, Hle.
  - intros t' a' H' Hlt.
    destruct (overall_score_some _ _ H') as (o2 & _ & Ep2 & El2 & _).
    rewrite El2. apply confidence_mono.
    destruct (Qlt_le_dec o2 o) as [L | Ge]; [|exact Ge].
    rewrite Ep, Ep2 in Hlt.
    assert (percent o2 <= percent o) by (apply percent_le; lra). lra.
Qed.

Lemma likelihood_bands_witness :
  (50 <= length (strip four_openings))%nat
  /\ exists a o,
    analyze_text four_openings = Some (Success a)
    /\ overall_score four_openings = Some o
    /\ (likelihood a = High <-> lit 55 100 <= o)
    /\ (likelihood a = Medium <-> lit 35 100 <= o /\ o < lit 55 100)
    /\ (likelihood a = Low <-> lit 20 100 <= o /\ o < lit 35 100)
    /\ (likelihood a = VeryLow <-> o < lit 20 100)
    /\ message a = band_message (likelihood a)
    /\ (forall t' a' o',
          analyze_text t' = Some (Success a') -> overall_score t' = Some o' ->
          o <= o' -> (rank (likelihood a) <= rank (likelihood a'))%nat)
    /\ (forall t' a',
          analyze_text t' = Some (Success a') ->
          ai_probability a < ai_probability a' ->
          (rank (likelihood a) <= rank (likelihood a'))%nat).
Proof.
  assert (G : (50 <= length (strip four_openings))%nat) by (vm_compute; lia).
  split; [exact G | apply (likelihood_bands four_openings G)].
Defined.

End Aggregation.

(** ** The consistency analyzer *)

Module Consistency.
Import Float Str Re AIDetectionService Notions Examples FloatFacts Totality Gate.

(** C7. For every text the punctuation ratio is the number of ',',
    ';' and ':' over the number of words (0 without words), and the
    bonus for it is given once, the narrow band first: exactly 0.5
    when the ratio lies in [0.08, 0.15]; otherwise exactly 0.25 when it
    lies in [0.05, 0.18]; otherwise nothing; the two are never both
    added.  The paragraph score is then added to that bonus. *)
Theorem punctuation_bonus (t : text) :
  exists ratio,
    punctuation_ratio t = Some ratio
    /\ punctuation_count t = (count_char 44 t + count_char 59 t + count_char 58 t)%nat
    /\ (split t = [] -> ratio = 0)
    /\ (split t <> [] ->
        truediv (punctuation_count t) (length (split t)) = Some ratio)
    /\ let narrow := lit 8 100 <= ratio /\ ratio <= lit 15 100 in
       let wide := lit 5 100 <= ratio /\ ratio <= lit 18 100 in
       let bonus := add_punctuation_score ratio (lit 0 1) in
       (narrow -> bonus = lit 5 10)
       /\ (~ narrow -> wide -> bonus = lit 25 100)
       /\ (~ narrow -> ~ wide -> bonus = 0)
       /\ bonus <> fadd (lit 5 10) (lit 25 100)
       /\ _analyze_consistency t =
          (score <- add_paragraph_score (paragraphs t) bonus ;;
           Some (fmin score (lit 1 1))).
Proof.
  destruct (punctuation_ratio_some t) as [ratio Er].
  exists ratio. split; [exact Er|]. split; [reflexivity|].
  split; [|split].
  - intro H. unfold punctuation_ratio in Er. rewrite H in Er. cbn in Er. congruence.
  - intro H. unfold punctuation_ratio in Er.
    destruct (split t) as [|w ws]; [congruence|]. exact Er.
  - cbv zeta.
    assert (Hcases :
      (lit 8 100 <= ratio /\ ratio <= lit 15 100 ->
         add_punctuation_score ratio (lit 0 1) = lit 5 10)
      /\ (~ (lit 8 100 <= ratio /\ ratio <= lit 15 100) ->
          lit 5 100 <= ratio /\ ratio <= lit 18 100 ->
          add_punctuation_score ratio (lit 0 1) = lit 25 100)
      /\ (~ (lit 8 100 <= ratio /\ ratio <= lit 15 100) ->
          ~ (lit 5 100 <= ratio /\ ratio <= lit 18 100) ->
          add_punctuation_score ratio (lit 0 1) = 0)
      /\ add_punctuation_score ratio (lit 0 1) <> fadd (lit 5 10) (lit 25 100)).
    { unfold add_punctuation_score.
      destruct (fle (lit 8 100) ratio && fle ratio (lit 15 100)) eqn:N.
      - apply andb_true_iff in N. destruct N as [N1 N2].
        apply fle_spec in N1, N2.
        repeat split; intros; try reflexivity; try tauto.
        vm_compute. discriminate.
      - assert (Hn : ~ (lit 8 100 <= ratio /\ ratio <= lit 15 100)).
        { intros [N1 N2]. apply fle_spec in N1, N2. rewrite N1, N2 in N. discriminate N. }
        destruct (fle (lit 5 100) ratio && fle ratio (lit 18 100)) eqn:W.
        + apply andb_true_iff in W. destruct W as [W1 W2].
          apply fle_spec in W1, W2.
          repeat split; intros; try reflexivity; try tauto.
          vm_compute. discriminate.
        + assert (Hw : ~ (lit 5 100 <= ratio /\ ratio <= lit 18 100)).
          { intros [W1 W2]. apply fle_spec in W1, W2. rewrite W1, W2 in W. discriminate W. }
          repeat split; intros; try reflexivity; try tauto.
          vm_compute. discriminate. }
    destruct Hcases as (C1 & C2 & C3 & C4).
    repeat (split; [assumption|]).
    unfold _analyze_consistency. rewrite Er. reflexivity.
Qed.

End Consistency.

(** ** The structure analyzer *)

Module Structure.
Import Float Str Re AIDetectionService Notions Examples FloatFacts Totality Gate.

(** *** Characters that survive trimming and splitting *)

Lemma count_if_app {A : Type} (p : A -> bool) (l1 l2 : list A) :
  count_if p (l1 ++ l2) = (count_if p l1 + count_if p l2)%nat.
Proof. unfold count_if. rewrite filter_app, length_app. reflexivity. Qed.

Lemma count_if_rev {A : Type} (p : A -> bool) (l : list A) :
  count_if p (rev l) = count_if p l.
Proof.
  induction l as [|x l IH]; [reflexivity|].
  simpl rev. rewrite count_if_app, IH. unfold count_if. simpl.
  destruct (p x); simpl; lia.
Qed.

Lemma count_if_le_length {A : Type} (p : A -> bool) (l : list A) :
  (count_if p l <= length l)%nat.
Proof. apply filter_length_le. Qed.

Lemma solid_cons (c : ascii) (s : text) :
  solid (c :: s) = ((if isspace c then 0 else 1) + solid s)%nat.
Proof. unfold solid, count_if. simpl. destruct (isspace c); reflexivity. Qed.

Lemma solid_lstrip (s : text) : solid (lstrip isspace s) = solid s.
Proof.
  induction s as [|c s IH]; [reflexivity|].
  simpl. destruct (isspace c) eqn:E; [|reflexivity].
  rewrite IH, solid_cons, E. reflexivity.
Qed.

Lemma solid_rev (s : text) : solid (rev s) = solid s.
Proof. apply count_if_rev. Qed.

Lemma solid_strip (s : text) : solid (strip s) = solid s.
Proof.
  unfold strip, strip_chars, rstrip.
  rewrite solid_rev, solid_lstrip, solid_rev, solid_lstrip. reflexivity.
Qed.

Lemma solid_le_strip (s : text) : (solid s <= length (strip s))%nat.
Proof. rewrite <- solid_strip. apply count_if_le_length. Qed.

(** A word of [split] holds at least one character that is not
    whitespace. *)
Lemma runs_aux_length (cur s : text) :
  (length (runs_aux isspace cur s)
   <= (match cur with [] => 0 | _ :: _ => 1 end) + solid s)%nat.
Proof.
  revert cur. induction s as [|c s IH]; intro cur.
  - destruct cur; simpl; lia.
  - simpl runs_aux. rewrite solid_cons. destruct (isspace c).
    + destruct cur; simpl; [apply (IH []) | pose proof (IH []); simpl in *; lia].
    + pose proof (IH (c :: cur)). simpl in *. destruct cur; lia.
Qed.

Lemma words_in_le_solid (s : text) : (words_in s <= solid s)%nat.
Proof. apply (runs_aux_length [] s). Qed.

(** The pieces of [re.split] hold no more solid characters than the
    text. *)
Lemma re_split_aux_solid (cur : text) (in_run : bool) (s : text) :
  (list_sum (map solid (re_split_aux cur in_run s)) <= solid cur + solid s)%nat.
Proof.
  revert cur in_run. induction s as [|c s IH]; intros cur in_run.
  - simpl. rewrite solid_rev. lia.
  - simpl re_split_aux. rewrite solid_cons. destruct (is_sentence_end c).
    + destruct in_run.
      * pose proof (IH [] true). change (solid []) with 0%nat in H. lia.
      * simpl. rewrite solid_rev. pose proof (IH [] true).
        change (solid []) with 0%nat in H. lia.
    + pose proof (IH (c :: cur) false). rewrite solid_cons in H. lia.
Qed.

Lemma sentences_words_le (pieces : list text) :
  (list_sum (map words_in (stripped_nonempty pieces))
   <= list_sum (map solid pieces))%nat.
Proof.
  unfold stripped_nonempty.
  induction pieces as [|p ps IH]; [simpl; lia|].
  simpl. destruct (nonempty (strip p)); simpl; [|lia].
  pose proof (words_in_le_solid (strip p)). rewrite solid_strip in H. lia.
Qed.

Lemma words_le_trimmed_length (t : text) :
  (list_sum (map words_in (sentences t)) <= length (strip t))%nat.
Proof.
  unfold sentences, re_split.
  eapply Nat.le_trans; [apply sentences_words_le|].
  eapply Nat.le_trans; [apply re_split_aux_solid|].
  change (solid []) with 0%nat. simpl. apply solid_le_strip.
Qed.

(** C8. For every text whose sentence list is five sentences of
    fifteen words each, the coefficient of variation is 0, below 0.30,
    which adds 0.6; the share of sentences of 12 to 20 words is 1,
    above 0.6, which adds 0.4; the structure score is 1.0; the text
    passes the length gate and the structure metric of the result is
    100. *)
Theorem uniform_sentences (t : text) :
  map words_in (sentences t) = [15; 15; 15; 15; 15]%nat ->
  let lengths := map words_in (sentences t) in
  coefficient_of_variation lengths = Some 0
  /\ flt 0 (lit 30 100) = true
  /\ add_variation_score 0 (lit 0 1) = lit 6 10
  /\ truediv (count_if is_medium lengths) (length lengths) = Some (lit 1 1)
  /\ flt (lit 6 10) (lit 1 1) = true
  /\ add_medium_score (lit 1 1) (lit 6 10) = fadd (lit 6 10) (lit 4 10)
  /\ fadd (lit 6 10) (lit 4 10) = lit 1 1
  /\ _analyze_structure t = Some (lit 1 1)
  /\ exists a, analyze_text t = Some (Success a)
               /\ structure_score (metrics a) = inject_Z 100.
Proof.
  intro H. cbv zeta.
  assert (Hs : _analyze_structure t = Some (lit 1 1)).
  { unfold _analyze_structure.
    assert (L : length (sentences t) = 5%nat).
    { rewrite <- (length_map words_in), H. reflexivity. }
    rewrite L, H. vm_compute. reflexivity. }
  split; [rewrite H; vm_compute; reflexivity|].
  split; [vm_compute; reflexivity|].
  split; [vm_compute; reflexivity|].
  split; [rewrite H; vm_compute; reflexivity|].
  split; [vm_compute; reflexivity|].
  split; [vm_compute; reflexivity|].
  split; [vm_compute; reflexivity|].
  split; [exact Hs|].
  assert (G : (50 <= length (strip t))%nat).
  { pose proof (words_le_trimmed_length t) as W. rewrite H in W. simpl in W. lia. }
  destruct (analyze_text_returns _ G) as [a Ha]. exists a. split; [exact Ha|].
  destruct (analyze_text_success _ _ Ha)
    as (p & s & v & c & found & avg & unique & _ & Es & _ & _ & _ & _ & _ & _ & ->).
  cbv zeta. cbn [metrics structure_score].
  rewrite Hs in Es. apply some_inj in Es. subst s. vm_compute. reflexivity.
Qed.

Lemma uniform_sentences_witness :
  map words_in (sentences fifteen_words) = [15; 15; 15; 15; 15]%nat
  /\ let lengths := map words_in (sentences fifteen_words) in
  coefficient_of_variation lengths = Some 0
  /\ flt 0 (lit 30 100) = true
  /\ add_variation_score 0 (lit 0 1) = lit 6 10
  /\ truediv (count_if is_medium lengths) (length lengths) = Some (lit 1 1)
  /\ flt (lit 6 10) (lit 1 1) = true
  /\ add_medium_score (lit 1 1) (lit 6 10) = fadd (lit 6 10) (lit 4 10)
  /\ fadd (lit 6 10) (lit 4 10) = lit 1 1
  /\ _analyze_structure fifteen_words = Some (lit 1 1)
  /\ exists a, analyze_text fifteen_words = Some (Success a)
               /\ structure_score (metrics a) = inject_Z 100.
Proof.
  assert (H : map words_in (sentences fifteen_words) = [15; 15; 15; 15; 15]%nat)
    by (vm_compute; reflexivity).
  split; [exact H | apply (uniform_sentences fifteen_words H)].
Defined.

End Structure.

(** ** The repetition analyzer and the opening entry of the reporter *)

Module Repetition.
Import Float Str Re AIDetectionService Notions Examples FloatFacts Totality Gate Reporter.

(** *** Counters *)

Lemma text_eqb_eq (a b : text) : text_eqb a b = true <-> a = b.
Proof.
  revert b. induction a as [|x a IH]; intros [|y b]; simpl;
    try (split; [discriminate | congruence]); [tauto|].
  rewrite andb_true_iff, Ascii.eqb_eq, IH. split.
  - intros [-> ->]. reflexivity.
  - intro H. injection H. auto.
Qed.

Lemma text_eqb_refl (a : text) : text_eqb a a = true.
Proof. apply text_eqb_eq. reflexivity. Qed.

Lemma fold_counter_same (k : text) (l : list text) (m : nat) :
  Forall (fun s => s = k) l ->
  fold_left (fun c s => counter_add s c) l [(k, m)] = [(k, (m + length l)%nat)].
Proof.
  revert m. induction l as [|s l IH]; intros m H; simpl.
  - rewrite Nat.add_0_r. reflexivity.
  - inversion H; subst. rewrite text_eqb_refl, (IH (S m)) by assumption.
    f_equal. f_equal. lia.
Qed.

Lemma Counter_same (k : text) (l : list text) :
  l <> [] -> Forall (fun s => s = k) l -> Counter l = [(k, length l)].
Proof.
  intros Hne H. destruct l as [|s l]; [congruence|].
  inversion H; subst. unfold Counter. simpl.
  rewrite (fold_counter_same k l 1) by assumption. reflexivity.
Qed.

Lemma lookup_add (k k' : text) (c : list (text * nat)) :
  lookup k (counter_add k' c)
  = ((if text_eqb k k' then 1 else 0) + lookup k c)%nat.
Proof.
  unfold lookup. induction c as [|[k0 n] c IH]; simpl.
  - destruct (text_eqb k k'); reflexivity.
  - destruct (text_eqb k' k0) eqn:E; simpl.
    + apply text_eqb_eq in E. subst k0.
      destruct (text_eqb k k'); reflexivity.
    + destruct (text_eqb k k0) eqn:E0; simpl; [|exact IH].
      apply text_eqb_eq in E0. subst k0.
      destruct (text_eqb k k') eqn:E1; [|reflexivity].
      apply text_eqb_eq in E1. subst k'. rewrite text_eqb_refl in E. discriminate E.
Qed.

Lemma lookup_fold (k : text) (l : list text) (c : list (text * nat)) :
  lookup k (fold_left (fun c s => counter_add s c) l c)
  = (lookup k c + occurrences k l)%nat.
Proof.
  revert c. induction l as [|s l IH]; intro c; simpl.
  - unfold occurrences, count_if. simpl. lia.
  - rewrite IH, lookup_add. unfold occurrences, count_if. simpl.
    destruct (text_eqb k s); simpl; lia.
Qed.

Lemma lookup_Counter (k : text) (l : list text) :
  lookup k (Counter l) = occurrences k l.
Proof. unfold Counter. rewrite lookup_fold. reflexivity. Qed.

Lemma lookup_in (k : text) (c : list (text * nat)) :
  (0 < lookup k c)%nat -> In (lookup k c) (values c).
Proof.
  unfold lookup, values. induction c as [|[k0 n] c IH]; simpl; [lia|].
  destruct (text_eqb k k0); simpl; [auto|]. intro H. right. apply IH, H.
Qed.

Lemma count_if_pos {A : Type} (p : A -> bool) (l : list A) (x : A) :
  In x l -> p x = true -> (0 < count_if p l)%nat.
Proof.
  intros Hin Hp. unfold count_if.
  assert (H : In x (filter p l)) by (apply filter_In; auto).
  destruct (filter p l); [contradiction | simpl; lia].
Qed.

Lemma repeated_pos (b : text) (l : list text) :
  (3 <= occurrences b l)%nat ->
  (0 < count_if (fun count => (2 <? count)%nat) (values (Counter l)))%nat.
Proof.
  intro H. rewrite <- lookup_Counter in H.
  apply count_if_pos with (x := lookup b (Counter l)).
  - apply lookup_in. lia.
  - apply Nat.ltb_lt. lia.
Qed.

(** *** The repetition score of sentences with one opener *)

Lemma add_opener_score_same (k : text) (n : nat) :
  (3 <= n)%nat -> add_opener_score [(k, n)] (lit 0 1) = lit 3 10.
Proof.
  intro H. unfold add_opener_score. simpl.
  assert (E : (2 <? n)%nat = true) by (apply Nat.ltb_lt; lia).
  rewrite E. simpl. vm_compute. reflexivity.
Qed.

Lemma add_bigram_score_ge (l : list text) (score : Q) :
  is_float score -> score <= add_bigram_score l score.
Proof.
  intro F. unfold add_bigram_score. destruct l as [|w l]; [apply Qle_refl|].
  destruct (0 <? _)%nat; [|apply Qle_refl].
  unfold is_float in F. rewrite <- F at 1. unfold fadd. apply rnd_le.
  assert (0 <= fmin (fmul (of_nat (count_if (fun count => (2 <? count)%nat)
                                   (values (Counter (w :: l))))) (lit 2 10)) (lit 5 10)).
  { apply fmin_glb; [|qle_const].
    apply fmul_nonneg; [apply of_nat_nonneg | qle_const]. }
  lra.
Qed.

Lemma add_bigram_score_repeated (b : text) (l : list text) :
  (3 <= occurrences b l)%nat ->
  lit 5 10 <= add_bigram_score l (lit 3 10).
Proof.
  intro H. pose proof (repeated_pos b l H) as R.
  unfold add_bigram_score. destruct l as [|w l].
  { unfold occurrences, count_if in H. simpl in H. lia. }
  apply Nat.ltb_lt in R. rewrite R. apply Nat.ltb_lt in R.
  apply Qle_trans with (fadd (lit 3 10) (lit 2 10)); [qle_const|].
  apply fadd_le; [apply Qle_refl|].
  apply fmin_glb; [|qle_const].
  apply Qle_trans with (fmul (of_nat 1) (lit 2 10)); [qle_const|].
  apply fmul_le_r; [qle_const|]. apply of_nat_le. lia.
Qed.

Lemma check_repetition_same_opener (t : text) (k b : text) :
  (3 <= length (sentences t))%nat ->
  Forall (fun s => opener s = k) (sentences t) ->
  lit 3 10 <= _check_repetition t
  /\ ((3 <= occurrences b (bigrams (sentences t)))%nat ->
      lit 5 10 <= _check_repetition t).
Proof.
  intros Hlen Hall. unfold _check_repetition.
  assert (E : (length (sentences t) <? 3)%nat = false) by (apply Nat.ltb_ge; lia).
  rewrite E.
  assert (C : Counter (map opener (sentences t)) = [(k, length (sentences t))]).
  { rewrite <- (length_map opener). apply Counter_same.
    - destruct (sentences t); simpl in *; [lia | congruence].
    - apply Forall_map. exact Hall. }
  rewrite C, add_opener_score_same by exact Hlen. split.
  - apply fmin_glb; [|qle_const]. apply add_bigram_score_ge, is_float_lit.
  - intro H. apply fmin_glb; [|qle_const]. apply (add_bigram_score_repeated b), H.
Qed.

(** *** The opening entry *)

Lemma opening_indicator_same (ss : list text) (k : text) :
  Forall (fun s => opener s = k) ss ->
  opening_indicator ss =
  Some (if (3 <? length ss)%nat then [RepetitiveOpenings k (length ss)] else []).
Proof.
  intro Hall. unfold opening_indicator.
  destruct (3 <? length ss)%nat eqn:E; [|reflexivity].
  apply Nat.ltb_lt in E.
  assert (C : Counter (map opener ss) = [(k, length ss)]).
  { rewrite <- (length_map opener). apply Counter_same.
    - destruct ss; simpl in *; [lia | congruence].
    - apply Forall_map. exact Hall. }
  rewrite C. simpl.
  assert (E2 : (2 <? length ss)%nat = true) by (apply Nat.ltb_lt; lia).
  rewrite E2. reflexivity.
Qed.

Lemma forall_opener (k : text) (ss : list text) :
  forallb (fun s => text_eqb (opener s) k) ss = true ->
  Forall (fun s => opener s = k) ss.
Proof.
  intro H. apply Forall_forall. intros s Hs. apply text_eqb_eq.
  rewrite forallb_forall in H. apply H, Hs.
Qed.

(** C4, as amended.  For every text of trimmed length at least 50
    whose sentences, three or more, all start with "The" and hold a
    bigram three times, the repetition metric is positive (at least
    50); the reporter, which looks at openings only when there are more
    than three sentences, emits no "Repetitive sentence openings" entry
    for three sentences, and for more than three it emits the entry
    that names "the" and the number of sentences. *)
Theorem repetitive_openings (t : text) (bigram : text) :
  (50 <= length (strip t))%nat ->
  (3 <= length (sentences t))%nat ->
  Forall (fun s => opener s = str "the") (sentences t) ->
  (3 <= occurrences bigram (bigrams (sentences t)))%nat ->
  exists a,
    analyze_text t = Some (Success a)
    /\ 0 < repetition_score (metrics a)
    /\ inject_Z 50 <= repetition_score (metrics a)
    /\ (length (sentences t) = 3%nat ->
        forall w n, ~ In (RepetitiveOpenings w n) (indicators a))
    /\ ((3 < length (sentences t))%nat ->
        In (RepetitiveOpenings (str "the") (length (sentences t))) (indicators a)).
Proof.
  intros Hgate Hlen Hall Hbig.
  destruct (analyze_text_returns _ Hgate) as [a Ha]. exists a. split; [exact Ha|].
  destruct (analyze_text_success _ _ Ha)
    as (p & s & v & c & found & avg & unique & _ & _ & _ & _ & Ef & _ & _ & _ & ->).
  cbv zeta. cbn [metrics repetition_score indicators].
  destruct (check_repetition_same_opener t (str "the") bigram Hlen Hall) as [_ Hr].
  specialize (Hr Hbig).
  assert (H50 : inject_Z 50 <= percent (_check_repetition t)).
  { apply Qle_trans with (percent (lit 5 10)); [qle_const | apply percent_le, Hr]. }
  split; [apply Qlt_le_trans with (inject_Z 50); [reflexivity | exact H50]|].
  split; [exact H50|].
  destruct (get_indicators_filter is_opening_entry t found eq_refl Ef)
    as (b4 & n4 & b5 & x5 & b6 & b7 & b8 & w8 & n8 & Eo & F).
  rewrite (opening_indicator_same _ (str "the") Hall) in Eo.
  apply some_inj in Eo.
  cbn [is_opening_entry] in F. rewrite !andb_false_r, andb_true_r in F.
  cbn [when app] in F. rewrite <- Eo in F. split.
  - intros L w n Hin. rewrite L in F. simpl in F.
    assert (Hf : In (RepetitiveOpenings w n) (filter is_opening_entry found)).
    { apply filter_In. split; [exact Hin | reflexivity]. }
    rewrite F in Hf. exact Hf.
  - intro L. apply Nat.ltb_lt in L. rewrite L in F.
    assert (Hf : In (RepetitiveOpenings (str "the") (length (sentences t)))
                    (filter is_opening_entry found)).
    { rewrite F. left. reflexivity. }
    apply filter_In in Hf. apply Hf.
Qed.

Lemma repetitive_openings_witness :
  (50 <= length (strip four_openings))%nat
  /\ (3 <= length (sentences four_openings))%nat
  /\ Forall (fun s => opener s = str "the") (sentences four_openings)
  /\ (3 <= occurrences (str "the cat") (bigrams (sentences four_openings)))%nat
  /\ exists a,
    analyze_text four_openings = Some (Success a)
    /\ 0 < repetition_score (metrics a)
    /\ inject_Z 50 <= repetition_score (metrics a)
    /\ (length (sentences four_openings) = 3%nat ->
        forall w n, ~ In (RepetitiveOpenings w n) (indicators a))
    /\ ((3 < length (sentences four_openings))%nat ->
        In (RepetitiveOpenings (str "the") (length (sentences four_openings))) (indicators a)).
Proof.
  assert (G : (50 <= length (strip four_openings))%nat) by (vm_compute; lia).
  assert (L : (3 <= length (sentences four_openings))%nat) by (vm_compute; lia).
  assert (F : Forall (fun s => opener s = str "the") (sentences four_openings)).
  { apply forall_opener. vm_compute. reflexivity. }
  assert (B : (3 <= occurrences (str "the cat") (bigrams (sentences four_openings)))%nat).
  { vm_compute. lia. }
  split; [exact G|]. split; [exact L|]. split; [exact F|]. split; [exact B|].
  apply (repetitive_openings four_openings (str "the cat") G L F B).
Defined.

(** C4, as stated, fails: three sentences that all start with "The"
    and hold the bigram "the cat" three times get no entry about
    sentence openings. *)
Lemma three_openings_unreported :
  (50 <= length (strip three_openings))%nat
  /\ length (sentences three_openings) = 3%nat
  /\ Forall (fun s => opener s = str "the") (sentences three_openings)
  /\ occurrences (str "the cat") (bigrams (sentences three_openings)) = 3%nat
  /\ exists a,
       analyze_text three_openings = Some (Success a)
       /\ forall w n, ~ In (RepetitiveOpenings w n) (indicators a).
Proof.
  split; [vm_compute; lia|]. split; [vm_compute; reflexivity|].
  split; [apply forall_opener; vm_compute; reflexivity|].
  split; [vm_compute; reflexivity|].
  eexists. split; [vm_compute; reflexivity|].
  intros w n. vm_compute. intros [H | []]. discriminate H.
Qed.

End Repetition.

(** ** The pattern matcher *)

Module Patterns.
Import Float Str Re AIDetectionService Notions Examples FloatFacts Totality Gate Reporter Matching.

Lemma is_float_pattern_contribution (m : nat) : is_float (pattern_contribution m).
Proof. apply is_float_fmin; [apply is_float_rnd | apply is_float_lit]. Qed.

Lemma add_pattern_boost_formula (m : nat) :
  add_pattern_boost m (lit 0 1) = pattern_contribution m.
Proof.
  unfold add_pattern_boost, pattern_contribution. destruct m as [|m].
  - vm_compute. reflexivity.
  - change (0 <? S m)%nat with true. cbv iota.
    change (lit 0 1) with 0. apply fadd_0_l.
    apply is_float_fmin; [apply is_float_rnd | apply is_float_lit].
Qed.

Lemma add_transition_boost_formula (words : list text) (score : Q) :
  is_float score ->
  add_transition_boost words score
  = Some (fadd score (transition_contribution words)).
Proof.
  intro F. unfold add_transition_boost, transition_contribution.
  destruct words as [|w ws].
  - rewrite fadd_0_r by exact F. reflexivity.
  - destruct (transition_ratio (w :: ws)) as [q|] eqn:E.
    + cbn [bind]. destruct (fle (lit 8 100) q); [reflexivity|].
      destruct (fle (lit 5 100) q); [reflexivity|].
      rewrite fadd_0_r by exact F. reflexivity.
    + unfold transition_ratio in E. simpl in E. discriminate E.
Qed.

Lemma check_ai_patterns_formula (t : text) :
  _check_ai_patterns t
  = Some (pattern_score_formula (pattern_matches (lower t)) (split (lower t))).
Proof.
  unfold _check_ai_patterns, pattern_score_formula.
  rewrite add_pattern_boost_formula.
  rewrite add_transition_boost_formula by apply is_float_pattern_contribution.
  reflexivity.
Qed.

Lemma transition_contribution_nonneg (words : list text) :
  0 <= transition_contribution words.
Proof.
  unfold transition_contribution. destruct words as [|w ws]; [apply Qle_refl|].
  destruct (transition_ratio (w :: ws)) as [d|]; [|apply Qle_refl].
  destruct (fle (lit 8 100) d) eqn:E.
  - apply fle_spec in E. apply fmin_glb; [|qle_const].
    apply fmul_nonneg; [|qle_const].
    apply Qle_trans with (lit 8 100); [qle_const | exact E].
  - destruct (fle (lit 5 100) d); [qle_const | apply Qle_refl].
Qed.

Lemma pattern_contribution_ge (m : nat) :
  (1 <= m)%nat -> lit 25 100 <= pattern_contribution m.
Proof.
  intro H. unfold pattern_contribution. apply fmin_glb; [|qle_const].
  apply Qle_trans with (fmul (of_nat 1) (lit 25 100)); [qle_const|].
  apply fmul_le_r; [qle_const | apply of_nat_le, H].
Qed.

Lemma pattern_score_formula_ge (m : nat) (words : list text) :
  (1 <= m)%nat -> lit 25 100 <= pattern_score_formula m words.
Proof.
  intro H. unfold pattern_score_formula. apply fmin_glb; [|qle_const].
  apply Qle_trans with (fadd (lit 25 100) 0); [qle_const|].
  apply fadd_le; [apply pattern_contribution_ge, H | apply transition_contribution_nonneg].
Qed.

(** C3, as amended.  For every text the score of the pattern matcher
    is [min(m * 0.25, 0.8)] plus the transition contribution, clamped
    to 1.0, where [m] is the number of the fourteen patterns of
    [ai_patterns] that match at least once; the transition contribution
    is [min(density * 3, 0.5)] when the density of transition words is
    at least 0.08, a flat 0.2 when it is at least 0.05 and below 0.08,
    and 0 otherwise, also when there is no word. *)
Theorem pattern_score_counts_patterns (t : text) :
  _check_ai_patterns t
  = Some (pattern_score_formula (pattern_matches (lower t)) (split (lower t)))
  /\ pattern_matches (lower t)
     = count_if (fun pattern => search true pattern (lower t)) ai_patterns
  /\ length ai_patterns = 14%nat
  /\ (split (lower t) = [] -> transition_contribution (split (lower t)) = 0).
Proof.
  split; [apply check_ai_patterns_formula|].
  split; [reflexivity|]. split; [reflexivity|].
  intro H. rewrite H. reflexivity.
Qed.

(** C3, as stated, fails: with [m] the number of pattern categories
    that match, a text with "delve into" and "embark on", both of the
    metaphor category, would score 0.25; two patterns match and the
    score is 0.5. *)
Lemma pattern_score_not_by_category :
  _check_ai_patterns two_metaphors = Some (lit 5 10)
  /\ category_matches (lower two_metaphors) = 1%nat
  /\ pattern_score_formula (category_matches (lower two_metaphors))
                           (split (lower two_metaphors)) = lit 25 100
  /\ _check_ai_patterns two_metaphors
     <> Some (pattern_score_formula (category_matches (lower two_metaphors))
                                    (split (lower two_metaphors))).
Proof.
  split; [vm_compute; reflexivity|].
  split; [vm_compute; reflexivity|].
  split; [vm_compute; reflexivity|].
  vm_compute. discriminate.
Qed.

(** Any text that passes the length gate and holds "I'm an AI" but none
    of the other self-reference phrases is counted by the pattern
    matcher and gets no self-reference line from the reporter. *)
Lemma self_reference_gap (t : text) :
  (50 <= length (strip t))%nat ->
  search true (bounded (Lit "I'm an AI")) (lower t) = true ->
  search true (bounded (any_of "as an AI"
                 ["I am an AI"; "language model"; "AI assistant"]%string))
         (lower t) = false ->
  search true pattern_self_reference (lower t) = true
  /\ (1 <= pattern_matches (lower t))%nat
  /\ exists a,
       analyze_text t = Some (Success a)
       /\ inject_Z 25 <= pattern_score (metrics a)
       /\ ~ In SelfReference (indicators a).
Proof.
  intros G H1 H2.
  assert (M : search true pattern_self_reference (lower t) = true).
  { unfold pattern_self_reference. cbn [any_of].
    rewrite !search_bounded_alt, H1. rewrite !orb_true_r. reflexivity. }
  assert (C : (1 <= pattern_matches (lower t))%nat).
  { unfold pattern_matches, ai_patterns, count_if. cbn [filter]. rewrite M.
    simpl. lia. }
  split; [exact M|]. split; [exact C|].
  destruct (analyze_text_returns _ G) as [a Ha]. exists a. split; [exact Ha|].
  destruct (analyze_text_success _ _ Ha)
    as (p & s & v & c & found & avg & unique & Ep & _ & _ & _ & Ef & _ & _ & _ & ->).
  cbv zeta. cbn [metrics pattern_score indicators]. split.
  - rewrite check_ai_patterns_formula in Ep. apply some_inj in Ep. subst p.
    apply Qle_trans with (percent (lit 25 100)); [qle_const|].
    apply percent_le, pattern_score_formula_ge, C.
  - assert (R : search false self_reference_pattern (lower t) = false).
    { destruct (search false self_reference_pattern (lower t)) eqn:E; [|reflexivity].
      apply search_ignorecase in E. unfold self_reference_pattern in E.
      rewrite H2 in E. discriminate E. }
    destruct (get_indicators_filter is_self_reference_entry t found eq_refl Ef)
      as (b4 & n4 & b5 & x5 & b6 & b7 & b8 & w8 & n8 & _ & F).
    rewrite R in F. cbn [is_self_reference_entry] in F.
    rewrite !andb_false_r in F. cbn in F.
    intro Hin.
    assert (Hf : In SelfReference (filter is_self_reference_entry found)).
    { apply filter_In. split; [exact Hin | reflexivity]. }
    rewrite F in Hf. exact Hf.
Qed.

(** C10. There is a text that passes the length gate for which the
    pattern matcher counts the self-reference pattern, raising the
    pattern metric to 25, while the reporter emits no self-reference
    entry; and this holds of every text that passes the gate and holds
    "I'm an AI" but no other self-reference phrase: the pattern of the
    reporter is that of the matcher without the "I'm an AI"
    alternative. *)
Theorem self_reference_unreported :
  (exists t,
     (50 <= length (strip t))%nat
     /\ search true (bounded (Lit "I'm an AI")) (lower t) = true
     /\ search true (bounded (any_of "as an AI"
                       ["I am an AI"; "language model"; "AI assistant"]%string))
               (lower t) = false
     /\ search true pattern_self_reference (lower t) = true
     /\ pattern_matches (lower t) = 1%nat
     /\ exists a,
          analyze_text t = Some (Success a)
          /\ pattern_score (metrics a) = inject_Z 25
          /\ ~ In SelfReference (indicators a))
  /\ (forall t,
        (50 <= length (strip t))%nat ->
        search true (bounded (Lit "I'm an AI")) (lower t) = true ->
        search true (bounded (any_of "as an AI"
                       ["I am an AI"; "language model"; "AI assistant"]%string))
               (lower t) = false ->
        search true pattern_self_reference (lower t) = true
        /\ (1 <= pattern_matches (lower t))%nat
        /\ exists a,
             analyze_text t = Some (Success a)
             /\ inject_Z 25 <= pattern_score (metrics a)
             /\ ~ In SelfReference (indicators a))
  /\ pattern_self_reference
     = bounded (any_of "as an AI"
                  ["I am an AI"; "I'm an AI"; "language model"; "AI assistant"]%string)
  /\ self_reference_pattern
     = bounded (any_of "as an AI"
                  ["I am an AI"; "language model"; "AI assistant"]%string).
Proof.
  split; [|split; [exact self_reference_gap | split; reflexivity]].
  exists self_introduction.
  split; [vm_compute; lia|].
  split; [vm_compute; reflexivity|].
  split; [vm_compute; reflexivity|].
  split; [vm_compute; reflexivity|].
  split; [vm_compute; reflexivity|].
  eexists. split; [vm_compute; reflexivity|].
  split; [vm_compute; reflexivity|].
  vm_compute. intros [H | []]. discriminate H.
Qed.

End Patterns.

(** ** The statistics block *)

Module Stats.
Import Float Str Re AIDetectionService Notions Examples FloatFacts Totality Gate.

Lemma statistics_block (t : text) (a : Analysis) :
  analyze_text t = Some (Success a) ->
  sentence_count (statistics a) = length (re_split t)
  /\ Some (avg_sentence_length (statistics a)) =
     match sentences t with
     | [] => Some 0
     | _ :: _ =>
         mean <- truediv (sum_nat (map words_in (sentences t))) (length (sentences t)) ;;
         Some (round_nd mean 2)
     end.
Proof.
  intro H. destruct (analyze_text_success _ _ H)
    as (p & s & v & c & found & avg & unique & _ & _ & _ & _ & _ & Ea & _ & _ & ->).
  cbv zeta. cbn [statistics sentence_count avg_sentence_length].
  split; [reflexivity|]. rewrite <- Ea. reflexivity.
Qed.

(** C2 at a text of one sentence that ends with a period: the
    statistics count two sentences, the sentence and the empty piece
    after the period, while the sentence list has one entry; the
    average sentence length is that of the sentence list. *)
Theorem sentence_count_trailing_piece :
  (50 <= length (strip one_sentence))%nat
  /\ length (sentences one_sentence) = 1%nat
  /\ exists a,
       analyze_text one_sentence = Some (Success a)
       /\ sentence_count (statistics a) = 2%nat
       /\ avg_sentence_length (statistics a) = inject_Z 13.
Proof.
  split; [vm_compute; lia|]. split; [vm_compute; reflexivity|].
  eexists. split; [vm_compute; reflexivity|].
  split; vm_compute; reflexivity.
Qed.

End Stats.

(** ** Ranges of the scores *)

Module Ranges.
Import Float Str Re AIDetectionService Notions Examples Lines Texts FloatFacts Totality Gate.
Import Reporter Matching Bounds Aggregation Patterns Repetition Structure.

Lemma pattern_score_formula_nonneg (m : nat) (words : list text) :
  0 <= pattern_score_formula m words.
Proof.
  unfold pattern_score_formula, pattern_contribution.
  apply fmin_glb; [|qle_const]. apply fadd_nonneg.
  - apply fmin_glb; [|qle_const]. apply fmul_nonneg; [apply of_nat_nonneg | qle_const].
  - apply transition_contribution_nonneg.
Qed.

Lemma check_ai_patterns_nonneg (t : text) (p : Q) :
  _check_ai_patterns t = Some p -> 0 <= p.
Proof.
  rewrite check_ai_patterns_formula. intro H. apply some_inj in H. subst p.
  apply pattern_score_formula_nonneg.
Qed.

(** The structure score is never below 0.1. *)
Lemma structure_of_lengths_ge (lengths : list nat) (s : Q) :
  structure_of_lengths lengths = Some s -> lit 1 10 <= s.
Proof.
  unfold structure_of_lengths. intro H.
  apply bind_some in H. destruct H as (cv & _ & H).
  apply bind_some in H. destruct H as (r & _ & H).
  apply some_inj in H. subst s.
  unfold add_variation_score, add_medium_score.
  destruct (flt cv (lit 30 100)); [|destruct (flt cv (lit 40 100))];
    (destruct (flt (lit 6 10) r); [|destruct (flt (lit 4 10) r)]); qle_const.
Qed.

Lemma analyze_structure_ge (t : text) (s : Q) :
  _analyze_structure t = Some s -> lit 1 10 <= s.
Proof.
  unfold _analyze_structure. destruct (_ <? _)%nat; intro H.
  - apply some_inj in H. subst s. qle_const.
  - apply (structure_of_lengths_ge _ _ H).
Qed.

Lemma analyze_vocabulary_nonneg (t : text) (v : Q) :
  _analyze_vocabulary t = Some v -> 0 <= v.
Proof.
  unfold _analyze_vocabulary. destruct (_ <? _)%nat; intro H.
  - apply some_inj in H. subst v. qle_const.
  - apply bind_some in H. destruct H as (d & _ & H).
    apply bind_some in H. destruct H as (b & _ & H).
    apply bind_some in H. destruct H as (f & _ & H).
    apply some_inj in H. subst v.
    unfold add_buzzword_score, add_formal_score, add_diversity_score.
    destruct (flt (lit 3 100) b);
      [|destruct (flt (lit 2 100) b); [|destruct (flt (lit 1 100) b)]];
      (destruct (flt (lit 4 100) f); [|destruct (flt (lit 2 100) f)]);
      destruct (fle (lit 45 100) d && fle d (lit 65 100)); qle_const.
Qed.

Lemma analyze_consistency_nonneg (t : text) (c : Q) :
  _analyze_consistency t = Some c -> 0 <= c.
Proof.
  unfold _analyze_consistency. intro H.
  apply bind_some in H. destruct H as (r & _ & H).
  apply bind_some in H. destruct H as (s & Hs & H).
  apply some_inj in H. subst c.
  unfold add_paragraph_score in Hs. unfold add_punctuation_score in Hs.
  destruct (1 <? length (paragraphs t))%nat.
  - apply bind_some in Hs. destruct Hs as (cv & _ & Hs).
    destruct (fle (lit 8 100) r && fle r (lit 15 100));
      [|destruct (fle (lit 5 100) r && fle r (lit 18 100))];
      (destruct (flt cv (lit 25 100)); [|destruct (flt cv (lit 40 100))]);
      apply some_inj in Hs; subst s; qle_const.
  - destruct (fle (lit 8 100) r && fle r (lit 15 100));
      [|destruct (fle (lit 5 100) r && fle r (lit 18 100))];
      apply some_inj in Hs; subst s; qle_const.
Qed.

Lemma check_repetition_nonneg (t : text) : 0 <= _check_repetition t.
Proof.
  unfold _check_repetition. destruct (_ <? _)%nat; [qle_const|].
  apply fmin_glb; [|qle_const].
  assert (H0 : 0 <= add_opener_score (Counter (map opener (sentences t))) (lit 0 1)).
  { unfold add_opener_score. destruct (existsb _ _); qle_const. }
  revert H0. generalize (add_opener_score (Counter (map opener (sentences t))) (lit 0 1)).
  intros s Hs. unfold add_bigram_score.
  destruct (bigrams (sentences t)); [exact Hs|].
  destruct (0 <? _)%nat; [|exact Hs].
  apply fadd_nonneg; [exact Hs|].
  apply fmin_glb; [|qle_const]. apply fmul_nonneg; [apply of_nat_nonneg | qle_const].
Qed.

(** X1. Every metric of a result lies between 0 and 100, the structure
    metric is at least 10, the repetition metric at most 80, and the
    probability lies between 2 and 99. *)
Theorem metrics_in_range (t : text) :
  (50 <= length (strip t))%nat ->
  exists a,
    analyze_text t = Some (Success a)
    /\ (0 <= pattern_score (metrics a) /\ pattern_score (metrics a) <= inject_Z 100)
    /\ (0 <= vocabulary_score (metrics a) /\ vocabulary_score (metrics a) <= inject_Z 100)
    /\ (inject_Z 10 <= structure_score (metrics a)
        /\ structure_score (metrics a) <= inject_Z 100)
    /\ (0 <= consistency_score (metrics a)
        /\ consistency_score (metrics a) <= inject_Z 100)
    /\ (0 <= repetition_score (metrics a) /\ repetition_score (metrics a) <= inject_Z 80)
    /\ (inject_Z 2 <= ai_probability a /\ ai_probability a <= inject_Z 99).
Proof.
  intro G. destruct (analyze_text_returns _ G) as [a H]. exists a.
  split; [exact H|].
  destruct (analyze_text_success _ _ H)
    as (p & s & v & c & found & avg & unique & Ep & Es & Ev & Ec & _ & _ & _ & _ & ->).
  cbv zeta.
  cbn [ai_probability metrics pattern_score vocabulary_score structure_score
       consistency_score repetition_score].
  pose proof (check_ai_patterns_nonneg _ _ Ep) as P0.
  pose proof (check_ai_patterns_le_1 _ _ Ep) as P1.
  pose proof (analyze_vocabulary_nonneg _ _ Ev) as V0.
  pose proof (analyze_vocabulary_le_1 _ _ Ev) as V1.
  pose proof (analyze_structure_ge _ _ Es) as S0.
  pose proof (analyze_structure_le_1 _ _ Es) as S1.
  pose proof (analyze_consistency_nonneg _ _ Ec) as C0.
  pose proof (analyze_consistency_le_1 _ _ Ec) as C1.
  pose proof (check_repetition_nonneg t) as R0.
  pose proof (check_repetition_le t) as R1.
  assert (lo : forall x, 0 <= x -> 0 <= percent x).
  { intros x Hx. apply Qle_trans with (percent 0); [qle_const | apply percent_le, Hx]. }
  assert (hi : forall x, x <= lit 1 1 -> percent x <= inject_Z 100).
  { intros x Hx. apply Qle_trans with (percent (lit 1 1)); [apply percent_le, Hx | qle_const]. }
  split; [split; [apply lo, P0 | apply hi, P1]|].
  split; [split; [apply lo, V0 | apply hi, V1]|].
  split; [split; [|apply hi, S1]|].
  { apply Qle_trans with (percent (lit 1 10)); [qle_const | apply percent_le, S0]. }
  split; [split; [apply lo, C0 | apply hi, C1]|].
  split; [split; [apply lo, R0|]|].
  { apply Qle_trans with (percent (lit 8 10)); [apply percent_le, R1 | qle_const]. }
  split.
  - apply Qle_trans with (percent (overall 0 0 (lit 1 10) 0 0)); [qle_const|].
    apply percent_le, overall_le; assumption.
  - apply Qle_trans with (percent (overall (lit 1 1) (lit 1 1) (lit 1 1) (lit 1 1) (lit 8 10)));
      [|qle_const].
    apply percent_le, overall_le; assumption.
Qed.

Lemma metrics_in_range_witness :
  (50 <= length (strip self_introduction))%nat
  /\ exists a,
    analyze_text self_introduction = Some (Success a)
    /\ (0 <= pattern_score (metrics a) /\ pattern_score (metrics a) <= inject_Z 100)
    /\ (0 <= vocabulary_score (metrics a) /\ vocabulary_score (metrics a) <= inject_Z 100)
    /\ (inject_Z 10 <= structure_score (metrics a)
        /\ structure_score (metrics a) <= inject_Z 100)
    /\ (0 <= consistency_score (metrics a)
        /\ consistency_score (metrics a) <= inject_Z 100)
    /\ (0 <= repetition_score (metrics a) /\ repetition_score (metrics a) <= inject_Z 80)
    /\ (inject_Z 2 <= ai_probability a /\ ai_probability a <= inject_Z 99).
Proof.
  assert (G : (50 <= length (strip self_introduction))%nat) by (vm_compute; lia).
  split; [exact G | apply (metrics_in_range self_introduction G)].
Defined.

End Ranges.

(** ** The band and the reported probability *)

Module BandNumbers.
Import Float Str Re AIDetectionService Notions Examples Lines Texts FloatFacts Totality Gate.
Import Reporter Matching Bounds Aggregation Patterns Repetition Structure.

(** X2. The band agrees with the number shown beside it: High comes with a
    probability of at least 55, Medium with one from 35 to 55, Low with
    one from 20 to 35 and VeryLow with one of at most 20. *)
Theorem band_matches_probability (t : text) :
  (50 <= length (strip t))%nat ->
  exists a,
    analyze_text t = Some (Success a)
    /\ (likelihood a = High -> inject_Z 55 <= ai_probability a)
    /\ (likelihood a = Medium ->
        inject_Z 35 <= ai_probability a /\ ai_probability a <= inject_Z 55)
    /\ (likelihood a = Low ->
        inject_Z 20 <= ai_probability a /\ ai_probability a <= inject_Z 35)
    /\ (likelihood a = VeryLow -> ai_probability a <= inject_Z 20).
Proof.
  intro G. destruct (analyze_text_returns _ G) as [a H]. exists a.
  split; [exact H|].
  destruct (overall_score_some _ _ H) as (o & _ & -> & -> & _).
  destruct (confidence_spec o) as (S1 & S2 & S3 & S4).
  assert (up : forall n d k, percent (lit n d) = inject_Z k -> lit n d <= o ->
                             inject_Z k <= percent o).
  { intros n d k E L. rewrite <- E. apply percent_le, L. }
  assert (down : forall n d k, percent (lit n d) = inject_Z k -> o < lit n d ->
                               percent o <= inject_Z k).
  { intros n d k E L. rewrite <- E. apply percent_le. lra. }
  assert (E55 : percent (lit 55 100) = inject_Z 55) by (vm_compute; reflexivity).
  assert (E35 : percent (lit 35 100) = inject_Z 35) by (vm_compute; reflexivity).
  assert (E20 : percent (lit 20 100) = inject_Z 20) by (vm_compute; reflexivity).
  split; [intro B; apply (up _ _ _ E55), S1, B|].
  split; [intro B; apply S2 in B; destruct B;
          split; [apply (up _ _ _ E35) | apply (down _ _ _ E55)]; assumption|].
  split; [intro B; apply S3 in B; destruct B;
          split; [apply (up _ _ _ E20) | apply (down _ _ _ E35)]; assumption|].
  intro B. apply (down _ _ _ E20), S4, B.
Qed.

Lemma band_matches_probability_witness :
  (50 <= length (strip four_openings))%nat
  /\ exists a,
    analyze_text four_openings = Some (Success a)
    /\ (likelihood a = High -> inject_Z 55 <= ai_probability a)
    /\ (likelihood a = Medium ->
        inject_Z 35 <= ai_probability a /\ ai_probability a <= inject_Z 55)
    /\ (likelihood a = Low ->
        inject_Z 20 <= ai_probability a /\ ai_probability a <= inject_Z 35)
    /\ (likelihood a = VeryLow -> ai_probability a <= inject_Z 20).
Proof.
  assert (G : (50 <= length (strip four_openings))%nat) by (vm_compute; lia).
  split; [exact G | apply (band_matches_probability four_openings G)].
Defined.

End BandNumbers.

(** ** The list of the reporter *)

Module ReporterList.
Import Float Str Re AIDetectionService Notions Examples Lines Texts FloatFacts Totality Gate.
Import Reporter Matching Bounds Aggregation Patterns Repetition Structure.

(** The eight blocks of [_get_indicators] and the list built of them. *)
Lemma get_indicators_blocks (t : text) (found : list indicator) :
  _get_indicators t = Some found ->
  exists b4 n4 b5 x5 b6 b7 b8 w8 n8,
    buzzword_indicator (split (lower t)) = Some (when b4 (Buzzwords n4))
    /\ transition_indicator (split (lower t)) = Some (when b5 (TransitionWords x5))
    /\ structure_indicator (sentences t) = Some (when b6 ConsistentStructure)
    /\ paragraph_indicator (paragraphs t) = Some (when b7 BalancedParagraphs)
    /\ opening_indicator (sentences t) = Some (when b8 (RepetitiveOpenings w8 n8))
    /\ let lines :=
         when (search false self_reference_pattern (lower t)) SelfReference
         ++ when (search false hedging_pattern (lower t)) HedgingPhrases
         ++ when (search false metaphor_pattern (lower t)) MetaphoricalLanguage
         ++ when b4 (Buzzwords n4)
         ++ when b5 (TransitionWords x5)
         ++ when b6 ConsistentStructure
         ++ when b7 BalancedParagraphs
         ++ when b8 (RepetitiveOpenings w8 n8) in
       found = match lines with [] => [NoStrongIndicators] | _ :: _ => lines end.
Proof.
  intro H. unfold _get_indicators in H.
  apply bind_some in H. destruct H as (l1 & E1 & H).
  apply bind_some in H. destruct H as (l2 & E2 & H).
  apply bind_some in H. destruct H as (l3 & E3 & H).
  apply bind_some in H. destruct H as (l4 & E4 & H).
  apply bind_some in H. destruct H as (l5 & E5 & H).
  destruct (buzzword_indicator_shape _ _ E1) as (b4 & n4 & ->).
  destruct (transition_indicator_shape _ _ E2) as (b5 & x5 & ->).
  destruct (structure_indicator_shape _ _ E3) as (b6 & ->).
  destruct (paragraph_indicator_shape _ _ E4) as (b7 & ->).
  destruct (opening_indicator_shape _ _ E5) as (b8 & w8 & n8 & ->).
  exists b4, n4, b5, x5, b6, b7, b8, w8, n8.
  do 5 (split; [assumption|]). cbv zeta.
  rewrite !app_assoc.
  match type of H with
  | match ?raw with _ => _ end = _ => destruct raw eqn:R
  end; apply some_inj in H; subst found; reflexivity.
Qed.

(** X3. The list of the reporter is never empty; the fallback line stands
    alone; the other lines come in the order of the checks, each kind
    at most once. *)
Theorem indicators_ordered (t : text) :
  exists found,
    _get_indicators t = Some found
    /\ found <> []
    /\ (In NoStrongIndicators found -> found = [NoStrongIndicators])
    /\ StronglySorted lt (map line_rank found).
Proof.
  destruct (get_indicators_some t) as [found H]. exists found. split; [exact H|].
  destruct (get_indicators_blocks _ _ H)
    as (b4 & n4 & b5 & x5 & b6 & b7 & b8 & w8 & n8 & _ & _ & _ & _ & _ & E).
  cbv zeta in E. subst found.
  destruct (search false self_reference_pattern (lower t)),
           (search false hedging_pattern (lower t)),
           (search false metaphor_pattern (lower t)),
           b4, b5, b6, b7, b8; cbn [when app map line_rank];
    (split; [discriminate|]);
    (split; [cbn [In]; intro K; try reflexivity;
             repeat (destruct K as [K | K]; [discriminate K|]); destruct K|]);
    repeat (apply SSorted_cons; [|repeat (apply Forall_cons; [lia|]); apply Forall_nil]);
    apply SSorted_nil.
Qed.

End ReporterList.

(** ** The reporter and letter case *)

Module ReporterCase.
Import Float Str Re AIDetectionService Notions Examples Lines Texts FloatFacts Totality Gate.
Import Reporter Matching Bounds Aggregation Patterns Repetition Structure ReporterList.

Lemma lower_char_idem (c : ascii) : lower_char (lower_char c) = lower_char c.
Proof. destruct c as [[] [] [] [] [] [] [] []]; reflexivity. Qed.

Lemma lower_fixed (t : text) : Forall (fun c => lower_char c = c) (lower t).
Proof.
  unfold lower. apply Forall_forall. intros c H. apply in_map_iff in H.
  destruct H as (u & <- & _). apply lower_char_idem.
Qed.

(** A literal that matches with regard to case is a prefix of the
    subject. *)
Lemma lit_end_prefix (l : text) (prev : option ascii) (s : text) (q : position) :
  lit_end false l prev s = Some q -> exists rest, s = l ++ rest.
Proof.
  revert prev s. induction l as [|c l IH]; intros prev s H.
  - exists s. reflexivity.
  - cbn [lit_end] in H. destruct s as [|u s]; [discriminate H|].
    unfold char_match in H. destruct (Ascii.eqb c u) eqn:E; [|discriminate H].
    apply Ascii.eqb_eq in E. subst u.
    destruct (IH _ _ H) as [rest ->]. exists rest. reflexivity.
Qed.

(** A literal with a capital is not found, with regard to case, in a
    subject without capitals. *)
Lemma lit_end_capital (l : text) (prev : option ascii) (s : text) :
  Forall (fun c => lower_char c = c) s ->
  existsb (fun c => negb (Ascii.eqb (lower_char c) c)) l = true ->
  lit_end false l prev s = None.
Proof.
  intros Hs Hl. destruct (lit_end false l prev s) as [q|] eqn:E; [|reflexivity].
  destruct (lit_end_prefix _ _ _ _ E) as [rest ->].
  apply existsb_exists in Hl. destruct Hl as (c & Hc & Hn).
  rewrite Forall_forall in Hs. rewrite (Hs c) in Hn.
  - rewrite Ascii.eqb_refl in Hn. discriminate Hn.
  - apply in_or_app. left. exact Hc.
Qed.

Lemma ends_bounded_lit (ic : bool) (l : string) (p : position) :
  ends ic (bounded (Lit l)) p
  = if at_boundary p then
      match lit_end ic (str l) (fst p) (snd p) with
      | Some q => if at_boundary q then [q] else []
      | None => []
      end
    else [].
Proof.
  unfold bounded. cbn [ends]. destruct (at_boundary p); [|reflexivity].
  cbn [flat_map]. rewrite app_nil_r.
  destruct (lit_end ic (str l) (fst p) (snd p)) as [q|]; [|reflexivity].
  cbn [flat_map]. rewrite app_nil_r. reflexivity.
Qed.

Lemma matches_at_capital (l : string) (prev : option ascii) (s : text) :
  Forall (fun c => lower_char c = c) s ->
  existsb (fun c => negb (Ascii.eqb (lower_char c) c)) (str l) = true ->
  matches_at false (bounded (Lit l)) (prev, s) = false.
Proof.
  intros Hs Hl. unfold matches_at. rewrite ends_bounded_lit. cbn [fst snd].
  rewrite (lit_end_capital (str l) prev s Hs Hl).
  destruct (at_boundary (prev, s)); reflexivity.
Qed.

Lemma search_from_capital (l : string) (prev : option ascii) (s : text) :
  Forall (fun c => lower_char c = c) s ->
  existsb (fun c => negb (Ascii.eqb (lower_char c) c)) (str l) = true ->
  search_from false (bounded (Lit l)) prev s = false.
Proof.
  intros Hs Hl. revert prev. induction Hs as [|c s Hc Hs IH]; intro prev.
  - cbn [search_from]. rewrite matches_at_capital by auto using Forall_nil.
    reflexivity.
  - cbn [search_from]. rewrite IH, orb_false_r.
    apply matches_at_capital; auto using Forall_cons.
Qed.

(** The reporter searches the lowered text with regard to case, so of
    its four self-reference phrases only "language model", the one
    without a capital, can be found. *)
Lemma self_reference_search (t : text) :
  search false self_reference_pattern (lower t)
  = search false (bounded (Lit "language model")) (lower t).
Proof.
  unfold self_reference_pattern. cbn [any_of].
  rewrite !search_bounded_alt. unfold search.
  rewrite (search_from_capital "as an AI"), (search_from_capital "I am an AI"),
    (search_from_capital "AI assistant");
    try apply lower_fixed; try reflexivity.
  rewrite orb_false_r. reflexivity.
Qed.

(** X4. The self-reference line is emitted exactly when the lowered text
    holds "language model" between word boundaries: "as an AI",
    "I am an AI" and "AI assistant" alone never produce it, although
    the pattern matcher counts them. *)
Theorem self_reference_line (t : text) :
  exists found,
    _get_indicators t = Some found
    /\ (In SelfReference found
        <-> search false (bounded (Lit "language model")) (lower t) = true)
    /\ (search false (bounded (Lit "language model")) (lower t) = true ->
        search true pattern_self_reference (lower t) = true).
Proof.
  destruct (get_indicators_some t) as [found H]. exists found. split; [exact H|].
  split.
  - destruct (get_indicators_filter is_self_reference_entry t found eq_refl H)
      as (b4 & n4 & b5 & x5 & b6 & b7 & b8 & w8 & n8 & _ & F).
    cbn [is_self_reference_entry] in F. rewrite !andb_false_r, andb_true_r in F.
    cbn [when app] in F. rewrite app_nil_r in F.
    rewrite self_reference_search in F.
    assert (K : In SelfReference found
                <-> In SelfReference (filter is_self_reference_entry found)).
    { rewrite filter_In. cbn. tauto. }
    rewrite K, F. destruct (search false (bounded (Lit "language model")) (lower t));
      cbn; intuition discriminate.
  - intro L. apply search_ignorecase in L.
    unfold pattern_self_reference. cbn [any_of].
    rewrite !search_bounded_alt, L. rewrite !orb_true_r. reflexivity.
Qed.

End ReporterCase.

(** ** Lines of the reporter and scores of the analyzers *)

Module LinesAndScores.
Import Float Str Re AIDetectionService Notions Examples Lines Texts FloatFacts Totality Gate.
Import Reporter Matching Bounds Aggregation Patterns Repetition Structure ReporterList.

Lemma in_when (x y : indicator) (b : bool) : In x (when b y) -> b = true /\ y = x.
Proof. destruct b; simpl; [intros [H | []]; auto | intros []]. Qed.

(** A line other than the fallback line comes from one of the blocks. *)
Lemma in_lines (x : indicator) (lines : list indicator) :
  x <> NoStrongIndicators ->
  In x (match lines with [] => [NoStrongIndicators] | _ :: _ => lines end) ->
  In x lines.
Proof.
  intros Hx H. destruct lines; [|exact H].
  destruct H as [H | []]. congruence.
Qed.

Lemma structure_line_block (t : text) (found : list indicator) :
  _get_indicators t = Some found -> In ConsistentStructure found ->
  structure_indicator (sentences t) = Some [ConsistentStructure].
Proof.
  intros H Hin. destruct (get_indicators_blocks _ _ H)
    as (b4 & n4 & b5 & x5 & b6 & b7 & b8 & w8 & n8 & _ & _ & E6 & _ & _ & E).
  cbv zeta in E. rewrite E in Hin. apply in_lines in Hin; [|discriminate].
  rewrite !in_app_iff in Hin.
  destruct Hin as [K | [K | [K | [K | [K | [K | [K | K]]]]]]];
    apply in_when in K; destruct K as [Kb Ki]; try discriminate Ki.
  subst b6. exact E6.
Qed.

Lemma opening_line_block (t : text) (found : list indicator) (w : text) (n : nat) :
  _get_indicators t = Some found -> In (RepetitiveOpenings w n) found ->
  opening_indicator (sentences t) = Some [RepetitiveOpenings w n].
Proof.
  intros H Hin. destruct (get_indicators_blocks _ _ H)
    as (b4 & n4 & b5 & x5 & b6 & b7 & b8 & w8 & n8 & _ & _ & _ & _ & E8 & E).
  cbv zeta in E. rewrite E in Hin. apply in_lines in Hin; [|discriminate].
  rewrite !in_app_iff in Hin.
  destruct Hin as [K | [K | [K | [K | [K | [K | [K | K]]]]]]];
    apply in_when in K; destruct K as [Kb Ki]; try discriminate Ki.
  subst b8. rewrite Ki in E8. exact E8.
Qed.

Lemma transition_line_block (t : text) (found : list indicator) (x : Q) :
  _get_indicators t = Some found -> In (TransitionWords x) found ->
  transition_indicator (split (lower t)) = Some [TransitionWords x].
Proof.
  intros H Hin. destruct (get_indicators_blocks _ _ H)
    as (b4 & n4 & b5 & x5 & b6 & b7 & b8 & w8 & n8 & _ & E5 & _ & _ & _ & E).
  cbv zeta in E. rewrite E in Hin. apply in_lines in Hin; [|discriminate].
  rewrite !in_app_iff in Hin.
  destruct Hin as [K | [K | [K | [K | [K | [K | [K | K]]]]]]];
    apply in_when in K; destruct K as [Kb Ki]; try discriminate Ki.
  subst b5. rewrite Ki in E5. exact E5.
Qed.

Lemma when_single (b : bool) (x y : indicator) : when b x = [y] -> b = true /\ x = y.
Proof. destruct b; simpl; intro H; [|discriminate H]. injection H. auto. Qed.

(** *** The structure line *)

Lemma structure_indicator_fires (ss : list text) :
  structure_indicator ss = Some [ConsistentStructure] ->
  (2 < length ss)%nat
  /\ exists cv, coefficient_of_variation (map words_in ss) = Some cv
                /\ flt cv (lit 30 100) = true.
Proof.
  unfold structure_indicator. destruct (2 <? length ss)%nat eqn:L; intro H.
  - apply Nat.ltb_lt in L. split; [exact L|].
    apply bind_some in H. destruct H as (cv & Ecv & H).
    apply some_inj in H. apply when_single in H. exists cv. tauto.
  - apply some_inj in H. discriminate H.
Qed.

Lemma structure_of_lengths_consistent (lengths : list nat) (cv s : Q) :
  coefficient_of_variation lengths = Some cv -> flt cv (lit 30 100) = true ->
  structure_of_lengths lengths = Some s -> lit 6 10 <= s.
Proof.
  intros Ecv F. unfold structure_of_lengths. rewrite Ecv. cbn [bind]. intro H.
  apply bind_some in H. destruct H as (r & _ & H). apply some_inj in H. subst s.
  unfold add_variation_score. rewrite F. unfold add_medium_score.
  destruct (flt (lit 6 10) r); [|destruct (flt (lit 4 10) r)]; qle_const.
Qed.

(** X7. When the reporter says that the sentence structure is unnaturally
    consistent, the structure metric is at least 60. *)
Theorem structure_line_score (t : text) :
  (50 <= length (strip t))%nat ->
  exists a,
    analyze_text t = Some (Success a)
    /\ (In ConsistentStructure (indicators a) ->
        inject_Z 60 <= structure_score (metrics a)).
Proof.
  intro G. destruct (analyze_text_returns _ G) as [a H]. exists a.
  split; [exact H|].
  destruct (analyze_text_success _ _ H)
    as (p & s & v & c & found & avg & unique & _ & Es & _ & _ & Ef & _ & _ & _ & ->).
  cbv zeta. cbn [indicators metrics structure_score]. intro Hin.
  destruct (structure_indicator_fires _ (structure_line_block _ _ Ef Hin))
    as (L & cv & Ecv & F).
  unfold _analyze_structure in Es.
  assert (L2 : (length (sentences t) <? 2)%nat = false) by (apply Nat.ltb_ge; lia).
  rewrite L2 in Es.
  apply Qle_trans with (percent (lit 6 10)); [qle_const|].
  apply percent_le, (structure_of_lengths_consistent _ _ _ Ecv F Es).
Qed.

Lemma structure_line_score_witness :
  (50 <= length (strip four_openings))%nat
  /\ exists a,
    analyze_text four_openings = Some (Success a)
    /\ (In ConsistentStructure (indicators a) ->
        inject_Z 60 <= structure_score (metrics a)).
Proof.
  assert (G : (50 <= length (strip four_openings))%nat) by (vm_compute; lia).
  split; [exact G | apply (structure_line_score four_openings G)].
Defined.

(** *** The transition line *)

Lemma transition_indicator_fires (ws : list text) (x : Q) :
  transition_indicator ws = Some [TransitionWords x] ->
  ws <> []
  /\ exists d, transition_ratio ws = Some d /\ flt (lit 7 100) d = true
               /\ x = round_nd (fmul d (of_nat 100)) 1.
Proof.
  unfold transition_indicator. destruct ws as [|w ws]; intro H.
  - apply some_inj in H. discriminate H.
  - split; [discriminate|].
    apply bind_some in H. destruct H as (d & Ed & H).
    apply some_inj in H. apply when_single in H. destruct H as [F Ex].
    exists d. split; [exact Ed|]. split; [exact F|]. injection Ex. auto.
Qed.

Lemma transition_contribution_fires (ws : list text) (d : Q) :
  ws <> [] -> transition_ratio ws = Some d -> flt (lit 7 100) d = true ->
  lit 2 10 <= transition_contribution ws.
Proof.
  intros Hne Ed F. unfold transition_contribution.
  destruct ws as [|w ws]; [congruence|]. rewrite Ed.
  apply flt_spec in F.
  destruct (fle (lit 8 100) d) eqn:E8.
  - apply fle_spec in E8. apply fmin_glb; [|qle_const].
    apply Qle_trans with (fmul (lit 8 100) (of_nat 3)); [qle_const|].
    apply fmul_le_r; [qle_const | exact E8].
  - destruct (fle (lit 5 100) d) eqn:E5; [apply Qle_refl|].
    apply fle_false in E5.
    assert (lit 5 100 <= lit 7 100) by qle_const. lra.
Qed.

(** X6. When the reporter says that formal transition words are excessive
    (a density above 0.07), the pattern metric is at least 20, and the
    percentage shown is the density times 100 rounded to one decimal. *)
Theorem transition_line_score (t : text) :
  (50 <= length (strip t))%nat ->
  exists a,
    analyze_text t = Some (Success a)
    /\ forall x, In (TransitionWords x) (indicators a) ->
         inject_Z 20 <= pattern_score (metrics a)
         /\ exists d, transition_ratio (split (lower t)) = Some d
                      /\ lit 7 100 < d
                      /\ x = round_nd (fmul d (of_nat 100)) 1.
Proof.
  intro G. destruct (analyze_text_returns _ G) as [a H]. exists a.
  split; [exact H|].
  destruct (analyze_text_success _ _ H)
    as (p & s & v & c & found & avg & unique & Ep & _ & _ & _ & Ef & _ & _ & _ & ->).
  cbv zeta. cbn [indicators metrics pattern_score]. intros x Hin.
  destruct (transition_indicator_fires _ _ (transition_line_block _ _ _ Ef Hin))
    as (Hne & d & Ed & F & Ex).
  split.
  - rewrite check_ai_patterns_formula in Ep. apply some_inj in Ep. subst p.
    apply Qle_trans with (percent (lit 2 10)); [qle_const|].
    apply percent_le. unfold pattern_score_formula.
    apply fmin_glb; [|qle_const].
    apply Qle_trans with (fadd 0 (lit 2 10)); [qle_const|].
    apply fadd_le; [|apply (transition_contribution_fires _ _ Hne Ed F)].
    unfold pattern_contribution. apply fmin_glb; [|qle_const].
    apply fmul_nonneg; [apply of_nat_nonneg | qle_const].
  - exists d. split; [exact Ed|]. split; [apply flt_spec, F | exact Ex].
Qed.

Lemma transition_line_score_witness :
  (50 <= length (strip many_transitions))%nat
  /\ exists a,
    analyze_text many_transitions = Some (Success a)
    /\ forall x, In (TransitionWords x) (indicators a) ->
         inject_Z 20 <= pattern_score (metrics a)
         /\ exists d, transition_ratio (split (lower many_transitions)) = Some d
                      /\ lit 7 100 < d
                      /\ x = round_nd (fmul d (of_nat 100)) 1.
Proof.
  assert (G : (50 <= length (strip many_transitions))%nat) by (vm_compute; lia).
  split; [exact G | apply (transition_line_score many_transitions G)].
Defined.

End LinesAndScores.

(** ** The line on sentence openings *)

Module OpeningLine.
Import Float Str Re AIDetectionService Notions Examples Lines Texts FloatFacts Totality Gate.
Import Reporter Matching Bounds Aggregation Patterns Repetition Structure ReporterList LinesAndScores.

Lemma fold_max_ge (l : list nat) (x : nat) :
  (x <= fold_left Nat.max l x)%nat
  /\ Forall (fun y => (y <= fold_left Nat.max l x)%nat) l
  /\ (fold_left Nat.max l x = x \/ In (fold_left Nat.max l x) l).
Proof.
  revert x. induction l as [|y l IH]; intro x; simpl.
  - repeat split; [lia | constructor | auto].
  - destruct (IH (Nat.max x y)) as (H1 & H2 & H3). repeat split.
    + lia.
    + constructor; [lia | exact H2].
    + destruct H3 as [H3 | H3]; [|auto].
      rewrite H3. destruct (Nat.max_spec x y) as [[_ E] | [_ E]]; rewrite E; auto.
Qed.

(** [max(l)] is an element of [l] that no element exceeds. *)
Lemma list_max_spec (l : list nat) (n : nat) :
  list_max l = Some n -> In n l /\ Forall (fun y => (y <= n)%nat) l.
Proof.
  destruct l as [|x l]; [discriminate|]. simpl. intro H.
  apply some_inj in H. subst n.
  destruct (fold_max_ge l x) as (H1 & H2 & H3). split.
  - destruct H3 as [H3 | H3]; [left; symmetry; exact H3 | right; exact H3].
  - constructor; assumption.
Qed.

(** [max(c, key=c.get)] is a key of [c] whose count is the greatest. *)
Lemma argmax_from_spec (c : list (text * nat)) (best : text * nat) :
  In (argmax_from best c, fold_left Nat.max (values c) (snd best)) (best :: c).
Proof.
  revert best. induction c as [|[k n] c IH]; intro best.
  - left. destruct best; reflexivity.
  - cbn [argmax_from values map fold_left snd].
    destruct (snd best <? n)%nat eqn:E.
    + apply Nat.ltb_lt in E.
      replace (Nat.max (snd best) n) with (snd (k, n)) by (simpl; lia).
      destruct (IH (k, n)) as [H | H]; [right; left; exact H | right; right; exact H].
    + apply Nat.ltb_ge in E.
      replace (Nat.max (snd best) n) with (snd best) by lia.
      destruct (IH best) as [H | H]; [left; exact H | right; right; exact H].
Qed.

Lemma argmax_spec (c : list (text * nat)) (w : text) (n : nat) :
  argmax c = Some w -> list_max (values c) = Some n -> In (w, n) c.
Proof.
  destruct c as [|best c]; [discriminate|]. simpl. intros Hw Hn.
  apply some_inj in Hw. apply some_inj in Hn. subst w n.
  apply argmax_from_spec.
Qed.

(** The keys of a counter are distinct. *)
Lemma counter_add_keys (k : text) (c : list (text * nat)) :
  map fst (counter_add k c)
  = if existsb (text_eqb k) (map fst c) then map fst c else map fst c ++ [k].
Proof.
  induction c as [|[k' n] c IH]; [reflexivity|].
  cbn [counter_add map fst existsb]. destruct (text_eqb k k'); [reflexivity|].
  cbn [map fst orb]. rewrite IH. destruct (existsb _ _); reflexivity.
Qed.

Lemma counter_add_nodup (k : text) (c : list (text * nat)) :
  NoDup (map fst c) -> NoDup (map fst (counter_add k c)).
Proof.
  intro H. rewrite counter_add_keys.
  destruct (existsb (text_eqb k) (map fst c)) eqn:E; [exact H|].
  apply NoDup_app; [exact H | repeat constructor; intros [] |].
  intros x Hx [Hk | []]. subst x.
  assert (existsb (text_eqb k) (map fst c) = true).
  { apply existsb_exists. exists k. split; [exact Hx | apply text_eqb_refl]. }
  congruence.
Qed.

Lemma Counter_nodup (l : list text) : NoDup (map fst (Counter l)).
Proof.
  unfold Counter.
  assert (H : forall c, NoDup (map fst c) ->
                        NoDup (map fst (fold_left (fun c k => counter_add k c) l c))).
  { induction l as [|k l IH]; intros c Hc; simpl; [exact Hc|].
    apply IH, counter_add_nodup, Hc. }
  apply H. constructor.
Qed.

Lemma lookup_of_entry (k : text) (n : nat) (c : list (text * nat)) :
  NoDup (map fst c) -> In (k, n) c -> lookup k c = n.
Proof.
  unfold lookup. induction c as [|[k' n'] c IH]; intros Hd Hin; [destruct Hin|].
  simpl. inversion Hd as [|? ? Hnot Hd']; subst.
  destruct Hin as [Hin | Hin].
  - injection Hin as -> ->. rewrite text_eqb_refl. reflexivity.
  - destruct (text_eqb k k') eqn:E.
    + apply text_eqb_eq in E. subst k'. exfalso. apply Hnot.
      apply in_map_iff. exists (k, n). auto.
    + apply IH; assumption.
Qed.

Lemma lookup_le_max (k : text) (c : list (text * nat)) (n : nat) :
  list_max (values c) = Some n -> (lookup k c <= n)%nat.
Proof.
  intro H. destruct (list_max_spec _ _ H) as [_ Hall].
  destruct (Nat.eq_dec (lookup k c) 0) as [E | E]; [lia|].
  assert (Hin : In (lookup k c) (values c)) by (apply lookup_in; lia).
  rewrite Forall_forall in Hall. apply Hall, Hin.
Qed.

Lemma opening_indicator_fires (ss : list text) (w : text) (n : nat) :
  opening_indicator ss = Some [RepetitiveOpenings w n] ->
  (3 < length ss)%nat /\ (2 < n)%nat
  /\ list_max (values (Counter (map opener ss))) = Some n
  /\ argmax (Counter (map opener ss)) = Some w.
Proof.
  unfold opening_indicator. destruct (3 <? length ss)%nat eqn:L; intro H.
  - apply Nat.ltb_lt in L. split; [exact L|].
    apply bind_some in H. destruct H as (mx & Emx & H).
    destruct (2 <? mx)%nat eqn:M.
    + apply bind_some in H. destruct H as (k & Ek & H).
      apply some_inj in H. injection H as -> ->.
      apply Nat.ltb_lt in M. auto.
    + apply some_inj in H. discriminate H.
  - apply some_inj in H. discriminate H.
Qed.

Lemma check_repetition_opener (t : text) (n : nat) :
  (3 <= length (sentences t))%nat -> (2 < n)%nat ->
  In n (values (Counter (map opener (sentences t)))) ->
  lit 3 10 <= _check_repetition t.
Proof.
  intros L M Hin. unfold _check_repetition.
  assert (E : (length (sentences t) <? 3)%nat = false) by (apply Nat.ltb_ge; lia).
  rewrite E. apply fmin_glb; [|qle_const].
  assert (A : add_opener_score (Counter (map opener (sentences t))) (lit 0 1) = lit 3 10).
  { unfold add_opener_score.
    assert (X : existsb (fun count => (2 <? count)%nat)
                       (values (Counter (map opener (sentences t)))) = true).
    { apply existsb_exists. exists n. split; [exact Hin | apply Nat.ltb_lt, M]. }
    rewrite X. vm_compute. reflexivity. }
  rewrite A. apply add_bigram_score_ge, is_float_lit.
Qed.

(** X8. When the reporter emits the line on sentence openings, with the
    word [w] and the number [n]: there are more than three sentences,
    [n] exceeds 2, [n] sentences open with [w] (case ignored), no word
    opens more sentences, and the repetition metric is at least 30. *)
Theorem opening_line_score (t : text) :
  (50 <= length (strip t))%nat ->
  exists a,
    analyze_text t = Some (Success a)
    /\ forall w n, In (RepetitiveOpenings w n) (indicators a) ->
         (3 < length (sentences t))%nat
         /\ (2 < n)%nat
         /\ occurrences w (map opener (sentences t)) = n
         /\ (forall k, (occurrences k (map opener (sentences t)) <= n)%nat)
         /\ inject_Z 30 <= repetition_score (metrics a).
Proof.
  intro G. destruct (analyze_text_returns _ G) as [a H]. exists a.
  split; [exact H|].
  destruct (analyze_text_success _ _ H)
    as (p & s & v & c & found & avg & unique & _ & _ & _ & _ & Ef & _ & _ & _ & ->).
  cbv zeta. cbn [indicators metrics repetition_score]. intros w n Hin.
  destruct (opening_indicator_fires _ _ _ (opening_line_block _ _ _ _ Ef Hin))
    as (L & M & Emax & Earg).
  split; [exact L|]. split; [exact M|].
  pose proof (argmax_spec _ _ _ Earg Emax) as Hentry.
  split.
  - rewrite <- lookup_Counter.
    apply lookup_of_entry; [apply Counter_nodup | exact Hentry].
  - split.
    + intro k. rewrite <- lookup_Counter. apply lookup_le_max, Emax.
    + apply Qle_trans with (percent (lit 3 10)); [qle_const|].
      apply percent_le, (check_repetition_opener t n); [lia | exact M|].
      apply (list_max_spec _ _ Emax).
Qed.

Lemma opening_line_score_witness :
  (50 <= length (strip four_openings))%nat
  /\ exists a,
    analyze_text four_openings = Some (Success a)
    /\ forall w n, In (RepetitiveOpenings w n) (indicators a) ->
         (3 < length (sentences four_openings))%nat
         /\ (2 < n)%nat
         /\ occurrences w (map opener (sentences four_openings)) = n
         /\ (forall k, (occurrences k (map opener (sentences four_openings)) <= n)%nat)
         /\ inject_Z 30 <= repetition_score (metrics a).
Proof.
  assert (G : (50 <= length (strip four_openings))%nat) by (vm_compute; lia).
  split; [exact G | apply (opening_line_score four_openings G)].
Defined.

End OpeningLine.

(** ** The phrase lines and the pattern score *)

Module PhraseLines.
Import Float Str Re AIDetectionService Notions Examples Lines Texts FloatFacts Totality Gate.
Import Reporter Matching Bounds Aggregation Patterns Repetition Structure ReporterList ReporterCase LinesAndScores.

(** A phrase line comes from the search of its block. *)
Lemma phrase_line_block (t : text) (found : list indicator) :
  _get_indicators t = Some found ->
  (In SelfReference found -> search false self_reference_pattern (lower t) = true)
  /\ (In HedgingPhrases found -> search false hedging_pattern (lower t) = true)
  /\ (In MetaphoricalLanguage found -> search false metaphor_pattern (lower t) = true).
Proof.
  intro H. destruct (get_indicators_blocks _ _ H)
    as (b4 & n4 & b5 & x5 & b6 & b7 & b8 & w8 & n8 & _ & _ & _ & _ & _ & E).
  cbv zeta in E.
  split; [|split]; intro Hin; rewrite E in Hin;
    (apply in_lines in Hin; [|discriminate]);
    rewrite !in_app_iff in Hin;
    destruct Hin as [K | [K | [K | [K | [K | [K | [K | K]]]]]]];
    apply in_when in K; destruct K as [Kb Ki]; try discriminate Ki; exact Kb.
Qed.

(** Each pattern of the reporter is covered by patterns of the matcher:
    what the reporter finds, one of them finds. *)
Lemma self_reference_covered (s : text) :
  search false self_reference_pattern s = true ->
  search true pattern_self_reference s = true.
Proof.
  unfold self_reference_pattern, pattern_self_reference. cbn [any_of].
  rewrite !search_bounded_alt. intro H.
  repeat (apply orb_true_iff in H; destruct H as [H | H]);
    apply search_ignorecase in H; rewrite H; rewrite ?orb_true_r; reflexivity.
Qed.

Lemma hedging_covered (s : text) :
  search false hedging_pattern s = true -> search true pattern_hedging s = true.
Proof. apply search_ignorecase. Qed.

Lemma metaphor_covered (s : text) :
  search false metaphor_pattern s = true ->
  search true pattern_delve s = true \/ search true pattern_embark s = true.
Proof.
  unfold metaphor_pattern, pattern_delve, pattern_embark. cbn [any_of].
  rewrite !search_bounded_alt. intro H.
  repeat (apply orb_true_iff in H; destruct H as [H | H]);
    apply search_ignorecase in H; rewrite H; rewrite ?orb_true_r; auto.
Qed.

Lemma pattern_matches_pos (r : regex) (s : text) :
  In r ai_patterns -> search true r s = true -> (1 <= pattern_matches s)%nat.
Proof.
  intros Hin H. unfold pattern_matches.
  apply (count_if_pos (fun pattern => search true pattern s) ai_patterns r Hin H).
Qed.

(** X5. When the reporter emits one of its three phrase lines, on
    self-reference, hedging or metaphorical language, at least one of
    the fourteen patterns has matched and the pattern metric is at
    least 25. *)
Theorem phrase_line_score (t : text) :
  (50 <= length (strip t))%nat ->
  exists a,
    analyze_text t = Some (Success a)
    /\ (In SelfReference (indicators a) \/ In HedgingPhrases (indicators a)
        \/ In MetaphoricalLanguage (indicators a) ->
        (1 <= pattern_matches (lower t))%nat
        /\ inject_Z 25 <= pattern_score (metrics a)).
Proof.
  intro G. destruct (analyze_text_returns _ G) as [a H]. exists a.
  split; [exact H|].
  destruct (analyze_text_success _ _ H)
    as (p & s & v & c & found & avg & unique & Ep & _ & _ & _ & Ef & _ & _ & _ & ->).
  cbv zeta. cbn [indicators metrics pattern_score]. intro Hin.
  destruct (phrase_line_block _ _ Ef) as (B1 & B2 & B3).
  assert (M : (1 <= pattern_matches (lower t))%nat).
  { destruct Hin as [K | [K | K]].
    - apply (pattern_matches_pos pattern_self_reference); [simpl; tauto|].
      apply self_reference_covered, B1, K.
    - apply (pattern_matches_pos pattern_hedging); [simpl; tauto|].
      apply hedging_covered, B2, K.
    - destruct (metaphor_covered _ (B3 K)) as [D | D].
      + apply (pattern_matches_pos pattern_delve); [simpl; tauto | exact D].
      + apply (pattern_matches_pos pattern_embark); [simpl; tauto | exact D]. }
  split; [exact M|].
  rewrite check_ai_patterns_formula in Ep. apply some_inj in Ep. subst p.
  apply Qle_trans with (percent (lit 25 100)); [qle_const|].
  apply percent_le, pattern_score_formula_ge, M.
Qed.

Lemma phrase_line_score_witness :
  (50 <= length (strip two_metaphors))%nat
  /\ exists a,
    analyze_text two_metaphors = Some (Success a)
    /\ (In SelfReference (indicators a) \/ In HedgingPhrases (indicators a)
        \/ In MetaphoricalLanguage (indicators a) ->
        (1 <= pattern_matches (lower two_metaphors))%nat
        /\ inject_Z 25 <= pattern_score (metrics a)).
Proof.
  assert (G : (50 <= length (strip two_metaphors))%nat) by (vm_compute; lia).
  split; [exact G | apply (phrase_line_score two_metaphors G)].
Defined.

End PhraseLines.

(** ** Letter case *)

Module LetterCase.
Import Float Str Re AIDetectionService Notions Examples Lines Texts FloatFacts Totality Gate.
Import Reporter Matching Bounds Aggregation Patterns Repetition Structure ReporterCase.

Lemma isspace_lower (c : ascii) : isspace (lower_char c) = isspace c.
Proof. destruct c as [[] [] [] [] [] [] [] []]; reflexivity. Qed.

Lemma is_sentence_end_lower (c : ascii) :
  is_sentence_end (lower_char c) = is_sentence_end c.
Proof. destruct c as [[] [] [] [] [] [] [] []]; reflexivity. Qed.

Lemma is_newline_lower (c : ascii) : is_newline (lower_char c) = is_newline c.
Proof. destruct c as [[] [] [] [] [] [] [] []]; reflexivity. Qed.

Lemma comma_lower (c : ascii) : (code (lower_char c) =? 44)%nat = (code c =? 44)%nat.
Proof. destruct c as [[] [] [] [] [] [] [] []]; reflexivity. Qed.

Lemma semicolon_lower (c : ascii) : (code (lower_char c) =? 59)%nat = (code c =? 59)%nat.
Proof. destruct c as [[] [] [] [] [] [] [] []]; reflexivity. Qed.

Lemma colon_lower (c : ascii) : (code (lower_char c) =? 58)%nat = (code c =? 58)%nat.
Proof. destruct c as [[] [] [] [] [] [] [] []]; reflexivity. Qed.

Lemma lower_idem (s : text) : lower (lower s) = lower s.
Proof.
  unfold lower. rewrite map_map. apply map_ext. intro c. apply lower_char_idem.
Qed.

Lemma lower_rev (s : text) : lower (rev s) = rev (lower s).
Proof. apply map_rev. Qed.

Lemma nonempty_lower (s : text) : nonempty (lower s) = nonempty s.
Proof. destruct s; reflexivity. Qed.

Lemma lstrip_lower (s : text) : lstrip isspace (lower s) = lower (lstrip isspace s).
Proof.
  induction s as [|c s IH]; [reflexivity|].
  cbn [lower map lstrip]. rewrite isspace_lower.
  destruct (isspace c); [exact IH | reflexivity].
Qed.

Lemma strip_lower (s : text) : strip (lower s) = lower (strip s).
Proof.
  unfold strip, strip_chars, rstrip.
  rewrite lstrip_lower, <- lower_rev, lstrip_lower, lower_rev. reflexivity.
Qed.

Lemma lower_cons (c : ascii) (s : text) : lower (c :: s) = lower_char c :: lower s.
Proof. reflexivity. Qed.

Lemma runs_aux_lower (cur s : text) :
  runs_aux isspace (lower cur) (lower s) = map lower (runs_aux isspace cur s).
Proof.
  revert cur. induction s as [|c s IH]; intro cur.
  - change (lower []) with (@nil ascii).
    destruct cur as [|a cur]; [reflexivity|].
    rewrite lower_cons. cbn [runs_aux map]. rewrite <- lower_cons, <- lower_rev.
    reflexivity.
  - rewrite (lower_cons c s). cbn [runs_aux]. rewrite isspace_lower.
    destruct (isspace c).
    + destruct cur as [|a cur]; [apply (IH [])|].
      rewrite lower_cons. cbn [map]. rewrite <- lower_cons, <- lower_rev.
      apply f_equal2; [reflexivity | apply (IH [])].
    + rewrite <- lower_cons. apply (IH (c :: cur)).
Qed.

Lemma split_lower (s : text) : split (lower s) = map lower (split s).
Proof. exact (runs_aux_lower [] s). Qed.

Lemma words_in_lower (s : text) : words_in (lower s) = words_in s.
Proof. unfold words_in. rewrite split_lower. apply length_map. Qed.

Lemma re_split_aux_lower (cur : text) (b : bool) (s : text) :
  re_split_aux (lower cur) b (lower s) = map lower (re_split_aux cur b s).
Proof.
  revert cur b. induction s as [|c s IH]; intros cur b.
  - change (lower []) with (@nil ascii).
    cbn [re_split_aux map]. rewrite <- lower_rev. reflexivity.
  - rewrite (lower_cons c s). cbn [re_split_aux]. rewrite is_sentence_end_lower.
    destruct (is_sentence_end c).
    + destruct b; [apply (IH [] true)|].
      cbn [map]. rewrite <- lower_rev.
      apply f_equal2; [reflexivity | apply (IH [] true)].
    + rewrite <- lower_cons. apply (IH (c :: cur) false).
Qed.

Lemma split_blank_aux_step (cur : text) (c c2 : ascii) (s : text) :
  split_blank_aux cur (c :: c2 :: s)
  = if is_newline c && is_newline c2 then rev cur :: split_blank_aux [] s
    else split_blank_aux (c :: cur) (c2 :: s).
Proof. reflexivity. Qed.

Lemma split_blank_aux_lower (cur s : text) :
  split_blank_aux (lower cur) (lower s) = map lower (split_blank_aux cur s).
Proof.
  assert (H : forall n s cur, (length s <= n)%nat ->
            split_blank_aux (lower cur) (lower s) = map lower (split_blank_aux cur s)).
  { clear. induction n as [|n IH]; intros s cur L.
    - destruct s; [|simpl in L; lia]. change (lower []) with (@nil ascii).
      cbn [split_blank_aux map]. rewrite <- lower_rev. reflexivity.
    - destruct s as [|c [|c2 s]].
      + change (lower []) with (@nil ascii).
        cbn [split_blank_aux map]. rewrite <- lower_rev. reflexivity.
      + rewrite (lower_cons c []). change (lower []) with (@nil ascii).
        cbn [split_blank_aux map]. rewrite <- lower_cons, <- lower_rev. reflexivity.
      + rewrite (lower_cons c (c2 :: s)), (lower_cons c2 s).
        rewrite !split_blank_aux_step, !is_newline_lower.
        destruct (is_newline c && is_newline c2).
        * cbn [map]. rewrite <- lower_rev.
          apply f_equal2; [reflexivity|]. apply (IH s []). simpl in L. lia.
        * rewrite <- (lower_cons c2 s), <- (lower_cons c cur).
          apply (IH (c2 :: s) (c :: cur)). simpl in L. simpl. lia. }
  apply (H (length s)). lia.
Qed.

Lemma stripped_nonempty_lower (pieces : list text) :
  stripped_nonempty (map lower pieces) = map lower (stripped_nonempty pieces).
Proof.
  unfold stripped_nonempty. induction pieces as [|p ps IH]; [reflexivity|].
  cbn [map filter]. rewrite strip_lower, nonempty_lower.
  destruct (nonempty (strip p)); [|exact IH].
  cbn [map]. rewrite strip_lower. f_equal. exact IH.
Qed.

Lemma re_split_lower (t : text) : re_split (lower t) = map lower (re_split t).
Proof. exact (re_split_aux_lower [] false t). Qed.

Lemma split_blank_lower (t : text) : split_blank (lower t) = map lower (split_blank t).
Proof. exact (split_blank_aux_lower [] t). Qed.

Lemma sentences_lower (t : text) : sentences (lower t) = map lower (sentences t).
Proof.
  unfold sentences. rewrite re_split_lower. apply stripped_nonempty_lower.
Qed.

Lemma paragraphs_lower (t : text) : paragraphs (lower t) = map lower (paragraphs t).
Proof.
  unfold paragraphs. rewrite split_blank_lower. apply stripped_nonempty_lower.
Qed.

Lemma map_words_in_lower (l : list text) :
  map words_in (map lower l) = map words_in l.
Proof. rewrite map_map. apply map_ext. intro s. apply words_in_lower. Qed.

Lemma opener_lower (s : text) : opener (lower s) = opener s.
Proof.
  unfold opener. rewrite split_lower. destruct (split s); [reflexivity|].
  cbn [map]. apply lower_idem.
Qed.

Lemma map_opener_lower (l : list text) : map opener (map lower l) = map opener l.
Proof. rewrite map_map. apply map_ext. intro s. apply opener_lower. Qed.

Lemma bigrams_lower (l : list text) : bigrams (map lower l) = bigrams l.
Proof.
  unfold bigrams. induction l as [|s l IH]; [reflexivity|].
  cbn [map flat_map]. rewrite lower_idem, IH. reflexivity.
Qed.

Lemma count_char_lower (n : nat) (s : text) :
  (forall c, (code (lower_char c) =? n)%nat = (code c =? n)%nat) ->
  count_char n (lower s) = count_char n s.
Proof.
  intro H. unfold count_char. induction s as [|c s IH]; [reflexivity|].
  cbn [lower map filter]. rewrite H. destruct (code c =? n)%nat; simpl; auto.
Qed.

Lemma punctuation_count_lower (t : text) :
  punctuation_count (lower t) = punctuation_count t.
Proof.
  unfold punctuation_count.
  rewrite (count_char_lower 44 t comma_lower), (count_char_lower 59 t semicolon_lower),
    (count_char_lower 58 t colon_lower). reflexivity.
Qed.

Lemma too_short_lower (t : text) : too_short (lower t) = too_short t.
Proof.
  unfold too_short. rewrite nonempty_lower, strip_lower.
  unfold lower at 1. rewrite length_map. reflexivity.
Qed.

Lemma check_ai_patterns_lower (t : text) :
  _check_ai_patterns (lower t) = _check_ai_patterns t.
Proof. unfold _check_ai_patterns. rewrite lower_idem. reflexivity. Qed.

Lemma analyze_structure_lower (t : text) :
  _analyze_structure (lower t) = _analyze_structure t.
Proof.
  unfold _analyze_structure.
  rewrite sentences_lower, length_map, map_words_in_lower. reflexivity.
Qed.

Lemma analyze_vocabulary_lower (t : text) :
  _analyze_vocabulary (lower t) = _analyze_vocabulary t.
Proof. unfold _analyze_vocabulary. rewrite lower_idem. reflexivity. Qed.

Lemma analyze_consistency_lower (t : text) :
  _analyze_consistency (lower t) = _analyze_consistency t.
Proof.
  unfold _analyze_consistency, punctuation_ratio, add_paragraph_score.
  rewrite split_lower, length_map, punctuation_count_lower,
    paragraphs_lower, length_map, map_words_in_lower. reflexivity.
Qed.

Lemma check_repetition_lower (t : text) :
  _check_repetition (lower t) = _check_repetition t.
Proof.
  unfold _check_repetition.
  rewrite sentences_lower, length_map, map_opener_lower, bigrams_lower. reflexivity.
Qed.

Lemma get_indicators_lower (t : text) :
  _get_indicators (lower t) = _get_indicators t.
Proof.
  unfold _get_indicators, structure_indicator, paragraph_indicator, opening_indicator.
  rewrite lower_idem, sentences_lower, paragraphs_lower, !length_map,
    !map_words_in_lower, map_opener_lower. reflexivity.
Qed.

Lemma avg_sentence_length_lower (t : text) :
  _avg_sentence_length (lower t) = _avg_sentence_length t.
Proof.
  unfold _avg_sentence_length. rewrite sentences_lower.
  destruct (sentences t) as [|s ss]; [reflexivity|].
  change (map lower (s :: ss)) with (lower s :: map lower ss).
  cbv iota. change (lower s :: map lower ss) with (map lower (s :: ss)).
  rewrite length_map, map_words_in_lower. reflexivity.
Qed.

Lemma unique_word_ratio_lower (t : text) :
  _unique_word_ratio (lower t) = _unique_word_ratio t.
Proof. unfold _unique_word_ratio. rewrite lower_idem. reflexivity. Qed.

(** X9. The result does not depend on letter case: a text and its
    lowercase form get the same outcome, with the same probability,
    band, metrics, indicator lines and statistics. *)
Theorem case_insensitive (t : text) : analyze_text (lower t) = analyze_text t.
Proof.
  unfold analyze_text.
  rewrite too_short_lower, check_ai_patterns_lower, analyze_structure_lower,
    analyze_vocabulary_lower, analyze_consistency_lower, check_repetition_lower,
    get_indicators_lower, avg_sentence_length_lower, unique_word_ratio_lower.
  rewrite split_lower, re_split_lower, !length_map. reflexivity.
Qed.

End LetterCase.

(** ** The statistics *)

Module StatsFacts.
Import Float Str Re AIDetectionService Notions Examples Lines Texts FloatFacts Totality Gate.
Import Reporter Matching Bounds Aggregation Patterns Repetition Structure.

(** *** Words of a string that is not blank *)

Lemma runs_aux_open (sep : ascii -> bool) (a : ascii) (cur s : text) :
  runs_aux sep (a :: cur) s <> [].
Proof.
  revert a cur. induction s as [|c s IH]; intros a cur; simpl; [discriminate|].
  destruct (sep c); [discriminate | apply IH].
Qed.

Lemma runs_aux_solid (cur s : text) :
  (0 < solid s)%nat -> runs_aux isspace cur s <> [].
Proof.
  revert cur. induction s as [|c s IH]; intros cur H.
  - unfold solid, count_if in H. simpl in H. lia.
  - simpl runs_aux. rewrite solid_cons in H. destruct (isspace c).
    + destruct cur; [apply IH; simpl in H; lia | discriminate].
    + apply runs_aux_open.
Qed.

Lemma words_in_pos (s : text) : (0 < solid s)%nat -> (1 <= words_in s)%nat.
Proof.
  intro H. unfold words_in, split.
  pose proof (runs_aux_solid [] s H) as N.
  destruct (runs_aux isspace [] s); [contradiction | simpl; lia].
Qed.

Lemma lstrip_head (p : ascii -> bool) (s : text) (c : ascii) (r : text) :
  lstrip p s = c :: r -> p c = false.
Proof.
  induction s as [|a s IH]; simpl; [discriminate|].
  destruct (p a) eqn:E; [exact IH|]. intro H. injection H as -> _. exact E.
Qed.

Lemma strip_solid_pos (p : text) :
  nonempty (strip p) = true -> (0 < solid (strip p))%nat.
Proof.
  unfold strip, strip_chars, rstrip.
  destruct (lstrip isspace (rev (lstrip isspace p))) as [|c r] eqn:E;
    [simpl; discriminate|].
  intros _. rewrite solid_rev, solid_cons, (lstrip_head _ _ _ _ E). lia.
Qed.

(** Every sentence holds at least one word. *)
Lemma sentence_words_pos (pieces : list text) :
  Forall (fun n => (1 <= n)%nat) (map words_in (stripped_nonempty pieces)).
Proof.
  unfold stripped_nonempty. induction pieces as [|p ps IH]; [constructor|].
  cbn [filter]. destruct (nonempty (strip p)) eqn:E; [|exact IH].
  cbn [map]. constructor; [|exact IH]. apply words_in_pos, strip_solid_pos, E.
Qed.

Lemma fold_add_ge (l : list nat) (acc : nat) :
  Forall (fun n => (1 <= n)%nat) l -> (acc + length l <= fold_left Nat.add l acc)%nat.
Proof.
  intro H. revert acc. induction H as [|x l Hx _ IH]; intro acc; simpl; [lia|].
  specialize (IH (acc + x)%nat). lia.
Qed.

Lemma sum_nat_ge (l : list nat) :
  Forall (fun n => (1 <= n)%nat) l -> (length l <= sum_nat l)%nat.
Proof. intro H. apply (fold_add_ge l 0 H). Qed.

(** *** Quotients of two counts *)

Lemma rnd_1 : rnd 1 = 1.
Proof. vm_compute. reflexivity. Qed.

Lemma Zpos_of_nat_S (b : nat) : Zpos (Pos.of_nat (S b)) = Z.of_nat (S b).
Proof. rewrite <- Pos.of_nat_succ, Zpos_P_of_succ_nat, Nat2Z.inj_succ. reflexivity. Qed.

Lemma truediv_ge_1 (a b : nat) :
  (0 < b)%nat -> (b <= a)%nat -> exists q, truediv a b = Some q /\ 1 <= q.
Proof.
  intros Hb H. destruct b as [|b]; [lia|]. eexists. split; [reflexivity|].
  apply Qle_trans with (rnd 1); [rewrite rnd_1; apply Qle_refl|].
  apply rnd_le. unfold Qle.
  change (Qnum 1) with 1%Z. change (Zpos (Qden 1)) with 1%Z.
  change (Qnum (Z.of_nat a # Pos.of_nat (S b))) with (Z.of_nat a).
  change (Zpos (Qden (Z.of_nat a # Pos.of_nat (S b)))) with (Zpos (Pos.of_nat (S b))).
  rewrite Zpos_of_nat_S. lia.
Qed.

Lemma truediv_le_1 (a b : nat) :
  (0 < b)%nat -> (a <= b)%nat -> exists q, truediv a b = Some q /\ 0 <= q /\ q <= 1.
Proof.
  intros Hb H. destruct b as [|b]; [lia|]. eexists. split; [reflexivity|]. split.
  - apply rnd_nonneg. unfold Qle. cbn [Qnum Qden]. lia.
  - apply Qle_trans with (rnd 1); [|rewrite rnd_1; apply Qle_refl].
    apply rnd_le. unfold Qle.
    change (Qnum 1) with 1%Z. change (Zpos (Qden 1)) with 1%Z.
    change (Qnum (Z.of_nat a # Pos.of_nat (S b))) with (Z.of_nat a).
    change (Zpos (Qden (Z.of_nat a # Pos.of_nat (S b)))) with (Zpos (Pos.of_nat (S b))).
    rewrite Zpos_of_nat_S. lia.
Qed.

Lemma distinct_length (l : list text) : (length (distinct l) <= length l)%nat.
Proof.
  induction l as [|w l IH]; [simpl; lia|].
  simpl. destruct (mem w l); simpl; lia.
Qed.

(** *** The pieces of [re.split] *)

Lemma re_split_aux_length (cur : text) (in_run : bool) (s : text) :
  (1 <= length (re_split_aux cur in_run s))%nat.
Proof.
  revert cur in_run. induction s as [|c s IH]; intros cur in_run; simpl; [lia|].
  destruct (is_sentence_end c); [destruct in_run; [apply IH | simpl; lia] | apply IH].
Qed.

Lemma stripped_nonempty_length (pieces : list text) :
  (length (stripped_nonempty pieces) <= length pieces)%nat.
Proof. unfold stripped_nonempty. rewrite length_map. apply filter_length_le. Qed.

(** After a final delimiter [re.split] returns an empty last piece. *)
Lemma re_split_aux_final (cur : text) (in_run : bool) (s : text) (d : ascii) :
  is_sentence_end d = true ->
  exists pieces, re_split_aux cur in_run (s ++ [d]) = pieces ++ [[]].
Proof.
  intro D. revert cur in_run. induction s as [|c s IH]; intros cur in_run.
  - cbn [app re_split_aux]. rewrite D. destruct in_run.
    + exists []. reflexivity.
    + exists [rev cur]. reflexivity.
  - cbn [app re_split_aux]. destruct (is_sentence_end c).
    + destruct in_run; [apply IH|].
      destruct (IH [] true) as [pieces E]. exists (rev cur :: pieces).
      rewrite E. reflexivity.
    + apply IH.
Qed.

Lemma stripped_nonempty_final (pieces : list text) :
  stripped_nonempty (pieces ++ [[]]) = stripped_nonempty pieces.
Proof.
  unfold stripped_nonempty. rewrite filter_app. cbn [filter].
  change (nonempty (strip [])) with false. cbv iota. rewrite app_nil_r. reflexivity.
Qed.

(** X10. The counts of the statistics: at least one word, and no more words
    than characters of the trimmed text; at least one sentence is
    counted, never fewer than the sentences that the analyzers see, and
    one more than they see at least when the text ends with '.', '!'
    or '?'. *)
Theorem statistics_counts (t : text) :
  (50 <= length (strip t))%nat ->
  exists a,
    analyze_text t = Some (Success a)
    /\ (1 <= word_count (statistics a))%nat
    /\ (word_count (statistics a) <= length (strip t))%nat
    /\ (1 <= sentence_count (statistics a))%nat
    /\ (length (sentences t) <= sentence_count (statistics a))%nat
    /\ (forall s d, t = s ++ [d] -> is_sentence_end d = true ->
        (length (sentences t) < sentence_count (statistics a))%nat).
Proof.
  intro G. destruct (analyze_text_returns _ G) as [a H]. exists a.
  split; [exact H|].
  destruct (analyze_text_success _ _ H)
    as (p & s & v & c & found & avg & unique & _ & _ & _ & _ & _ & _ & _ & _ & ->).
  cbv zeta. cbn [statistics word_count sentence_count].
  split.
  { apply (words_in_pos t). rewrite <- solid_strip. apply strip_solid_pos.
    destruct (strip t); [exfalso; simpl in G; lia | reflexivity]. }
  split.
  { eapply Nat.le_trans; [apply (words_in_le_solid t) | apply solid_le_strip]. }
  split; [apply re_split_aux_length|].
  split; [apply stripped_nonempty_length|].
  intros s0 d -> D. unfold sentences, re_split.
  destruct (re_split_aux_final [] false s0 d D) as [pieces E]. rewrite E.
  rewrite stripped_nonempty_final, length_app. cbn [length].
  rewrite Nat.add_1_r. apply Nat.lt_succ_r, stripped_nonempty_length.
Qed.

Lemma statistics_counts_witness :
  (50 <= length (strip one_sentence))%nat
  /\ exists a,
    analyze_text one_sentence = Some (Success a)
    /\ (1 <= word_count (statistics a))%nat
    /\ (word_count (statistics a) <= length (strip one_sentence))%nat
    /\ (1 <= sentence_count (statistics a))%nat
    /\ (length (sentences one_sentence) <= sentence_count (statistics a))%nat
    /\ (forall s d, one_sentence = s ++ [d] -> is_sentence_end d = true ->
        (length (sentences one_sentence) < sentence_count (statistics a))%nat).
Proof.
  assert (G : (50 <= length (strip one_sentence))%nat) by (vm_compute; lia).
  split; [exact G | apply (statistics_counts one_sentence G)].
Defined.

(** X11. The two ratios of the statistics, on every text: the average
    sentence length is 0 when there is no sentence and at least 1
    otherwise; the unique-word ratio lies between 0 and 1. *)
Theorem statistics_ratios (t : text) :
  (exists x, _avg_sentence_length t = Some x
             /\ (sentences t = [] -> x = 0)
             /\ (sentences t <> [] -> 1 <= x))
  /\ (exists y, _unique_word_ratio t = Some y /\ 0 <= y /\ y <= 1).
Proof.
  split.
  - unfold _avg_sentence_length.
    pose proof (sentence_words_pos (re_split t)) as F. fold (sentences t) in F.
    destruct (sentences t) as [|s ss] eqn:E.
    + exists 0. split; [reflexivity|]. split; [reflexivity | congruence].
    + destruct (truediv_ge_1 (sum_nat (map words_in (s :: ss))) (length (s :: ss)))
        as (q & Eq & Hq); [simpl; lia | |].
      { rewrite <- (length_map words_in (s :: ss)). apply sum_nat_ge, F. }
      rewrite Eq. exists (round_nd q 2). split; [reflexivity|].
      split; [discriminate|]. intros _.
      apply Qle_trans with (round_nd 1 2); [qle_const | apply round_nd_le, Hq].
  - unfold _unique_word_ratio.
    destruct (findall_words (lower t)) as [|w ws] eqn:E.
    + exists 0. split; [reflexivity|]. split; [apply Qle_refl | qle_const].
    + destruct (truediv_le_1 (length (distinct (w :: ws))) (length (w :: ws)))
        as (q & Eq & Hq0 & Hq1); [simpl; lia | apply distinct_length|].
      rewrite Eq. exists (round_nd q 2). split; [reflexivity|]. split.
      * apply Qle_trans with (round_nd 0 2); [qle_const | apply round_nd_le, Hq0].
      * apply Qle_trans with (round_nd 1 2); [apply round_nd_le, Hq1 | qle_const].
Qed.

End StatsFacts.

(** ** The values that the metrics take *)

Module Levels.
Import Float Str Re AIDetectionService Notions Examples Lines Texts FloatFacts Totality Gate.
Import Reporter Matching Bounds Aggregation Patterns Repetition Structure.

(** Membership of a closed number in a closed list, by evaluation. *)
Ltac in_const := vm_compute; repeat (first [left; reflexivity | right]).

Lemma structure_levels (t : text) (s : Q) :
  _analyze_structure t = Some s ->
  In (percent s) (map inject_Z [10; 20; 30; 40; 50; 60; 80; 100]%Z).
Proof.
  unfold _analyze_structure. destruct (_ <? _)%nat; intro H.
  - apply some_inj in H. subst s. in_const.
  - unfold structure_of_lengths in H.
    apply bind_some in H. destruct H as (cv & _ & H).
    apply bind_some in H. destruct H as (r & _ & H).
    apply some_inj in H. subst s.
    unfold add_variation_score, add_medium_score.
    destruct (flt cv (lit 30 100)); [|destruct (flt cv (lit 40 100))];
      (destruct (flt (lit 6 10) r); [|destruct (flt (lit 4 10) r)]); in_const.
Qed.

Lemma vocabulary_levels (t : text) (v : Q) :
  _analyze_vocabulary t = Some v ->
  In (percent v)
     (map inject_Z [0; 15; 20; 30; 35; 40; 45; 50; 55; 60; 65; 70; 80; 85; 90; 100]%Z).
Proof.
  unfold _analyze_vocabulary. destruct (_ <? _)%nat; intro H.
  - apply some_inj in H. subst v. in_const.
  - apply bind_some in H. destruct H as (d & _ & H).
    apply bind_some in H. destruct H as (b & _ & H).
    apply bind_some in H. destruct H as (f & _ & H).
    apply some_inj in H. subst v.
    unfold add_buzzword_score, add_formal_score, add_diversity_score.
    destruct (flt (lit 3 100) b);
      [|destruct (flt (lit 2 100) b); [|destruct (flt (lit 1 100) b)]];
      (destruct (flt (lit 4 100) f); [|destruct (flt (lit 2 100) f)]);
      destruct (fle (lit 45 100) d && fle d (lit 65 100)); in_const.
Qed.

Lemma consistency_levels (t : text) (c : Q) :
  _analyze_consistency t = Some c ->
  In (percent c) (map inject_Z [0; 25; 30; 50; 55; 75; 80; 100]%Z).
Proof.
  unfold _analyze_consistency. intro H.
  apply bind_some in H. destruct H as (r & _ & H).
  apply bind_some in H. destruct H as (s & Hs & H).
  apply some_inj in H. subst c.
  unfold add_paragraph_score in Hs. unfold add_punctuation_score in Hs.
  destruct (1 <? length (paragraphs t))%nat.
  - apply bind_some in Hs. destruct Hs as (cv & _ & Hs).
    destruct (fle (lit 8 100) r && fle r (lit 15 100));
      [|destruct (fle (lit 5 100) r && fle r (lit 18 100))];
      (destruct (flt cv (lit 25 100)); [|destruct (flt cv (lit 40 100))]);
      apply some_inj in Hs; subst s; in_const.
  - destruct (fle (lit 8 100) r && fle r (lit 15 100));
      [|destruct (fle (lit 5 100) r && fle r (lit 18 100))];
      apply some_inj in Hs; subst s; in_const.
Qed.

(** [min(repeated * 0.2, 0.5)] is 0.2 for one repeated bigram, 0.4 for
    two and 0.5 from three on. *)
Lemma bigram_bonus (k : nat) :
  (0 < k)%nat ->
  fmin (fmul (of_nat k) (lit 2 10)) (lit 5 10) = lit 2 10
  \/ fmin (fmul (of_nat k) (lit 2 10)) (lit 5 10) = lit 4 10
  \/ fmin (fmul (of_nat k) (lit 2 10)) (lit 5 10) = lit 5 10.
Proof.
  intro H. destruct k as [|[|[|k]]]; [lia | | |].
  - left. vm_compute. reflexivity.
  - right. left. vm_compute. reflexivity.
  - right. right. unfold fmin.
    assert (F : flt (lit 5 10) (fmul (of_nat (S (S (S k)))) (lit 2 10)) = true).
    { apply flt_spec.
      apply Qlt_le_trans with (fmul (of_nat 3) (lit 2 10)).
      - apply flt_spec. vm_compute. reflexivity.
      - apply fmul_le_r; [qle_const | apply of_nat_le; lia]. }
    rewrite F. reflexivity.
Qed.

Lemma repetition_levels (t : text) :
  In (percent (_check_repetition t)) (map inject_Z [0; 20; 30; 40; 50; 70; 80]%Z).
Proof.
  unfold _check_repetition. destruct (_ <? _)%nat; [in_const|].
  unfold add_opener_score, add_bigram_score.
  destruct (bigrams (sentences t)) as [|b bs].
  - destruct (existsb _ _); in_const.
  - set (k := count_if _ _). destruct (0 <? k)%nat eqn:K.
    + apply Nat.ltb_lt in K.
      destruct (bigram_bonus k K) as [E | [E | E]]; rewrite E;
        destruct (existsb _ _); in_const.
    + destruct (existsb _ _); in_const.
Qed.

(** X12. The four metrics that are built of fixed steps take few values:
    the structure metric is one of 10, 20, 30, 40, 50, 60, 80, 100; the
    consistency metric one of 0, 25, 30, 50, 55, 75, 80, 100; the
    repetition metric one of 0, 20, 30, 40, 50, 70, 80; the vocabulary
    metric a multiple of 5 from 0 to 100 other than 5, 10, 25, 75, 95. *)
Theorem metric_levels (t : text) :
  (50 <= length (strip t))%nat ->
  exists a,
    analyze_text t = Some (Success a)
    /\ In (structure_score (metrics a)) (map inject_Z [10; 20; 30; 40; 50; 60; 80; 100]%Z)
    /\ In (consistency_score (metrics a)) (map inject_Z [0; 25; 30; 50; 55; 75; 80; 100]%Z)
    /\ In (repetition_score (metrics a)) (map inject_Z [0; 20; 30; 40; 50; 70; 80]%Z)
    /\ In (vocabulary_score (metrics a))
          (map inject_Z [0; 15; 20; 30; 35; 40; 45; 50; 55; 60; 65; 70; 80; 85; 90; 100]%Z).
Proof.
  intro G. destruct (analyze_text_returns _ G) as [a H]. exists a.
  split; [exact H|].
  destruct (analyze_text_success _ _ H)
    as (p & s & v & c & found & avg & unique & _ & Es & Ev & Ec & _ & _ & _ & _ & ->).
  cbv zeta.
  cbn [metrics vocabulary_score structure_score consistency_score repetition_score].
  split; [exact (structure_levels _ _ Es)|].
  split; [exact (consistency_levels _ _ Ec)|].
  split; [exact (repetition_levels t) | exact (vocabulary_levels _ _ Ev)].
Qed.

Lemma metric_levels_witness :
  (50 <= length (strip four_openings))%nat
  /\ exists a,
    analyze_text four_openings = Some (Success a)
    /\ In (structure_score (metrics a)) (map inject_Z [10; 20; 30; 40; 50; 60; 80; 100]%Z)
    /\ In (consistency_score (metrics a)) (map inject_Z [0; 25; 30; 50; 55; 75; 80; 100]%Z)
    /\ In (repetition_score (metrics a)) (map inject_Z [0; 20; 30; 40; 50; 70; 80]%Z)
    /\ In (vocabulary_score (metrics a))
          (map inject_Z [0; 15; 20; 30; 35; 40; 45; 50; 55; 60; 65; 70; 80; 85; 90; 100]%Z).
Proof.
  assert (G : (50 <= length (strip four_openings))%nat) by (vm_compute; lia).
  split; [exact G | apply (metric_levels four_openings G)].
Defined.

End Levels.

(** ** The lines on buzzwords and on paragraphs *)

Module CountLines.
Import Float Str Re AIDetectionService Notions Examples Lines Texts FloatFacts Totality Gate.
Import Reporter Matching Bounds Aggregation Patterns Repetition Structure ReporterList LinesAndScores OpeningLine StatsFacts.

Lemma buzzword_line_block (t : text) (found : list indicator) (n : nat) :
  _get_indicators t = Some found -> In (Buzzwords n) found ->
  buzzword_indicator (split (lower t)) = Some [Buzzwords n].
Proof.
  intros H Hin. destruct (get_indicators_blocks _ _ H)
    as (b4 & n4 & b5 & x5 & b6 & b7 & b8 & w8 & n8 & E4 & _ & _ & _ & _ & E).
  cbv zeta in E. rewrite E in Hin. apply in_lines in Hin; [|discriminate].
  rewrite !in_app_iff in Hin.
  destruct Hin as [K | [K | [K | [K | [K | [K | [K | K]]]]]]];
    apply in_when in K; destruct K as [Kb Ki]; try discriminate Ki.
  subst b4. rewrite Ki in E4. exact E4.
Qed.

Lemma paragraph_line_block (t : text) (found : list indicator) :
  _get_indicators t = Some found -> In BalancedParagraphs found ->
  paragraph_indicator (paragraphs t) = Some [BalancedParagraphs].
Proof.
  intros H Hin. destruct (get_indicators_blocks _ _ H)
    as (b4 & n4 & b5 & x5 & b6 & b7 & b8 & w8 & n8 & _ & _ & _ & E7 & _ & E).
  cbv zeta in E. rewrite E in Hin. apply in_lines in Hin; [|discriminate].
  rewrite !in_app_iff in Hin.
  destruct Hin as [K | [K | [K | [K | [K | [K | [K | K]]]]]]];
    apply in_when in K; destruct K as [Kb Ki]; try discriminate Ki.
  subst b7. exact E7.
Qed.

(** *** The buzzword line *)

(** A quotient of counts that exceeds the float 0.02 is the quotient
    of a count that exceeds a fiftieth of the other. *)
Lemma truediv_above_fiftieth (a b : nat) (r : Q) :
  truediv a b = Some r -> flt (lit 2 100) r = true -> (b < 50 * a)%nat.
Proof.
  intros E F. destruct b as [|b]; [discriminate E|].
  apply some_inj in E. subst r. apply flt_spec in F.
  destruct (Nat.lt_ge_cases (S b) (50 * a)) as [L | L]; [exact L|]. exfalso.
  apply (Qlt_irrefl (lit 2 100)). eapply Qlt_le_trans; [exact F|].
  apply Qle_trans with (rnd (lit 2 100));
    [|unfold lit; rewrite rnd_idem; apply Qle_refl].
  apply rnd_le. apply Qle_trans with (1 # 50); [|qle_const].
  unfold Qle.
  change (Qnum (Z.of_nat a # Pos.of_nat (S b))) with (Z.of_nat a).
  change (Zpos (Qden (Z.of_nat a # Pos.of_nat (S b)))) with (Zpos (Pos.of_nat (S b))).
  change (Qnum (1 # 50)) with 1%Z. change (Zpos (Qden (1 # 50))) with 50%Z.
  rewrite Zpos_of_nat_S. lia.
Qed.

Lemma buzzword_indicator_fires (ws : list text) (n : nat) :
  buzzword_indicator ws = Some [Buzzwords n] ->
  n = count_if (fun word => mem (strip_chars is_punctuation word) ai_buzzwords) ws
  /\ (length ws < 50 * n)%nat.
Proof.
  unfold buzzword_indicator. destruct ws as [|w ws]; intro H.
  - apply some_inj in H. discriminate H.
  - apply bind_some in H. destruct H as (r & Er & H).
    apply some_inj in H. apply when_single in H. destruct H as [F En].
    injection En as En. split; [symmetry; exact En|].
    rewrite <- En. apply (truediv_above_fiftieth _ _ _ Er F).
Qed.

(** X14. When the reporter emits the line on buzzwords, with the number
    [n]: [n] is the number of words of the lowered text that, stripped
    of punctuation, are buzzwords; it is at least 1 and more than a
    fiftieth of the number of words. *)
Theorem buzzword_line_count (t : text) :
  (50 <= length (strip t))%nat ->
  exists a,
    analyze_text t = Some (Success a)
    /\ forall n, In (Buzzwords n) (indicators a) ->
         n = count_if (fun word => mem (strip_chars is_punctuation word) ai_buzzwords)
                      (split (lower t))
         /\ (1 <= n)%nat
         /\ (length (split (lower t)) < 50 * n)%nat.
Proof.
  intro G. destruct (analyze_text_returns _ G) as [a H]. exists a.
  split; [exact H|].
  destruct (analyze_text_success _ _ H)
    as (p & s & v & c & found & avg & unique & _ & _ & _ & _ & Ef & _ & _ & _ & ->).
  cbv zeta. cbn [indicators]. intros n Hin.
  destruct (buzzword_indicator_fires _ _ (buzzword_line_block _ _ _ Ef Hin)) as [En L].
  split; [exact En|]. split; [lia | exact L].
Qed.

Lemma buzzword_line_count_witness :
  (50 <= length (strip many_buzzwords))%nat
  /\ exists a,
    analyze_text many_buzzwords = Some (Success a)
    /\ forall n, In (Buzzwords n) (indicators a) ->
         n = count_if (fun word => mem (strip_chars is_punctuation word) ai_buzzwords)
                      (split (lower many_buzzwords))
         /\ (1 <= n)%nat
         /\ (length (split (lower many_buzzwords)) < 50 * n)%nat.
Proof.
  assert (G : (50 <= length (strip many_buzzwords))%nat) by (vm_compute; lia).
  split; [exact G | apply (buzzword_line_count many_buzzwords G)].
Defined.

(** *** The paragraph line *)

Lemma fold_min_le (l : list nat) (x : nat) :
  (fold_left Nat.min l x <= x)%nat
  /\ Forall (fun y => (fold_left Nat.min l x <= y)%nat) l.
Proof.
  revert x. induction l as [|y l IH]; intro x; simpl.
  - split; [lia | constructor].
  - destruct (IH (Nat.min x y)) as (H1 & H2). split; [lia|].
    constructor; [lia | exact H2].
Qed.

(** No element is below [min(l)]. *)
Lemma list_min_spec (l : list nat) (n : nat) :
  list_min l = Some n -> Forall (fun y => (n <= y)%nat) l.
Proof.
  destruct l as [|x l]; [discriminate|]. simpl. intro H.
  apply some_inj in H. subst n.
  destruct (fold_min_le l x) as (H1 & H2). constructor; assumption.
Qed.

Lemma paragraph_indicator_fires (ps : list text) :
  paragraph_indicator ps = Some [BalancedParagraphs] ->
  (2 < length ps)%nat
  /\ forall p q, In p ps -> In q ps -> (words_in p < words_in q + 30)%nat.
Proof.
  unfold paragraph_indicator. destruct (2 <? length ps)%nat eqn:L; intro H.
  - apply Nat.ltb_lt in L. split; [exact L|].
    apply bind_some in H. destruct H as (longest & Emax & H).
    apply bind_some in H. destruct H as (shortest & Emin & H).
    apply some_inj in H. apply when_single in H. destruct H as [D _].
    apply Nat.ltb_lt in D.
    destruct (list_max_spec _ _ Emax) as [_ Hmax].
    pose proof (list_min_spec _ _ Emin) as Hmin.
    rewrite Forall_forall in Hmax, Hmin.
    intros p q Hp Hq.
    pose proof (Hmax (words_in p) (in_map words_in ps p Hp)).
    pose proof (Hmin (words_in q) (in_map words_in ps q Hq)).
    lia.
  - apply some_inj in H. discriminate H.
Qed.

(** X15. When the reporter says that the paragraph lengths are uniformly
    balanced, the text has more than two paragraphs and no paragraph
    has 30 words more than another. *)
Theorem paragraph_line_balance (t : text) :
  (50 <= length (strip t))%nat ->
  exists a,
    analyze_text t = Some (Success a)
    /\ (In BalancedParagraphs (indicators a) ->
        (2 < length (paragraphs t))%nat
        /\ forall p q, In p (paragraphs t) -> In q (paragraphs t) ->
             (words_in p < words_in q + 30)%nat).
Proof.
  intro G. destruct (analyze_text_returns _ G) as [a H]. exists a.
  split; [exact H|].
  destruct (analyze_text_success _ _ H)
    as (p & s & v & c & found & avg & unique & _ & _ & _ & _ & Ef & _ & _ & _ & ->).
  cbv zeta. cbn [indicators]. intro Hin.
  apply paragraph_indicator_fires, (paragraph_line_block _ _ Ef Hin).
Qed.

Lemma paragraph_line_balance_witness :
  (50 <= length (strip three_paragraphs))%nat
  /\ exists a,
    analyze_text three_paragraphs = Some (Success a)
    /\ (In BalancedParagraphs (indicators a) ->
        (2 < length (paragraphs three_paragraphs))%nat
        /\ forall p q, In p (paragraphs three_paragraphs) ->
             In q (paragraphs three_paragraphs) ->
             (words_in p < words_in q + 30)%nat).
Proof.
  assert (G : (50 <= length (strip three_paragraphs))%nat) by (vm_compute; lia).
  split; [exact G | apply (paragraph_line_balance three_paragraphs G)].
Defined.

End CountLines.

(** ** Texts too small for a check *)

Module Defaults.
Import Float Str Re AIDetectionService Notions Examples Lines Texts FloatFacts Totality Gate.
Import Reporter Matching Bounds Aggregation Patterns Repetition Structure ReporterList LinesAndScores OpeningLine CountLines.

(** X16. The checks that need a minimum of material fall back to fixed
    values below it: with fewer than two sentences the structure
    metric is 20; with fewer than three the repetition metric is 0 and
    the structure line is not emitted; with fewer than four the line
    on sentence openings is not emitted; with fewer than three
    paragraphs the paragraph line is not emitted; with fewer than ten
    words the vocabulary metric is 20. *)
Theorem small_text_defaults (t : text) :
  (50 <= length (strip t))%nat ->
  exists a,
    analyze_text t = Some (Success a)
    /\ ((length (sentences t) < 2)%nat -> structure_score (metrics a) = inject_Z 20)
    /\ ((length (sentences t) < 3)%nat ->
        repetition_score (metrics a) = 0 /\ ~ In ConsistentStructure (indicators a))
    /\ ((length (sentences t) < 4)%nat ->
        forall w n, ~ In (RepetitiveOpenings w n) (indicators a))
    /\ ((length (paragraphs t) < 3)%nat -> ~ In BalancedParagraphs (indicators a))
    /\ ((length (findall_words (lower t)) < 10)%nat ->
        vocabulary_score (metrics a) = inject_Z 20).
Proof.
  intro G. destruct (analyze_text_returns _ G) as [a H]. exists a.
  split; [exact H|].
  destruct (analyze_text_success _ _ H)
    as (p & s & v & c & found & avg & unique & _ & Es & Ev & _ & Ef & _ & _ & _ & ->).
  cbv zeta.
  cbn [indicators metrics structure_score repetition_score vocabulary_score].
  split.
  { intro L. unfold _analyze_structure in Es.
    apply Nat.ltb_lt in L. rewrite L in Es. apply some_inj in Es. subst s.
    vm_compute. reflexivity. }
  split.
  { intro L. split.
    - unfold _check_repetition. apply Nat.ltb_lt in L. rewrite L.
      vm_compute. reflexivity.
    - intro Hin.
      destruct (structure_indicator_fires _ (structure_line_block _ _ Ef Hin)) as [L2 _].
      lia. }
  split.
  { intros L w n Hin.
    destruct (opening_indicator_fires _ _ _ (opening_line_block _ _ _ _ Ef Hin))
      as [L3 _].
    lia. }
  split.
  { intros L Hin.
    destruct (paragraph_indicator_fires _ (paragraph_line_block _ _ Ef Hin)) as [L2 _].
    lia. }
  intro L. unfold _analyze_vocabulary in Ev.
  apply Nat.ltb_lt in L. rewrite L in Ev. apply some_inj in Ev. subst v.
  vm_compute. reflexivity.
Qed.

Lemma small_text_defaults_witness :
  (50 <= length (strip one_sentence))%nat
  /\ exists a,
    analyze_text one_sentence = Some (Success a)
    /\ ((length (sentences one_sentence) < 2)%nat ->
        structure_score (metrics a) = inject_Z 20)
    /\ ((length (sentences one_sentence) < 3)%nat ->
        repetition_score (metrics a) = 0 /\ ~ In ConsistentStructure (indicators a))
    /\ ((length (sentences one_sentence) < 4)%nat ->
        forall w n, ~ In (RepetitiveOpenings w n) (indicators a))
    /\ ((length (paragraphs one_sentence) < 3)%nat ->
        ~ In BalancedParagraphs (indicators a))
    /\ ((length (findall_words (lower one_sentence)) < 10)%nat ->
        vocabulary_score (metrics a) = inject_Z 20).
Proof.
  assert (G : (50 <= length (strip one_sentence))%nat) by (vm_compute; lia).
  split; [exact G | apply (small_text_defaults one_sentence G)].
Defined.

End Defaults.

(** ** No helper raises *)

Module NoRaise.
Import Float Str Re AIDetectionService Notions Examples Lines Texts FloatFacts Totality Gate.
Import Reporter Matching Bounds Aggregation Patterns Repetition Structure.

(** X13. On every text, the empty one and those below the length gate
    included, each analyzer, the reporter and both statistics helpers
    return a value: no division by zero, no [max] or [min] of an empty
    list, no square root of a negative number. *)
Theorem helpers_return (t : text) :
  (exists p, _check_ai_patterns t = Some p)
  /\ (exists s, _analyze_structure t = Some s)
  /\ (exists v, _analyze_vocabulary t = Some v)
  /\ (exists c, _analyze_consistency t = Some c)
  /\ (exists found, _get_indicators t = Some found)
  /\ (exists avg, _avg_sentence_length t = Some avg)
  /\ (exists unique, _unique_word_ratio t = Some unique).
Proof.
  split; [apply check_ai_patterns_some|].
  split; [apply analyze_structure_some|].
  split; [apply analyze_vocabulary_some|].
  split; [apply analyze_consistency_some|].
  split; [apply get_indicators_some|].
  split; [apply avg_sentence_length_some | apply unique_word_ratio_some].
Qed.

End NoRaise.
